(** * httpd-epoll: an event-driven HTTP/1.1 server, embedded in Rocq

    Shallow embedding of [httpd-epoll.c] (and, for comparison, of the
    start-up check of [http-server.c]).

    - C strings are [string]s (lists of 8-bit [ascii]); a buffer of
      [n] received bytes is a [string] of length [n], and the byte the
      code finds at index [n] is the NUL that [handle_client_data]
      stores there.
    - [int] values are [Z]; where a value can leave the range of
      its C type the wrap-around is written out ([to_int32]).
    - The kernel side (epoll interest list, descriptor table) is a
      [world] that every system call transforms; each call is also
      appended to a trace.  What the environment answers (what [read]
      or [accept] returns) is an input of the model.
    - The process followed is one that no signal ends.  None of the
      programs changes the action of SIGPIPE, so a [write] or [send]
      to a peer that has reset ends the process at that call; the
      calls it has made by then are a prefix of the trace given here
      ([until_send]). *)

From Stdlib Require Import ZArith String Ascii DecimalString Lia.
From stdpp Require Import gmap strings list.

Open Scope string_scope.
Open Scope Z_scope.

(** ** Bytes and C strings *)

Definition NUL : ascii := "000"%char.
Definition SP  : ascii := " "%char.
Definition CR  : ascii := "013"%char.
Definition LF  : ascii := "010"%char.
Definition HT  : ascii := "009"%char.
Definition DQ  : ascii := "034"%char.

Definition CRLF : string := String CR (String LF EmptyString).

(** [#define BUFFER_SIZE 4096] *)
Definition BUFFER_SIZE : Z := 4096.

(** [struct sHttpRequest { char method[16]; char url[1024]; }] *)
Record httpreq := { method : string; url : string }.

Definition METHOD_SIZE : nat := 16.
Definition URL_SIZE : nat := 1024.

(** [buf[i]]: the byte at index [i]; past the received bytes the
    buffer holds the terminating NUL. *)
Fixpoint char_at (buf : string) (i : nat) : ascii :=
  match buf, i with
  | EmptyString, _ => NUL
  | String c _, O => c
  | String _ r, S i' => char_at r i'
  end.

(** [buf[i] = c]; storing a NUL on the terminator leaves the received
    bytes as they are. *)
Fixpoint store (buf : string) (i : nat) (c : ascii) : string :=
  match buf, i with
  | EmptyString, _ => EmptyString
  | String _ r, O => String c r
  | String b r, S i' => String b (store r i' c)
  end.

(** [buf + i] *)
Fixpoint advance (buf : string) (i : nat) {struct i} : string :=
  match i, buf with
  | O, _ => buf
  | S i', String _ r => advance r i'
  | S _, EmptyString => EmptyString
  end.

(** The C string that starts at [buf]: the bytes before the first NUL. *)
Fixpoint cstring (buf : string) : string :=
  match buf with
  | EmptyString => EmptyString
  | String c r => if Ascii.eqb c NUL then EmptyString else String c (cstring r)
  end.

(** [for (p = str; *p && !stop p; p++);] leaves [p - str] bytes behind. *)
Fixpoint scan (stop : ascii -> bool) (str : string) : nat :=
  match str with
  | EmptyString => O
  | String c r => if Ascii.eqb c NUL || stop c then O else S (scan stop r)
  end.

(** The first [n] bytes of [s]. *)
Fixpoint take_bytes (n : nat) (s : string) : string :=
  match n, s with
  | O, _ => EmptyString
  | S n', String c r => String c (take_bytes n' r)
  | S _, EmptyString => EmptyString
  end.

(** [strncpy(dst, src, n)] into a zeroed [dst] of [n+1] bytes, read
    back as a C string; [src] is given as a C string. *)
Definition strncpy (n : nat) (src : string) : string := take_bytes n src.

(** [strcmp(a, b) == 0] *)
Definition strcmp_eq (a b : string) : bool := String.eqb a b.

Definition is_space (c : ascii) : bool := Ascii.eqb c SP.

Definition is_url_end (c : ascii) : bool :=
  Ascii.eqb c SP || Ascii.eqb c CR || Ascii.eqb c LF.

(** ** [parse_http]

    Returns the request (or [None] for [NULL]) together with the
    buffer as the function leaves it: the C code writes NUL over the
    byte that ends each token.  [alloc] is whether [malloc] succeeds. *)
Definition parse_http (alloc : bool) (str : string) : option httpreq * string :=
  if negb alloc then (None, str) else
  (* for (p = str; *p && *p != ' '; p++); *)
  let p := scan is_space str in
  if negb (Ascii.eqb (char_at str p) SP) then (None, str) else
  (* *p = 0; strncpy(req->method, str, sizeof(req->method) - 1); *)
  let str1 := store str p NUL in
  let m := strncpy (METHOD_SIZE - 1) (cstring str1) in
  (* str = ++p; for (; *p && *p != ' ' && *p != '\r' && *p != '\n'; p++); *)
  let u := S p in
  let q := (u + scan is_url_end (advance str1 u))%nat in
  (* *p = 0; strncpy(req->url, str, sizeof(req->url) - 1); *)
  let str2 := store str1 q NUL in
  let t := strncpy (URL_SIZE - 1) (cstring (advance str2 u)) in
  (Some {| method := m; url := t |}, str2).

(** ** The kernel side: descriptors, the epoll interest list, the trace *)

Inductive event :=
  | EvAccept (ret : Z)
  | EvFcntl (fd : Z)
  | EvEpollAdd (epfd fd : Z) (ok : bool)
  | EvEpollDel (epfd fd : Z)
  | EvRead (fd count ret errno : Z)
  | EvWrite (fd : Z) (buf : string) (n : Z)
  | EvClose (fd : Z)
  | EvStdout (line : string)
  | EvStderr (line : string)
  | EvPerror (what : string).

Record world := {
  registry : gset Z;      (* descriptors on the interest list of the epoll instance *)
  open_fds : gset Z;      (* open descriptors *)
  trace : list event      (* calls made so far, oldest first *)
}.

Definition emit (e : event) (w : world) : world :=
  {| registry := registry w; open_fds := open_fds w; trace := (trace w ++ [e])%list |}.

(** [epoll_ctl(epoll_fd, EPOLL_CTL_DEL, fd, NULL)] *)
Definition epoll_ctl_del (epoll_fd fd : Z) (w : world) : world :=
  emit (EvEpollDel epoll_fd fd)
    {| registry := registry w ∖ {[fd]}; open_fds := open_fds w; trace := trace w |}.

(** [epoll_ctl(epoll_fd, EPOLL_CTL_ADD, fd, &event)]; [ok] is whether
    the kernel takes the registration. *)
Definition epoll_ctl_add (epoll_fd fd : Z) (ok : bool) (w : world) : world :=
  emit (EvEpollAdd epoll_fd fd ok)
    {| registry := if ok then registry w ∪ {[fd]} else registry w;
       open_fds := open_fds w; trace := trace w |}.

(** [close(fd)]: the descriptor is gone; the interest list is only
    changed by [epoll_ctl]. *)
Definition sys_close (fd : Z) (w : world) : world :=
  emit (EvClose fd)
    {| registry := registry w; open_fds := open_fds w ∖ {[fd]}; trace := trace w |}.

(** A successful [accept], [socket] or [epoll_create1] opens the
    descriptor it returns; a failed one returns -1. *)
Definition sys_open (ret : Z) (w : world) : world :=
  {| registry := registry w;
     open_fds := if ret <? 0 then open_fds w else open_fds w ∪ {[ret]};
     trace := trace w |}.

Definition sys_accept (ret : Z) (w : world) : world :=
  emit (EvAccept ret) (sys_open ret w).

Definition printf (line : string) : world -> world := emit (EvStdout line).
Definition fprintf_stderr (line : string) : world -> world := emit (EvStderr line).
Definition perror (what : string) : world -> world := emit (EvPerror what).

(** ** Formatting *)

(** [%d] *)
Definition dec (z : Z) : string := NilZero.string_of_int (Z.to_int z).

(** Conversion to [int] (32 bits, two's complement). *)
Definition to_int32 (z : Z) : Z := (z + 2 ^ 31) mod 2 ^ 32 - 2 ^ 31.

Definition strlen (s : string) : Z := Z.of_nat (String.length s).

(** The format string of [http_send_response] with its five arguments
    filled in. *)
Definition response_text (code : Z) (status contenttype : string)
    (body_len : Z) (body : string) : string :=
  "HTTP/1.1 " +:+ dec code +:+ " " +:+ status +:+ CRLF +:+
  "Content-Type: " +:+ contenttype +:+ CRLF +:+
  "Content-Length: " +:+ dec body_len +:+ CRLF +:+
  "Connection: close" +:+ CRLF +:+
  CRLF +:+
  body.

(** [snprintf(buf, size, ...)]: the text is cut to [size - 1] bytes in
    [buf]; the value returned is the length of the whole text. *)
Definition snprintf (size : Z) (text : string) : string * Z :=
  (take_bytes (Z.to_nat (size - 1)) text, to_int32 (strlen text)).

(** ** [http_send_response]

    A NULL [contenttype] or [body] is [None].  The [write] is
    followed to its return; a process that SIGPIPE ends there has
    made the calls up to that [write] and no other. *)
Definition http_send_response (fd code : Z) (status : string)
    (contenttype body : option string) (w : world) : world :=
  let body := default EmptyString body in
  let contenttype := default "text/plain" contenttype in
  let body_len := to_int32 (strlen body) in
  let '(buf, n) :=
    snprintf BUFFER_SIZE (response_text code status contenttype body_len body) in
  emit (EvWrite fd buf n) w.

Definition HTML_BODY : string := "<html><h4>Hello World!!</h4></html>".

Definition JSON_BODY : string :=
  "{" +:+ String DQ "message" +:+ String DQ ": " +:+
  String DQ "Hello World!!!" +:+ String DQ "}".

(** ** [handle_request] *)
Definition handle_request (alloc : bool) (fd : Z) (request : string)
    (w : world) : world :=
  match fst (parse_http alloc request) with
  | None =>
      http_send_response fd 400 "Bad Request" (Some "text/plain")
        (Some "Malformed request") w
  | Some req =>
      let w :=
        printf ("'" +:+ method req +:+ "'" +:+ String HT "'" +:+ url req +:+
                "'" +:+ String LF EmptyString) w in
      if strcmp_eq (method req) "GET" then
        if strcmp_eq (url req) "/index.html" || strcmp_eq (url req) "/" then
          http_send_response fd 200 "OK" (Some "text/html") (Some HTML_BODY) w
        else if strcmp_eq (url req) "/data.json" then
          http_send_response fd 200 "OK" (Some "application/json")
            (Some JSON_BODY) w
        else
          http_send_response fd 404 "Not Found" (Some "text/plain")
            (Some "File not found!") w
      else
        http_send_response fd 405 "Method Not Allowed" (Some "text/plain")
          (Some "Only GET supported") w
  end.

(** ** Values from the system headers (Linux) *)

Definition EAGAIN : Z := 11.
Definition EWOULDBLOCK : Z := 11.
Definition EPOLLIN : Z := 1.
Definition EPOLLERR : Z := 8.
Definition EPOLLHUP : Z := 16.

(** ** [read] on a non-blocking socket

    The environment is the list of what successive [read] calls find:
    a chunk of bytes (the empty chunk is end-of-stream) or an error.
    A call takes at most [count] bytes of the first chunk and leaves
    the rest of it for the next call; with nothing left to find, the
    call would block. *)
Inductive read_outcome :=
  | ReadOk (data : string)
  | ReadErr (errno : Z).

Record read_result := { bytes_read : Z; buffer : string; read_errno : Z }.

Definition sys_read (fd count : Z) (input : list read_outcome) (w : world)
    : read_result * list read_outcome * world :=
  let '(r, input) :=
    match input with
    | [] => ({| bytes_read := -1; buffer := EmptyString; read_errno := EAGAIN |}, [])
    | ReadErr e :: rest =>
        ({| bytes_read := -1; buffer := EmptyString; read_errno := e |}, rest)
    | ReadOk data :: rest =>
        let got := take_bytes (Z.to_nat count) data in
        let left := advance data (Z.to_nat count) in
        ({| bytes_read := strlen got; buffer := got; read_errno := 0 |},
         match left with EmptyString => rest | _ => ReadOk left :: rest end)
    end in
  (r, input, emit (EvRead fd count (bytes_read r) (read_errno r)) w).

(** ** [handle_client_data]

    Returns the world and what is left unread on the socket. *)
Definition handle_client_data (alloc : bool) (client_fd epoll_fd : Z)
    (input : list read_outcome) (w : world) : world * list read_outcome :=
  (* bytes_read = read(client_fd, buffer, sizeof(buffer) - 1); *)
  let '(r, input, w) := sys_read client_fd (BUFFER_SIZE - 1) input w in
  if bytes_read r <=? 0 then
    let w :=
      if bytes_read r =? 0 then
        printf ("Connection closed: fd=" +:+ dec client_fd +:+ String LF EmptyString) w
      else if negb (read_errno r =? EAGAIN) && negb (read_errno r =? EWOULDBLOCK) then
        perror "read" w
      else w in
    let w := epoll_ctl_del epoll_fd client_fd w in
    let w := sys_close client_fd w in
    (w, input)
  else
    (* buffer[bytes_read] = 0 is the terminator that [char_at] finds *)
    let w := handle_request alloc client_fd (buffer r) w in
    let w := epoll_ctl_del epoll_fd client_fd w in
    let w := sys_close client_fd w in
    (w, input).

(** ** [set_nonblocking]: the two [fcntl] calls succeed or not *)
Definition set_nonblocking (fd : Z) (getfl_ok setfl_ok : bool) (w : world)
    : Z * world :=
  let w := emit (EvFcntl fd) w in
  if negb getfl_ok then (-1, perror "fcntl F_GETFL" w)
  else
    let w := emit (EvFcntl fd) w in
    if negb setfl_ok then (-1, perror "fcntl F_SETFL" w) else (0, w).

(** ** [accept_connections]

    The environment is the queue of pending connections: for each,
    what [accept] returns and whether the two set-up steps succeed.
    With the queue empty, [accept] would block. *)
Record incoming := {
  acc_ret : Z;
  acc_errno : Z;
  acc_getfl_ok : bool;
  acc_setfl_ok : bool;
  acc_add_ok : bool
}.

(** One turn of the [while (1)] body; [true] means the loop goes on. *)
Definition accept_one (epoll_fd : Z) (c : incoming) (w : world) : bool * world :=
  let client_fd := acc_ret c in
  let w := sys_accept client_fd w in
  if client_fd <? 0 then
    if (acc_errno c =? EAGAIN) || (acc_errno c =? EWOULDBLOCK) then (false, w)
    else (false, perror "accept" w)
  else
    let w := printf ("New connection: fd=" +:+ dec client_fd +:+ String LF EmptyString) w in
    let '(r, w) := set_nonblocking client_fd (acc_getfl_ok c) (acc_setfl_ok c) w in
    if r =? -1 then (true, sys_close client_fd w)
    else
      let w := epoll_ctl_add epoll_fd client_fd (acc_add_ok c) w in
      if negb (acc_add_ok c) then
        (true, sys_close client_fd (perror "epoll_ctl: add client" w))
      else (true, w).

Fixpoint accept_connections (server_fd epoll_fd : Z) (backlog : list incoming)
    (w : world) : world :=
  match backlog with
  | [] => sys_accept (-1) w
  | c :: rest =>
      let '(continue, w) := accept_one epoll_fd c w in
      if continue then accept_connections server_fd epoll_fd rest w else w
  end.

(** ** The event loop of [main] *)

(** One entry of [events[]] after [epoll_wait], with what the
    environment holds for the handler that the entry starts. *)
Record ready := {
  ev_events : Z;
  ev_fd : Z;
  ev_backlog : list incoming;
  ev_input : list read_outcome;
  ev_alloc : bool
}.

(** The body of [for (i = 0; i < nevents; i++)]. *)
Definition dispatch (server_fd epoll_fd : Z) (ev : ready) (w : world) : world :=
  let fd := ev_fd ev in
  if negb (Z.land (ev_events ev) (Z.lor EPOLLERR EPOLLHUP) =? 0) then
    let w := fprintf_stderr ("epoll error on fd " +:+ dec fd +:+ String LF EmptyString) w in
    let w := epoll_ctl_del epoll_fd fd w in
    sys_close fd w
  else if fd =? server_fd then
    accept_connections server_fd epoll_fd (ev_backlog ev) w
  else if negb (Z.land (ev_events ev) EPOLLIN =? 0) then
    fst (handle_client_data (ev_alloc ev) fd epoll_fd (ev_input ev) w)
  else w.

Definition process_events (server_fd epoll_fd : Z) (evs : list ready)
    (w : world) : world :=
  fold_left (fun w ev => dispatch server_fd epoll_fd ev w) evs w.

(** What [epoll_wait] returns: a batch of events, or -1. *)
Inductive wait_result :=
  | Ready (evs : list ready)
  | WaitFails.

(** [while (1) { ... }] over the successive returns of [epoll_wait];
    [true] when the loop was left through [break]. *)
Fixpoint event_loop (server_fd epoll_fd : Z) (waits : list wait_result)
    (w : world) : bool * world :=
  match waits with
  | [] => (false, w)
  | WaitFails :: _ => (true, perror "epoll_wait" w)
  | Ready evs :: rest =>
      event_loop server_fd epoll_fd rest (process_events server_fd epoll_fd evs w)
  end.

(** ** Start-up: [atoi], [srv_init], [main] *)

Definition isspace (c : ascii) : bool :=
  let n := nat_of_ascii c in ((9 <=? n) && (n <=? 13))%nat || Ascii.eqb c SP.

Definition isdigit (c : ascii) : bool :=
  let n := nat_of_ascii c in ((48 <=? n) && (n <=? 57))%nat.

Fixpoint skip_spaces (s : string) : string :=
  match s with
  | String c r => if isspace c then skip_spaces r else s
  | EmptyString => s
  end.

Fixpoint digits (acc : Z) (s : string) : Z :=
  match s with
  | String c r =>
      if isdigit c then digits (10 * acc + (Z.of_nat (nat_of_ascii c) - 48)) r
      else acc
  | EmptyString => acc
  end.

(** From [limits.h] (Linux, 64-bit). *)
Definition LONG_MAX : Z := 2 ^ 63 - 1.
Definition LONG_MIN : Z := - 2 ^ 63.

(** [strtol(s, NULL, 10)]: blanks, an optional sign, then the leading
    digits; 0 when there is no digit, and the nearest bound when the
    number does not fit a [long]. *)
Definition strtol (s : string) : Z :=
  let v :=
    match skip_spaces s with
    | String "-" r => - digits 0 r
    | String "+" r => digits 0 r
    | r => digits 0 r
    end in
  Z.max LONG_MIN (Z.min LONG_MAX v).

(** [atoi]: in glibc [(int) strtol(s, NULL, 10)], so a number that
    does not fit an [int] keeps its low 32 bits. *)
Definition atoi (s : string) : Z := to_int32 (strtol s).

(** [htons] on the port: the low 16 bits, in network order. *)
Definition htons (portno : Z) : Z := portno mod 2 ^ 16.

(** What the operating system answers during start-up. *)
Record setup := {
  socket_ret : Z;
  setsockopt_ok : bool;
  inet_pton_ok : bool;
  bind_ok : Z -> bool;         (* by port, as given to the kernel *)
  listen_ok : bool;
  srv_getfl_ok : bool;
  srv_setfl_ok : bool;
  epoll_create1_ret : Z;
  add_server_ok : bool
}.

Definition LISTENADDR : string := "127.0.0.1".

(** [srv_init] of [httpd-epoll.c] *)
Definition srv_init (portno : Z) (os : setup) (w : world) : Z * world :=
  let s := socket_ret os in
  let w := sys_open s w in
  if s <? 0 then (-1, perror "socket" w)
  else if negb (setsockopt_ok os) then (-1, sys_close s (perror "setsockopt" w))
  else if negb (inet_pton_ok os) then
    (-1, sys_close s (fprintf_stderr
           ("inet_pton failed for " +:+ LISTENADDR +:+ String LF EmptyString) w))
  else if negb (bind_ok os (htons portno)) then (-1, sys_close s (perror "bind" w))
  else if negb (listen_ok os) then (-1, sys_close s (perror "listen" w))
  else
    let '(r, w) := set_nonblocking s (srv_getfl_ok os) (srv_setfl_ok os) w in
    if r =? -1 then (-1, sys_close s w) else (s, w).

(** How a run of [main] stands once the given returns of [epoll_wait]
    are used up. *)
Inductive run :=
  | Exited (status : Z)
  | Serving.

Definition initial : world := {| registry := ∅; open_fds := ∅; trace := [] |}.

(** [main] of [httpd-epoll.c]; [argc] is the length of [argv]. *)
Definition main (argv : list string) (os : setup) (waits : list wait_result)
    : run * world :=
  let w := initial in
  let prog := default EmptyString (argv !! 0%nat) in
  match argv !! 1%nat with
  | None =>
      (Exited 1, fprintf_stderr ("Usage: " +:+ prog +:+ " <port>" +:+ String LF EmptyString) w)
  | Some arg =>
      let port := atoi arg in
      let '(server_fd, w) := srv_init port os w in
      if server_fd <? 0 then
        (Exited 1, fprintf_stderr ("Failed to initialize server" +:+ String LF EmptyString) w)
      else
        let w := printf ("Server listening on " +:+ LISTENADDR +:+ ":" +:+ dec port
                         +:+ String LF EmptyString) w in
        let w := printf ("Using epoll for event-driven I/O (like Node.js and nginx)"
                         +:+ String LF EmptyString) w in
        let epoll_fd := epoll_create1_ret os in
        let w := sys_open epoll_fd w in
        if epoll_fd =? -1 then (Exited 1, sys_close server_fd (perror "epoll_create1" w))
        else
          let w := epoll_ctl_add epoll_fd server_fd (add_server_ok os) w in
          if negb (add_server_ok os) then
            (Exited 1, sys_close epoll_fd (sys_close server_fd
                         (perror "epoll_ctl: add server" w)))
          else
            let w := printf ("Event loop started. Waiting for connections..."
                             +:+ String LF EmptyString) w in
            let '(broke, w) := event_loop server_fd epoll_fd waits w in
            if broke then (Exited 0, sys_close epoll_fd (sys_close server_fd w))
            else (Serving, w)
  end.

(** The start of [main] in [http-server.c], the fork-based sibling:
    the same two steps with a check of the port between them.  [None]
    when the sibling goes on to [srv_init]. *)
Definition http_server_main_check (argv : list string) : option (Z * string) :=
  let prog := default EmptyString (argv !! 0%nat) in
  match argv !! 1%nat with
  | None => Some (1, "Usage: " +:+ prog +:+ " <port>" +:+ String LF EmptyString)
  | Some arg =>
      let port := atoi arg in
      if port <=? 0 then Some (1, "Bad port" +:+ String LF EmptyString) else None
  end.

(** ** Vocabulary of the statements *)

Fixpoint all_bytes (P : ascii -> bool) (s : string) : bool :=
  match s with
  | EmptyString => true
  | String c r => P c && all_bytes P r
  end.

(** A run of bytes that the scan for [stop] walks through. *)
Definition passes (stop : ascii -> bool) (s : string) : bool :=
  all_bytes (fun c => negb (Ascii.eqb c NUL || stop c)) s.

Definition has_space (s : string) : bool := negb (all_bytes (fun c => negb (is_space c)) s).



(** The wire form of a response as section 6 of the specification
    gives it; [<n>] is the byte length of the body. *)
Definition wire_form (code : Z) (reason type body : string) : string :=
  "HTTP/1.1 " +:+ dec code +:+ " " +:+ reason +:+ CRLF +:+
  "Content-Type: " +:+ type +:+ CRLF +:+
  "Content-Length: " +:+ dec (strlen body) +:+ CRLF +:+
  "Connection: close" +:+ CRLF +:+ CRLF +:+ body.

(** Between [w] and [w'] one [write] was made, on [fd], of all the
    bytes of [text] and no more; nothing else happened but logging to
    the standard output. *)
Definition sends (w w' : world) (fd : Z) (text : string) : Prop :=
  exists log,
    trace w' = (trace w ++ log ++ [EvWrite fd text (strlen text)])%list /\
    Forall (fun e => exists line, e = EvStdout line) log.

(** The targets that [handle_request] knows. *)
Definition known_targets : list string := ["/index.html"; "/"; "/data.json"].

(** The five responses that [handle_request] can ask for:
    code, reason, content type, body. *)
Definition canned : list (Z * string * string * string) :=
  [ (400, "Bad Request", "text/plain", "Malformed request");
    (200, "OK", "text/html", HTML_BODY);
    (200, "OK", "application/json", JSON_BODY);
    (404, "Not Found", "text/plain", "File not found!");
    (405, "Method Not Allowed", "text/plain", "Only GET supported") ].

(** A [write] in the trace carries one of them in wire form, whole. *)
Definition wire_event (e : event) : Prop :=
  match e with
  | EvWrite _ buf n =>
      exists code reason type body,
        In (code, reason, type, body) canned /\
        buf = wire_form code reason type body /\ n = strlen buf
  | _ => True
  end.

Definition to_upper_byte (c : ascii) : ascii :=
  let n := nat_of_ascii c in
  if ((97 <=? n) && (n <=? 122))%nat then ascii_of_nat (n - 32) else c.

Fixpoint to_upper (s : string) : string :=
  match s with
  | EmptyString => EmptyString
  | String c r => String (to_upper_byte c) (to_upper r)
  end.

(** Every [write] made so far carried a whole response in wire form. *)
Definition well_formed_writes (w : world) : Prop := Forall wire_event (trace w).

(** The [read] calls in a trace. *)
Fixpoint reads_of (tr : list event) : list event :=
  match tr with
  | [] => []
  | EvRead fd count ret errno :: r => EvRead fd count ret errno :: reads_of r
  | _ :: r => reads_of r
  end.

(** A [read] after which section 4.3 of the specification lets the
    driver return: it would have blocked, met the end of the stream,
    or filled the buffer. *)
Definition terminal_read (e : event) : bool :=
  match e with
  | EvRead _ _ ret errno =>
      ((ret =? -1) && (errno =? EAGAIN)) || (ret =? 0) || (ret =? BUFFER_SIZE - 1)
  | _ => false
  end.

(** The last [read] of the trace was such a one. *)
Definition ends_drained (tr : list event) : bool :=
  match last (reads_of tr) with
  | Some e => terminal_read e
  | None => false
  end.

(** [n] times the byte [c]. *)
Fixpoint pad (n : nat) (c : ascii) : string :=
  match n with
  | O => EmptyString
  | S n' => String c (pad n' c)
  end.

(** How [handle_client_data] and the error branch of the loop end:
    the descriptor leaves the interest list, then it is closed. *)
Definition teardown (epoll_fd fd : Z) : list event := [EvEpollDel epoll_fd fd; EvClose fd].

(** A world with the listening socket 3, the epoll instance 4 and one
    client, 5, accepted and registered. *)
Definition one_client : world :=
  {| registry := {[3; 5]}; open_fds := {[3; 4; 5]}; trace := [] |}.

(** A request line for "/" followed by more bytes than the buffer of
    [handle_client_data] takes: 6 + 5000 bytes. *)
Definition oversized_request : string := "GET / " +:+ pad 5000 "A".

(** ** Invariant I1

    The program keeps no table of connections: a connection is an
    open descriptor other than the listening socket and the epoll
    instance. *)
Definition connections (server_fd epoll_fd : Z) (w : world) : gset Z :=
  open_fds w ∖ {[server_fd; epoll_fd]}.

(** I1: the handles on the interest list, the listening one apart,
    are exactly the live connections. *)
Definition I1 (server_fd epoll_fd : Z) (w : world) : Prop :=
  registry w ∖ {[server_fd]} = connections server_fd epoll_fd w.

(** The invariant of the event loop: I1, and the epoll instance is open. *)
Definition loop_invariant (server_fd epoll_fd : Z) (w : world) : Prop :=
  epoll_fd ∈ open_fds w /\ I1 server_fd epoll_fd w.

(** What the kernel guarantees: [accept] never returns a descriptor
    that is open, and [epoll_wait] only reports descriptors that are
    on the interest list. *)
Definition fresh_accept (c : incoming) (w : world) : bool :=
  (acc_ret c <? 0) || bool_decide (acc_ret c ∉ open_fds w).

Fixpoint backlog_ok (epoll_fd : Z) (backlog : list incoming) (w : world) : bool :=
  match backlog with
  | [] => true
  | c :: rest =>
      fresh_accept c w &&
      (let '(continue, w) := accept_one epoll_fd c w in
       if continue then backlog_ok epoll_fd rest w else true)
  end.

Definition ready_ok (server_fd epoll_fd : Z) (ev : ready) (w : world) : bool :=
  bool_decide (ev_fd ev ∈ registry w) &&
  (if negb (Z.land (ev_events ev) (Z.lor EPOLLERR EPOLLHUP) =? 0) then true
   else if ev_fd ev =? server_fd then backlog_ok epoll_fd (ev_backlog ev) w
   else true).

Fixpoint events_ok (server_fd epoll_fd : Z) (evs : list ready) (w : world) : bool :=
  match evs with
  | [] => true
  | ev :: rest =>
      ready_ok server_fd epoll_fd ev w &&
      events_ok server_fd epoll_fd rest (dispatch server_fd epoll_fd ev w)
  end.

Fixpoint waits_ok (server_fd epoll_fd : Z) (waits : list wait_result) (w : world) : bool :=
  match waits with
  | [] => true
  | WaitFails :: _ => true
  | Ready evs :: rest =>
      events_ok server_fd epoll_fd evs w &&
      waits_ok server_fd epoll_fd rest (process_events server_fd epoll_fd evs w)
  end.

(** The server just before its first [epoll_wait]: listening socket 3
    registered with the epoll instance 4. *)
Definition listening : world :=
  {| registry := {[3]}; open_fds := {[3; 4]}; trace := [] |}.

(** Two clients connect; the first sends a request, the second hangs up. *)
Definition two_clients : list wait_result :=
  [ Ready [ {| ev_events := EPOLLIN; ev_fd := 3;
               ev_backlog :=
                 [ {| acc_ret := 5; acc_errno := 0; acc_getfl_ok := true;
                      acc_setfl_ok := true; acc_add_ok := true |};
                   {| acc_ret := 6; acc_errno := 0; acc_getfl_ok := true;
                      acc_setfl_ok := true; acc_add_ok := true |} ];
               ev_input := []; ev_alloc := true |} ];
    Ready [ {| ev_events := EPOLLIN; ev_fd := 5; ev_backlog := [];
               ev_input := [ReadOk ("GET / HTTP/1.1" +:+ CRLF +:+ CRLF)];
               ev_alloc := true |};
            {| ev_events := Z.lor EPOLLIN EPOLLHUP; ev_fd := 6; ev_backlog := [];
               ev_input := []; ev_alloc := true |} ] ].

(** An operating system where every start-up call succeeds: [socket]
    returns 3 and [epoll_create1] returns 4.  ([bind] to port 0
    succeeds on Linux: the kernel picks a free port.) *)
Definition friendly_os : setup :=
  {| socket_ret := 3; setsockopt_ok := true; inet_pton_ok := true;
     bind_ok := fun _ => true; listen_ok := true;
     srv_getfl_ok := true; srv_setfl_ok := true;
     epoll_create1_ret := 4; add_server_ok := true |}.

Definition is_stderr (e : event) : bool :=
  match e with EvStderr _ | EvPerror _ => true | _ => false end.

(** ** Vocabulary of the further statements *)

(** The [write] calls in a trace. *)
Fixpoint writes_of (tr : list event) : list event :=
  match tr with
  | [] => []
  | EvWrite fd buf n :: r => EvWrite fd buf n :: writes_of r
  | _ :: r => writes_of r
  end.

(** The descriptors that one call of [accept_connections] leaves on
    the interest list: those accepted, before the first failing
    [accept], for which both [fcntl] calls and [epoll_ctl] succeed. *)
Fixpoint registered_by (backlog : list incoming) : list Z :=
  match backlog with
  | [] => []
  | c :: rest =>
      if acc_ret c <? 0 then []
      else if acc_getfl_ok c && acc_setfl_ok c && acc_add_ok c
           then acc_ret c :: registered_by rest
           else registered_by rest
  end.

(** How a scan cuts a buffer: the bytes walked through, then nothing
    or a byte that stops the scan. *)
Definition stops_scan (stop : ascii -> bool) (tail : string) : Prop :=
  match tail with
  | EmptyString => True
  | String c _ => Ascii.eqb c NUL || stop c = true
  end.

(** Calls that deal with a client: [accept], [read], [write]. *)
Definition is_client_io (e : event) : bool :=
  match e with
  | EvAccept _ | EvRead _ _ _ _ | EvWrite _ _ _ => true
  | _ => false
  end.

(** Every step of [srv_init] succeeds. *)
Definition setup_ok (portno : Z) (os : setup) : bool :=
  (0 <=? socket_ret os) && setsockopt_ok os && inet_pton_ok os &&
  bind_ok os (htons portno) && listen_ok os && srv_getfl_ok os && srv_setfl_ok os.

(** The interest list after the calls of a trace are replayed on it. *)
Fixpoint replay (reg : gset Z) (tr : list event) : gset Z :=
  match tr with
  | [] => reg
  | EvEpollAdd _ fd true :: r => replay (reg ∪ {[fd]}) r
  | EvEpollDel _ fd :: r => replay (reg ∖ {[fd]}) r
  | _ :: r => replay reg r
  end.

(** No [close] in the trace hits a descriptor that is on the interest
    list at that moment. *)
Fixpoint closes_clean (reg : gset Z) (tr : list event) : bool :=
  match tr with
  | [] => true
  | EvClose fd :: r => bool_decide (fd ∉ reg) && closes_clean reg r
  | EvEpollAdd _ fd true :: r => closes_clean (reg ∪ {[fd]}) r
  | EvEpollDel _ fd :: r => closes_clean (reg ∖ {[fd]}) r
  | _ :: r => closes_clean reg r
  end.

(** From [w] to [w'] the trace grew by calls that keep that rule, and
    the interest list changed as those calls say. *)
Definition runs_clean (w w' : world) : Prop :=
  exists delta,
    trace w' = (trace w ++ delta)%list /\
    registry w' = replay (registry w) delta /\
    closes_clean (registry w) delta = true.

(** A call that is neither [close] nor [epoll_ctl]. *)
Definition neutral (e : event) : Prop :=
  match e with
  | EvClose _ | EvEpollAdd _ _ _ | EvEpollDel _ _ => False
  | _ => True
  end.

(** * [httpd.c]: the fork-based server with a keep-alive loop

    The child process that [main] forks for a connection runs
    [cli_conn]; the model is that of one such child.  Its socket has
    a receive timeout, so a [read] that finds nothing fails with
    [EAGAIN] as in [sys_read]; [send] is recorded like [write]. *)

(** [tolower] on bytes. *)
Definition tolower (c : ascii) : ascii :=
  let n := nat_of_ascii c in
  if ((65 <=? n) && (n <=? 90))%nat then ascii_of_nat (n + 32) else c.

(** [strcasecmp(a, b) == 0] *)
Fixpoint strcasecmp_eq (a b : string) : bool :=
  match a, b with
  | EmptyString, EmptyString => true
  | String x a', String y b' => Ascii.eqb (tolower x) (tolower y) && strcasecmp_eq a' b'
  | _, _ => false
  end.

(** [needle] is, up to letter case, a prefix of [hay]. *)
Fixpoint prefix_ci (needle hay : string) : bool :=
  match needle, hay with
  | EmptyString, _ => true
  | String x n', String y h' => Ascii.eqb (tolower x) (tolower y) && prefix_ci n' h'
  | String _ _, EmptyString => false
  end.

(** [strcasestr(hay, needle) != NULL] *)
Fixpoint strcasestr (hay needle : string) : bool :=
  prefix_ci needle hay ||
  match hay with
  | EmptyString => false
  | String _ h' => strcasestr h' needle
  end.

Module Httpd.

(** [#define REQ_BUFSIZE 8192] *)
Definition REQ_BUFSIZE : Z := 8192.

(** [parse_http(str, len)] with the global [error] buffer: returns
    the request, the buffer as it is left, and [error] as it is left. *)
Definition parse_http (alloc : bool) (str : string) (len : Z) (error : string)
    : option httpreq * string * string :=
  if len <=? 0 then (None, str, error) else
  if negb alloc then (None, str, error) else
  (* parse method *)
  let p := scan is_space str in
  if negb (Ascii.eqb (char_at str p) SP) then
    (None, str, fst (snprintf 128 ("parse_http() NOSPACE error" +:+ String LF EmptyString)))
  else
  let str1 := store str p NUL in
  let m := strncpy (METHOD_SIZE - 1) (cstring str1) in
  (* next token is URL *)
  let u := S p in
  let q := (u + scan is_space (advance str1 u))%nat in
  if negb (Ascii.eqb (char_at str1 q) SP) then
    (None, str1, fst (snprintf 128 ("parse_http() 2NDNOSPACE error" +:+ String LF EmptyString)))
  else
  let str2 := store str1 q NUL in
  (* strip leading slash if present *)
  let t :=
    if Ascii.eqb (char_at str2 u) "/" then
      strncpy (URL_SIZE - 1) (cstring (advance str2 (S u)))
    else strncpy (URL_SIZE - 1) (cstring (advance str2 u)) in
  (Some {| method := m; url := t |}, str2, error).

(** [cli_read]: the static buffer is zeroed before each [read]. *)
Definition cli_read (c : Z) (input : list read_outcome) (w : world)
    : option string * list read_outcome * world :=
  let '(r, input, w) := sys_read c (REQ_BUFSIZE - 1) input w in
  if bytes_read r =? 0 then (None, input, w)
  else if bytes_read r <? 0 then
    if (read_errno r =? EAGAIN) || (read_errno r =? EWOULDBLOCK) then (None, input, w)
    else (None, input, perror "read" w)
  else (Some (buffer r), input, w).

(** The format string of [http_send_response], filled in. *)
Definition header_text (code : Z) (status content_type : string) (body_len : Z)
    (connection : string) : string :=
  "HTTP/1.1 " +:+ dec code +:+ " " +:+ status +:+ CRLF +:+
  "Content-Type: " +:+ content_type +:+ CRLF +:+
  "Content-Length: " +:+ dec body_len +:+ CRLF +:+
  "Connection: " +:+ connection +:+ CRLF +:+
  CRLF.

(** [http_send_response]: header and body go out in two [send] calls,
    each followed to its return; a process that SIGPIPE ends at one
    of them has made the calls up to it and no other ([until_send]). *)
Definition http_send_response (c code : Z) (status : string)
    (content_type body : option string) (keep_alive : Z) (w : world) : world :=
  let w := printf ("keep-alive = " +:+ dec keep_alive +:+ String LF EmptyString) w in
  let body_len := match body with Some b => strlen b | None => 0 end in
  let '(header, len) :=
    snprintf 1024
      (header_text code status (default "text/plain" content_type) body_len
         (if keep_alive =? 0 then "close" else "keep-alive")) in
  let w := if 0 <? len then emit (EvWrite c header len) w else w in
  if 0 <? body_len then emit (EvWrite c (default EmptyString body) body_len) w else w.

(** The [if (strcasecmp(req->method, "GET") == 0) ... else ...]
    statement of [cli_conn]. *)
Definition respond (c : Z) (req : httpreq) (keep_alive : Z) (w : world) : world :=
  if strcasecmp_eq (method req) "GET" then
    if strcmp_eq (url req) "index.html" || strcmp_eq (url req) EmptyString then
      http_send_response c 200 "OK" (Some "text/html") (Some HTML_BODY) keep_alive w
    else if strcmp_eq (url req) "data.json" then
      http_send_response c 200 "OK" (Some "application/json") (Some JSON_BODY) keep_alive w
    else
      http_send_response c 404 "Not Found" (Some "text/plain") (Some "File not found!")
        keep_alive w
  else
    http_send_response c 405 "Method Not Allowed" (Some "text/plain")
      (Some "Only GET supported") keep_alive w.

(** The body of the [while (keep_alive)] loop of [cli_conn], up to
    the test of the loop: [None] when the loop is left through
    [break], else the new value of [keep_alive]. *)
Definition serve_one (alloc : bool) (c : Z) (input : list read_outcome)
    (error : string) (w : world)
    : option Z * list read_outcome * string * world :=
  let w := printf ("Inside keep-alive while loop!" +:+ String LF EmptyString) w in
  let '(p, input, w) := cli_read c input w in
  match p with
  | None =>
      (None, input, error,
       printf ("timeout or client closed connection" +:+ String LF EmptyString) w)
  | Some p =>
      let '(req, p, error) := parse_http alloc p (to_int32 (strlen (cstring p))) error in
      match req with
      | None =>
          let msg :=
            match cstring error with
            | EmptyString => "parse_http failed" +:+ String LF EmptyString
            | e => e
            end in
          (None, input, error, fprintf_stderr (msg +:+ String LF EmptyString) w)
      | Some req =>
          (* determine if client wants the connection closed explicitly *)
          let keep_alive := if strcasestr (cstring p) "Connection: close" then 0 else 1 in
          let w := respond c req keep_alive w in
          let w :=
            printf ("'" +:+ method req +:+ "'" +:+ String HT "'" +:+ url req +:+
                    "'" +:+ String LF EmptyString) w in
          (Some keep_alive, input, error, w)
      end
  end.

(** [while (keep_alive) { ... }], at most [fuel] turns; [None] when
    the turns run out. *)
Fixpoint serve_loop (fuel : nat) (alloc : bool) (c : Z) (input : list read_outcome)
    (error : string) (w : world) : option world :=
  match fuel with
  | O => None
  | S fuel' =>
      let '(k, input, error, w) := serve_one alloc c input error w in
      match k with
      | None => Some w
      | Some keep_alive =>
          if keep_alive =? 0 then Some w else serve_loop fuel' alloc c input error w
      end
  end.

(** What is left to read, counted so that every [read] that returns
    bytes makes it smaller. *)
Fixpoint weight (input : list read_outcome) : nat :=
  match input with
  | [] => O
  | ReadOk data :: rest => S (String.length data + weight rest)
  | ReadErr _ :: rest => S (weight rest)
  end.

(** [cli_conn]: the loop, then [close(c)]. *)
Definition cli_conn (alloc : bool) (c : Z) (input : list read_outcome)
    (error : string) (w : world) : option world :=
  match serve_loop (S (weight input)) alloc c input error w with
  | Some w => Some (sys_close c w)
  | None => None
  end.

(** [srv_init] of [httpd.c]: only a failed [socket] leaves a message
    in [error]; [why] is the text that [strerror(errno)] gives then. *)
Definition srv_init (portno : Z) (os : setup) (why : string) (error : string)
    (w : world) : Z * string * world :=
  let s := socket_ret os in
  let w := sys_open s w in
  if s <? 0 then
    (-1, fst (snprintf 128 ("socket() error: " +:+ cstring why +:+ String LF EmptyString)), w)
  else if negb (setsockopt_ok os) then (-1, error, sys_close s (perror "setsockopt" w))
  else if negb (inet_pton_ok os) then
    (-1, error,
     sys_close s (fprintf_stderr
       ("inet_pton failed for " +:+ LISTENADDR +:+ String LF EmptyString) w))
  else if negb (bind_ok os (htons portno)) then (-1, error, sys_close s (perror "bind" w))
  else if negb (listen_ok os) then (-1, error, sys_close s (perror "listen" w))
  else (s, error, w).

(** What [fork] answers in the process that is followed. *)
Inductive forked :=
  | ForkFailed
  | InParent
  | InChild.

(** One turn of the [while (1)] loop of [main]: what [accept] returns
    (with the text of [strerror(errno)] when it fails), what [fork]
    answers and, for the child, whether its request is allocated and
    what its client sends. *)
Record turn := {
  accept_ret : Z;
  accept_why : string;
  fork_ret : forked;
  child_alloc : bool;
  child_input : list read_outcome
}.

(** [cli_accept] *)
Definition cli_accept (t : turn) (error : string) (w : world) : Z * string * world :=
  let c := accept_ret t in
  let w := sys_accept c w in
  if c <? 0 then
    (-1,
     fst (snprintf 128 ("accept() error: " +:+ cstring (accept_why t) +:+ String LF EmptyString)),
     w)
  else (c, error, w).

(** The [while (1)] loop of [main], as the process that is followed
    sees it; [None] when the child runs out of turns. *)
Fixpoint accept_loop (s : Z) (turns : list turn) (error : string) (w : world)
    : option (run * world) :=
  match turns with
  | [] => Some (Serving, w)
  | t :: turns' =>
      let '(c, error, w) := cli_accept t error w in
      if c <? 0 then
        accept_loop s turns' error (fprintf_stderr (cstring error +:+ String LF EmptyString) w)
      else
        let w :=
          printf ("Incoming connection of client FD#" +:+ dec c +:+ "!" +:+ String LF EmptyString)
            w in
        match fork_ret t with
        | ForkFailed => accept_loop s turns' error (sys_close c (perror "fork" w))
        | InChild =>
            (* child *)
            let w := sys_close s w in
            match cli_conn (child_alloc t) c (child_input t) error w with
            | Some w => Some (Exited 0, w)
            | None => None
            end
        | InParent =>
            (* parent *)
            accept_loop s turns' error (sys_close c w)
        end
  end.

(** [main] of [httpd.c]; the global [error] starts out zeroed. *)
Definition main (argv : list string) (os : setup) (why : string) (turns : list turn)
    : option (run * world) :=
  let w := initial in
  let error := EmptyString in
  let prog := default EmptyString (argv !! 0%nat) in
  match argv !! 1%nat with
  | None =>
      Some (Exited (-1),
            fprintf_stderr
              ("Usage: " +:+ cstring prog +:+ " <listening port>" +:+ String LF EmptyString) w)
  | Some port =>
      let '(s, error, w) := srv_init (atoi port) os why error w in
      if s <? 0 then
        Some (Exited (-1), fprintf_stderr (cstring error +:+ String LF EmptyString) w)
      else
        let w :=
          printf ("Listening on " +:+ LISTENADDR +:+ ":" +:+ cstring port +:+ String LF EmptyString)
            w in
        accept_loop s turns error w
  end.

(** The steps of [srv_init] that follow [socket] all succeed. *)
Definition started (portno : Z) (os : setup) : bool :=
  setsockopt_ok os && inet_pton_ok os && bind_ok os (htons portno) && listen_ok os.

End Httpd.

(** Between [w] and [w'] the trace grew by calls that all satisfy [P]. *)
Definition grows (P : event -> Prop) (w w' : world) : Prop :=
  exists delta, trace w' = (trace w ++ delta)%list /\ Forall P delta.

(** The target as [httpd.c] stores it: without its leading slash. *)
Definition strip_slash (t : string) : string :=
  match t with
  | String "/" t' => t'
  | _ => t
  end.

(** The four responses of [httpd.c], as header and body, with the
    [Connection] header that keeps the connection open. *)
Definition keep_alive_replies : list string :=
  [ Httpd.header_text 200 "OK" "text/html" (strlen HTML_BODY) "keep-alive"; HTML_BODY;
    Httpd.header_text 200 "OK" "application/json" (strlen JSON_BODY) "keep-alive"; JSON_BODY;
    Httpd.header_text 404 "Not Found" "text/plain" 15 "keep-alive"; "File not found!";
    Httpd.header_text 405 "Method Not Allowed" "text/plain" 18 "keep-alive";
    "Only GET supported" ].

(** A [send] on [c] of one of them, whole; any call but [close]. *)
Definition keep_alive_event (c : Z) (e : event) : Prop :=
  match e with
  | EvWrite fd buf n => fd = c /\ n = strlen buf /\ In buf keep_alive_replies
  | EvClose _ => False
  | _ => True
  end.

(** The buffer ends here: nothing follows, or a NUL does. *)
Definition ends_here (tail : string) : Prop :=
  match tail with
  | EmptyString => True
  | String c _ => c = NUL
  end.

Definition not_close (e : event) : Prop :=
  match e with
  | EvClose _ => False
  | _ => True
  end.

(** The calls of a process that SIGPIPE ends at a [send]: those of
    the run up to and including its [k]-th [send] (counted from 0)
    when the run makes that many, the whole run otherwise. *)
Fixpoint until_send (k : nat) (tr : list event) : list event :=
  match tr with
  | [] => []
  | EvWrite fd buf n :: r =>
      match k with
      | O => [EvWrite fd buf n]
      | S k' => EvWrite fd buf n :: until_send k' r
      end
  | e :: r => e :: until_send k r
  end.

(** * [http-server.c]: the fork-based server that reads whole headers

    As for [httpd.c] the model is that of one child.  Its socket is
    blocking and has no timeout: a [recv] that finds nothing never
    returns. *)

(** [hay] starts with [needle]. *)
Fixpoint starts_with (needle hay : string) : bool :=
  match needle, hay with
  | EmptyString, _ => true
  | String x n', String y h' => Ascii.eqb x y && starts_with n' h'
  | String _ _, EmptyString => false
  end.

(** [strstr(hay, needle)]: where [needle] first occurs in [hay]. *)
Fixpoint strstr (hay needle : string) : option nat :=
  if starts_with needle hay then Some O
  else match hay with
       | EmptyString => None
       | String _ h' => option_map S (strstr h' needle)
       end.

(** All the bytes that the [read] calls to come will deliver. *)
Fixpoint bytes_of (input : list read_outcome) : string :=
  match input with
  | [] => EmptyString
  | ReadOk data :: rest => data +:+ bytes_of rest
  | ReadErr _ :: rest => bytes_of rest
  end.

Module HttpServer.

Definition REQ_BUFSIZE : Z := 8192.

(** From [errno.h] (Linux). *)
Definition EINTR : Z := 4.

(** How a call ends: it returns, or it waits for ever in [recv], or
    the model runs out of turns. *)
Inductive outcome (A : Type) :=
  | Returned (a : A) (input : list read_outcome) (w : world)
  | Blocked (w : world)
  | OutOfFuel.
Arguments Returned {A}.
Arguments Blocked {A}.
Arguments OutOfFuel {A}.

(** The [while (total < REQ_BUFSIZE - 1)] loop of
    [read_request_headers]; [buf] holds the [total] bytes read so far. *)
Fixpoint read_loop (fuel : nat) (c : Z) (buf : string) (input : list read_outcome)
    (w : world) : outcome (option string) :=
  match fuel with
  | O => OutOfFuel
  | S fuel' =>
      if negb (strlen buf <? REQ_BUFSIZE - 1) then Returned (Some buf) input w
      else
        match input with
        | [] => Blocked w
        | _ =>
            let '(r, input, w) := sys_read c (REQ_BUFSIZE - 1 - strlen buf) input w in
            if bytes_read r <? 0 then
              if read_errno r =? EINTR then read_loop fuel' c buf input w
              else Returned None input (perror "recv" w)
            else if bytes_read r =? 0 then Returned (Some buf) input w
            else
              let buf := buf +:+ buffer r in
              match strstr (cstring buf) (CRLF +:+ CRLF) with
              | Some _ => Returned (Some buf) input w
              | None => read_loop fuel' c buf input w
              end
        end
  end.

(** [read_request_headers]: the buffer read, whose length is what
    [*out_len] receives, or [None] for [NULL]. *)
Definition read_request_headers (alloc : bool) (c : Z) (input : list read_outcome)
    (w : world) : outcome (option string) :=
  if negb alloc then Returned None input w
  else read_loop (S (Httpd.weight input)) c EmptyString input w.

(** The bytes that a [%s] conversion of width [width] takes. *)
Fixpoint take_token (width : nat) (s : string) : string :=
  match width, s with
  | S width', String c r =>
      if isspace c || Ascii.eqb c NUL then EmptyString
      else String c (take_token width' r)
  | _, _ => EmptyString
  end.

(** One [%s] conversion, after the white space that precedes it: the
    token and what follows it, or [None] at the end of the input. *)
Definition scan_s (width : nat) (s : string) : option (string * string) :=
  let s := skip_spaces s in
  match take_token width s with
  | EmptyString => None
  | tok => Some (tok, advance s (String.length tok))
  end.

(** [sscanf(line, "%31s %2047s %31s", method, url, version)]: the
    number of conversions made (-1 at once at the end of the input)
    and the first two tokens. *)
Definition sscanf3 (line : string) : Z * string * string :=
  match scan_s 31 line with
  | None => (-1, EmptyString, EmptyString)
  | Some (m, r1) =>
      match scan_s 2047 r1 with
      | None => (1, m, EmptyString)
      | Some (u, r2) =>
          match scan_s 31 r2 with
          | None => (2, m, u)
          | Some _ => (3, m, u)
          end
      end
  end.

(** [parse_http(buf, buflen)]; the two allocations succeed or not. *)
Definition parse_http (alloc_line alloc_req : bool) (buf : string) (buflen : Z)
    : option httpreq :=
  if buflen <=? 0 then None else
  (* find first line *)
  match strstr (cstring buf) CRLF with
  | None => None
  | Some linelen =>
      if negb alloc_line then None else
      let line := take_bytes linelen (cstring buf) in
      let '(scanned, m, u) := sscanf3 line in
      if scanned <? 2 then None else
      if negb alloc_req then None else
      Some {| method := strncpy (METHOD_SIZE - 1) m; url := strncpy (URL_SIZE - 1) u |}
  end.

Definition BODY : string :=
  "<html><body><h1>Hello World!</h1></body></html>" +:+ String LF EmptyString.

Definition header_text (body_len : Z) : string :=
  "HTTP/1.1 200 OK" +:+ CRLF +:+
  "Content-Length: " +:+ dec body_len +:+ CRLF +:+
  "Content-Type: text/html" +:+ CRLF +:+
  "Connection: close" +:+ CRLF +:+
  CRLF.

(** [cli_conn(server_fd, client_fd)] *)
Definition cli_conn (alloc_buf alloc_line alloc_req : bool) (client_fd : Z)
    (input : list read_outcome) (w : world) : outcome unit :=
  match read_request_headers alloc_buf client_fd input w with
  | OutOfFuel => OutOfFuel
  | Blocked w => Blocked w
  | Returned None input w =>
      let w := fprintf_stderr ("Failed to read from client" +:+ String LF EmptyString) w in
      Returned tt input (sys_close client_fd w)
  | Returned (Some reqbuf) input w =>
      let buflen := strlen reqbuf in
      let w := printf ("raw request (" +:+ dec buflen +:+ " bytes):" +:+ String LF EmptyString) w in
      let w := printf reqbuf w in
      let w := printf (String LF "--- end preview ---" +:+ String LF EmptyString) w in
      match parse_http alloc_line alloc_req reqbuf buflen with
      | None =>
          let w := fprintf_stderr ("parse_http failed" +:+ String LF EmptyString) w in
          Returned tt input (sys_close client_fd w)
      | Some r =>
          let w :=
            printf ("Parsed: method='" +:+ method r +:+ "' url='" +:+ url r +:+ "'"
                    +:+ String LF EmptyString) w in
          (* simple response *)
          let '(header, header_len) := snprintf 256 (header_text (strlen BODY)) in
          let w := emit (EvWrite client_fd header header_len) w in
          let w := emit (EvWrite client_fd BODY (strlen BODY)) w in
          Returned tt input (sys_close client_fd w)
      end
  end.

(** [srv_init] of [http-server.c] *)
Definition srv_init (portno : Z) (os : setup) (w : world) : Z * world :=
  let s := socket_ret os in
  let w := sys_open s w in
  if s <? 0 then (-1, perror "socket" w)
  else if negb (setsockopt_ok os) then (-1, sys_close s (perror "setsockopt" w))
  else if negb (inet_pton_ok os) then
    (-1, sys_close s (fprintf_stderr
           ("inet_pton failed for " +:+ LISTENADDR +:+ String LF EmptyString) w))
  else if negb (bind_ok os (htons portno)) then (-1, sys_close s (perror "bind" w))
  else if negb (listen_ok os) then (-1, sys_close s (perror "listen" w))
  else (s, w).

(** One turn of the [for (;;)] loop of [main]: what [accept] returns
    (with [errno] when it fails), what [fork] answers and, for the
    child, which of its allocations succeed and what its client
    sends. *)
Record turn := {
  accept_ret : Z;
  accept_errno : Z;
  fork_ret : Httpd.forked;
  child_alloc_buf : bool;
  child_alloc_line : bool;
  child_alloc_req : bool;
  child_input : list read_outcome
}.

(** [cli_accept] *)
Definition cli_accept (t : turn) (w : world) : Z * world :=
  let c := accept_ret t in
  let w := sys_accept c w in
  if c <? 0 then
    (-1, if negb (accept_errno t =? EINTR) then perror "accept" w else w)
  else (c, w).

(** How the process that is followed stands: it has left [main] or
    still runs its loop, or it is a child that waits in [recv] for
    ever, or the model of the child ran out of turns. *)
Inductive standing :=
  | Stands (r : run) (w : world)
  | Waits (w : world)
  | Unknown.

(** The [for (;;)] loop of [main]. *)
Fixpoint accept_loop (server_fd : Z) (turns : list turn) (w : world) : standing :=
  match turns with
  | [] => Stands Serving w
  | t :: turns' =>
      let '(client_fd, w) := cli_accept t w in
      if client_fd <? 0 then accept_loop server_fd turns' w
      else
        match fork_ret t with
        | Httpd.ForkFailed => accept_loop server_fd turns' (sys_close client_fd (perror "fork" w))
        | Httpd.InChild =>
            (* child *)
            let w := sys_close server_fd w in
            match cli_conn (child_alloc_buf t) (child_alloc_line t) (child_alloc_req t)
                    client_fd (child_input t) w with
            | Returned _ _ w => Stands (Exited 0) w
            | Blocked w => Waits w
            | OutOfFuel => Unknown
            end
        | Httpd.InParent =>
            (* parent *)
            accept_loop server_fd turns' (sys_close client_fd w)
        end
  end.

(** [main] of [http-server.c] *)
Definition main (argv : list string) (os : setup) (turns : list turn) : standing :=
  let w := initial in
  match argv !! 1%nat with
  | None =>
      Stands (Exited 1)
        (fprintf_stderr
           ("Usage: " +:+ cstring (default EmptyString (argv !! 0%nat)) +:+ " <port>"
            +:+ String LF EmptyString) w)
  | Some arg =>
      let port := atoi arg in
      if port <=? 0 then
        Stands (Exited 1) (fprintf_stderr ("Bad port" +:+ String LF EmptyString) w)
      else
        let '(server_fd, w) := srv_init port os w in
        if server_fd <? 0 then Stands (Exited 1) w
        else
          let w :=
            printf ("Listening on " +:+ LISTENADDR +:+ ":" +:+ dec port +:+ String LF EmptyString)
              w in
          accept_loop server_fd turns w
  end.

End HttpServer.

Definition is_read (e : event) : Prop :=
  match e with
  | EvRead _ _ _ _ => True
  | _ => False
  end.

(** A [recv], or the [perror] that follows a failed one. *)
Definition recv_event (e : event) : Prop :=
  match e with
  | EvRead _ _ _ _ | EvPerror _ => True
  | _ => False
  end.

(** The one response of [http-server.c]: header, then body. *)
Definition fixed_response (fd : Z) : list event :=
  [ EvWrite fd (HttpServer.header_text 48) 83; EvWrite fd HttpServer.BODY 48 ].

(** Blanks and tab stops only. *)
Definition blanks (s : string) : bool :=
  all_bytes (fun c => Ascii.eqb c SP || Ascii.eqb c HT) s.

(** Bytes that a [%s] conversion takes: no white space, no NUL. *)
Definition token (s : string) : bool :=
  all_bytes (fun c => negb (isspace c || Ascii.eqb c NUL)) s.

(** No carriage return and no NUL. *)
Definition one_line (s : string) : bool := passes (fun c => Ascii.eqb c CR) s.

(** Nothing, or a blank followed by the rest of a line. *)
Definition line_tail (s : string) : bool :=
  match s with
  | EmptyString => true
  | String c _ => (Ascii.eqb c SP || Ascii.eqb c HT) && one_line s
  end.

(** The port argument is there and [atoi] reads a positive number. *)
Definition positive_port (argv : list string) : Prop :=
  exists arg, argv !! 1%nat = Some arg /\ 0 < atoi arg.
(** ** The request parser *)

Lemma append_cons a m r : String a m +:+ r = String a (m +:+ r).
Proof. reflexivity. Qed.

Lemma append_nil r : EmptyString +:+ r = r.
Proof. reflexivity. Qed.

Section Scanning.
Variable stop : ascii -> bool.

Lemma scan_stops_at m c rest :
  passes stop m = true -> Ascii.eqb c NUL || stop c = true ->
  scan stop (m +:+ String c rest) = String.length m.
Proof.
  intros Hm Hc. induction m as [|a m IH]; rewrite ?append_cons, ?append_nil; simpl in *.
  - now rewrite Hc.
  - apply andb_prop in Hm as [Ha Hm].
    apply negb_true_iff in Ha. rewrite Ha. f_equal. now apply IH.
Qed.

Lemma scan_le str : (scan stop str <= String.length str)%nat.
Proof.
  induction str as [|a r IH]; simpl; [lia|].
  destruct (Ascii.eqb a NUL || stop a); simpl; lia.
Qed.

(** Where the scan ends there is a NUL or a stop byte. *)
Lemma scan_end str :
  char_at str (scan stop str) = NUL \/ stop (char_at str (scan stop str)) = true.
Proof.
  induction str as [|a r IH]; simpl; [now left|].
  destruct (Ascii.eqb a NUL) eqn:Ha; simpl.
  - left. now apply Ascii.eqb_eq.
  - destruct (stop a) eqn:Hs; simpl; [now right | exact IH].
Qed.
End Scanning.

Lemma char_at_app m c rest : char_at (m +:+ String c rest) (String.length m) = c.
Proof. induction m as [|a m IH]; rewrite ?append_cons, ?append_nil; simpl; auto. Qed.

Lemma char_at_past str i : (String.length str <= i)%nat -> char_at str i = NUL.
Proof.
  revert i. induction str as [|a r IH]; intros i Hi; simpl in *; [reflexivity|].
  destruct i; [lia|]. apply IH. lia.
Qed.

Lemma char_at_advance str u i : char_at (advance str u) i = char_at str (u + i).
Proof.
  revert str. induction u as [|u IH]; intros str; simpl; [reflexivity|].
  destruct str; simpl; [reflexivity | apply IH].
Qed.

Lemma store_app m c rest x :
  store (m +:+ String c rest) (String.length m) x = m +:+ String x rest.
Proof.
  induction m as [|a m IH]; rewrite ?append_cons, ?append_nil; simpl;
    [reflexivity | now rewrite IH].
Qed.

Lemma store_app_r m c rest i x :
  store (m +:+ String c rest) (S (String.length m) + i) x
  = m +:+ String c (store rest i x).
Proof.
  induction m as [|a m IH]; rewrite ?append_cons, ?append_nil; simpl in *;
    [reflexivity | now rewrite IH].
Qed.

Lemma store_length str i x : String.length (store str i x) = String.length str.
Proof.
  revert i. induction str as [|a r IH]; intros [|i]; simpl; auto.
Qed.

Lemma char_at_store str i x j :
  char_at (store str i x) j =
  if ((i =? j) && (i <? String.length str))%nat then x else char_at str j.
Proof.
  revert i j. induction str as [|a r IH]; intros i j; simpl.
  - now rewrite andb_false_r.
  - destruct i, j; simpl; try reflexivity. rewrite IH. reflexivity.
Qed.

Lemma advance_app m c rest : advance (m +:+ String c rest) (S (String.length m)) = rest.
Proof. induction m as [|a m IH]; rewrite ?append_cons, ?append_nil; simpl in *; auto. Qed.

Lemma cstring_app_nul stop m rest :
  passes stop m = true -> cstring (m +:+ String NUL rest) = m.
Proof.
  intros Hm. induction m as [|a m IH]; rewrite ?append_cons, ?append_nil;
    simpl in *; [reflexivity|].
  apply andb_prop in Hm as [Ha Hm]. apply negb_true_iff, orb_false_iff in Ha as [Ha _].
  rewrite Ha. f_equal. now apply IH.
Qed.

(** The first scan ends on a space exactly when the C string holds one. *)
Lemma first_space_found str :
  Ascii.eqb (char_at str (scan is_space str)) SP = has_space (cstring str).
Proof.
  unfold has_space. induction str as [|a r IH]; simpl; [reflexivity|].
  destruct (Ascii.eqb a NUL) eqn:Ha; simpl.
  - apply Ascii.eqb_eq in Ha. now subst.
  - unfold is_space at 1 3. destruct (Ascii.eqb a SP) eqn:Hs; simpl; [exact Hs | exact IH].
Qed.

Lemma store_nul_past str i : (String.length str <= i)%nat -> store str i NUL = str.
Proof.
  revert i. induction str as [|a r IH]; intros i Hi; simpl in *; [reflexivity|].
  destruct i; [lia|]. rewrite IH; [reflexivity | lia].
Qed.

(** What [parse_http] returns on a buffer that starts with a method,
    a space and a target, whatever byte or buffer end follows. *)
Lemma parse_http_on_request_line m t tail :
  passes is_space m = true -> passes is_url_end t = true ->
  match tail with
  | EmptyString => True
  | String c _ => Ascii.eqb c NUL || is_url_end c = true
  end ->
  fst (parse_http true (m +:+ String SP (t +:+ tail)))
  = Some {| method := take_bytes 15 m; url := take_bytes 1023 t |}.
Proof.
  intros Hm Ht Htail. unfold parse_http, strncpy.
  change (negb true) with false. cbv beta iota zeta.
  assert (Hp : scan is_space (m +:+ String SP (t +:+ tail)) = String.length m)
    by (apply scan_stops_at; [exact Hm | now rewrite orb_true_r]).
  rewrite Hp, char_at_app, Ascii.eqb_refl.
  change (negb true) with false. cbv beta iota zeta.
  rewrite store_app, advance_app, (cstring_app_nul is_space) by exact Hm.
  unfold fst.
  change (METHOD_SIZE - 1)%nat with 15%nat. change (URL_SIZE - 1)%nat with 1023%nat.
  do 2 f_equal.
  destruct tail as [|c rest].
  - assert (Hq : scan is_url_end (t +:+ EmptyString) = String.length (t +:+ EmptyString)).
    { clear -Ht. induction t as [|a t IH]; rewrite ?append_cons, ?append_nil; simpl in *;
        [reflexivity|].
      apply andb_prop in Ht as [Ha Ht]. apply negb_true_iff in Ha. rewrite Ha.
      f_equal. now apply IH. }
    rewrite Hq, store_app_r, advance_app, store_nul_past by lia.
    f_equal.
    clear -Ht. induction t as [|a t IH]; rewrite ?append_cons, ?append_nil; simpl in *;
      [reflexivity|].
    apply andb_prop in Ht as [Ha Ht]. apply negb_true_iff, orb_false_iff in Ha as [Ha _].
    rewrite Ha. now rewrite IH.
  - rewrite (scan_stops_at is_url_end) by assumption.
    rewrite store_app_r, advance_app, store_app.
    now rewrite (cstring_app_nul is_url_end).
Qed.

Lemma append_assoc_s a b c : (a +:+ b) +:+ c = a +:+ (b +:+ c).
Proof.
  induction a as [|x a IH]; rewrite ?append_cons, ?append_nil; [reflexivity|].
  now rewrite IH.
Qed.

Lemma append_nil_r a : a +:+ EmptyString = a.
Proof.
  induction a as [|x a IH]; rewrite ?append_cons, ?append_nil; [reflexivity|].
  now rewrite IH.
Qed.

Lemma scan_split stop s :
  s = take_bytes (scan stop s) s +:+ advance s (scan stop s) /\
  passes stop (take_bytes (scan stop s) s) = true /\
  stops_scan stop (advance s (scan stop s)).
Proof.
  unfold passes. induction s as [|c s (IH1 & IH2 & IH3)]; simpl; [now repeat split|].
  destruct (Ascii.eqb c NUL || stop c) eqn:Hc; simpl.
  - repeat split. exact Hc.
  - rewrite append_cons, <- IH1, Hc, IH2. now repeat split.
Qed.

Lemma passes_take stop n s : passes stop s = true -> passes stop (take_bytes n s) = true.
Proof.
  unfold passes. revert s. induction n as [|n IH]; intros [|c s] H; simpl in *; auto.
  apply andb_prop in H as [Hc Hs]. now rewrite Hc, IH.
Qed.

Lemma take_bytes_length n s : (String.length (take_bytes n s) <= n)%nat.
Proof.
  revert s. induction n as [|n IH]; intros [|c s]; simpl; try lia.
  specialize (IH s). lia.
Qed.

Lemma passes_weaken (stop stop' : ascii -> bool) s :
  (forall c, stop' c = true -> stop c = true) ->
  passes stop s = true -> passes stop' s = true.
Proof.
  unfold passes. intros Hsub. induction s as [|c s IH]; simpl; [reflexivity|].
  intros H. apply andb_prop in H as [Hc Hs]. rewrite IH by exact Hs.
  apply negb_true_iff, orb_false_iff in Hc as [Hn Hc].
  rewrite Hn. simpl. destruct (stop' c) eqn:E; [|reflexivity].
  apply Hsub in E. congruence.
Qed.

(** A buffer with no space before its end is refused. *)
Lemma parse_http_no_space alloc m tail :
  passes is_space m = true ->
  match tail with EmptyString => True | String c _ => c = NUL end ->
  fst (parse_http alloc (m +:+ tail)) = None.
Proof.
  intros Hm Htail. unfold parse_http. destruct alloc; [|reflexivity].
  change (negb true) with false. cbv beta iota zeta.
  assert (Hc : Ascii.eqb (char_at (m +:+ tail) (scan is_space (m +:+ tail))) SP = false).
  { destruct tail as [|c tail].
    - rewrite append_nil_r. destruct (scan_end is_space m) as [H|H].
      + rewrite H. reflexivity.
      + rewrite first_space_found. unfold has_space.
        assert (Hq : cstring m = m).
        { clear -Hm. unfold passes in Hm. induction m as [|c m IH]; simpl in *; [reflexivity|].
          apply andb_prop in Hm as [Hc Hm].
          apply negb_true_iff, orb_false_iff in Hc as [Hn _]. rewrite Hn. now rewrite IH. }
        rewrite Hq. clear -Hm. unfold passes in Hm.
        induction m as [|c m IH]; simpl in *; [reflexivity|].
        apply andb_prop in Hm as [Hc Hm].
        apply negb_true_iff, orb_false_iff in Hc as [_ Hs]. rewrite Hs. simpl. now apply IH.
    - subst c. rewrite scan_stops_at by (exact Hm || reflexivity).
      now rewrite char_at_app. }
  now rewrite Hc.
Qed.

(** Every buffer is of one of two shapes, and the parser's answer is
    read off the shape. *)
Lemma parse_http_cases str :
  (exists m tail,
      str = m +:+ tail /\ passes is_space m = true /\
      match tail with EmptyString => True | String c _ => c = NUL end /\
      forall alloc, fst (parse_http alloc str) = None) \/
  (exists m t tail,
      str = m +:+ String SP (t +:+ tail) /\
      passes is_space m = true /\ passes is_url_end t = true /\
      stops_scan is_url_end tail /\
      fst (parse_http true str)
      = Some {| method := take_bytes 15 m; url := take_bytes 1023 t |}).
Proof.
  destruct (scan_split is_space str) as (Hs & Hm & Hstop).
  set (m := take_bytes (scan is_space str) str) in *.
  destruct (advance str (scan is_space str)) as [|c rest] eqn:Hadv.
  - left. exists m, EmptyString. repeat split; auto.
    intros alloc. rewrite Hs. now apply parse_http_no_space.
  - simpl in Hstop. destruct (Ascii.eqb c NUL) eqn:Hn.
    + left. apply Ascii.eqb_eq in Hn. subst c. exists m, (String NUL rest).
      repeat split; auto. intros alloc. rewrite Hs. now apply parse_http_no_space.
    + right. simpl in Hstop. apply Ascii.eqb_eq in Hstop. subst c.
      destruct (scan_split is_url_end rest) as (Hr & Ht & Hstop2).
      exists m, (take_bytes (scan is_url_end rest) rest),
             (advance rest (scan is_url_end rest)).
      rewrite <- Hr. repeat split; auto.
      rewrite Hs at 1. rewrite Hr at 1.
      now apply parse_http_on_request_line.
Qed.

(** The buffer after a successful parse: the space after the method
    and the byte that ended the target, if the buffer has one, hold
    NUL. *)
Lemma parse_http_buffer_on_request_line m t tail :
  passes is_space m = true -> passes is_url_end t = true ->
  stops_scan is_url_end tail ->
  snd (parse_http true (m +:+ String SP (t +:+ tail)))
  = m +:+ String NUL
      (t +:+ match tail with
             | EmptyString => EmptyString
             | String _ rest => String NUL rest
             end).
Proof.
  intros Hm Ht Htail. unfold parse_http, strncpy.
  change (negb true) with false. cbv beta iota zeta.
  assert (Hp : scan is_space (m +:+ String SP (t +:+ tail)) = String.length m)
    by (apply scan_stops_at; [exact Hm | now rewrite orb_true_r]).
  rewrite Hp, char_at_app, Ascii.eqb_refl.
  change (negb true) with false. cbv beta iota zeta.
  rewrite store_app, advance_app. unfold snd.
  destruct tail as [|c rest].
  - assert (Hq : scan is_url_end (t +:+ EmptyString) = String.length (t +:+ EmptyString)).
    { clear -Ht. induction t as [|a t IH]; rewrite ?append_cons, ?append_nil; simpl in *;
        [reflexivity|].
      apply andb_prop in Ht as [Ha Ht]. apply negb_true_iff in Ha. rewrite Ha.
      f_equal. now apply IH. }
    rewrite Hq, store_app_r, store_nul_past by lia. reflexivity.
  - rewrite (scan_stops_at is_url_end) by assumption.
    now rewrite store_app_r, store_app.
Qed.




(** Where the parser writes: byte by byte. *)
Lemma parse_http_in_place (alloc : bool) (str : string) :
  let r := fst (parse_http alloc str) in
  let str' := snd (parse_http alloc str) in
  String.length str' = String.length str /\
  (r = None -> str' = str) /\
  (forall i, char_at str' i = char_at str i \/
             (char_at str' i = NUL /\ is_url_end (char_at str i) = true)) /\
  (r <> None ->
   char_at str (scan is_space str) = SP /\ char_at str' (scan is_space str) = NUL).
Proof.
  unfold parse_http. destruct alloc; cbv beta iota zeta; unfold negb at 1.
  2: { unfold fst, snd. split; [|split; [|split]]; auto; intros H; now destruct H. }
  set (p := scan is_space str).
  destruct (Ascii.eqb (char_at str p) SP) eqn:Hsp; unfold negb, fst, snd.
  2: { split; [|split; [|split]]; auto; intros H; now destruct H. }
  apply Ascii.eqb_eq in Hsp.
  set (str1 := store str p NUL).
  set (q := (S p + scan is_url_end (advance str1 (S p)))%nat).
  assert (Hlen : (p < String.length str)%nat).
  { destruct (Nat.lt_ge_cases p (String.length str)) as [H|H]; [exact H|].
    rewrite (char_at_past _ _ H) in Hsp. discriminate Hsp. }
  assert (Hq : char_at str q = NUL \/ is_url_end (char_at str q) = true).
  { destruct (scan_end is_url_end (advance str1 (S p))) as [H|H];
      rewrite char_at_advance in H; fold q in H; unfold str1 in H;
      rewrite char_at_store in H;
      (replace (p =? q)%nat with false in H by (symmetry; apply Nat.eqb_neq; lia));
      simpl in H; auto. }
  split; [|split; [|split]].
  - unfold str1. now rewrite !store_length.
  - congruence.
  - intros i. unfold str1. rewrite !char_at_store, store_length.
    destruct (q =? i)%nat eqn:Hqi; simpl.
    + apply Nat.eqb_eq in Hqi. subst i.
      replace (p =? q)%nat with false by (symmetry; apply Nat.eqb_neq; lia). simpl.
      destruct (q <? String.length str)%nat; [|now left].
      destruct Hq as [H|H]; [left; congruence | right; auto].
    + destruct (p =? i)%nat eqn:Hpi; simpl; [|now left].
      apply Nat.eqb_eq in Hpi. subst i.
      apply Nat.ltb_lt in Hlen. rewrite Hlen. right. split; [reflexivity|].
      now rewrite Hsp.
  - intros _. split; [exact Hsp|]. unfold str1. rewrite !char_at_store, store_length.
    replace (q =? p)%nat with false by (symmetry; apply Nat.eqb_neq; lia). simpl.
    apply Nat.ltb_lt in Hlen. now rewrite Nat.eqb_refl, Hlen.
Qed.

(** C8 (as amended).  The parser reads nothing but its arguments and
    is a function of them, but it writes into the buffer it is given.
    The buffer keeps its length and is untouched when the parse
    fails.  After a successful parse it differs from the input in two
    places at most: the space after the method holds NUL, and so does
    the byte that ended the target, when the target does not run to
    the end of the buffer; every other byte is as it was. *)
Theorem parse_http_buffer_effect (alloc : bool) (str : string) :
  let r := fst (parse_http alloc str) in
  let str' := snd (parse_http alloc str) in
  String.length str' = String.length str /\
  (r = None -> str' = str) /\
  (r <> None ->
   exists m t tail,
     str = m +:+ String SP (t +:+ tail) /\
     passes is_space m = true /\ passes is_url_end t = true /\
     stops_scan is_url_end tail /\
     str' = m +:+ String NUL
              (t +:+ match tail with
                     | EmptyString => EmptyString
                     | String _ rest => String NUL rest
                     end)) /\
  (r <> None ->
   char_at str (scan is_space str) = SP /\ char_at str' (scan is_space str) = NUL).
Proof.
  cbv zeta.
  destruct (parse_http_in_place alloc str) as (Hlen & Hnone & _ & Hsp).
  split; [exact Hlen|]. split; [exact Hnone|]. split; [|exact Hsp].
  intros Hr. destruct alloc; [|now destruct Hr].
  destruct (parse_http_cases str)
    as [(m & tail & _ & _ & _ & Hfail)|(m & t & tail & Hs & Hm & Ht & Htail & _)].
  - now rewrite Hfail in Hr.
  - exists m, t, tail. repeat split; auto.
    rewrite Hs at 1. now apply parse_http_buffer_on_request_line.
Qed.

Lemma parse_http_buffer_effect_witness :
  (exists m t tail,
     "GET / HTTP/1.1" +:+ CRLF = m +:+ String SP (t +:+ tail) /\
     passes is_space m = true /\ passes is_url_end t = true /\
     stops_scan is_url_end tail /\
     snd (parse_http true ("GET / HTTP/1.1" +:+ CRLF))
     = m +:+ String NUL
         (t +:+ match tail with
                | EmptyString => EmptyString
                | String _ rest => String NUL rest
                end)) /\
  char_at ("GET / HTTP/1.1" +:+ CRLF) 3 = SP /\
  char_at (snd (parse_http true ("GET / HTTP/1.1" +:+ CRLF))) 3 = NUL.
Proof.
  split.
  - apply (proj1 (proj2 (proj2 (parse_http_buffer_effect true ("GET / HTTP/1.1" +:+ CRLF))))).
    vm_compute. discriminate.
  - apply (proj2 (proj2 (proj2 (parse_http_buffer_effect true ("GET / HTTP/1.1" +:+ CRLF))))).
    vm_compute. discriminate.
Defined.

(** C8 (as stated) fails: the buffer is not left unchanged, and a
    second call on the very same buffer no longer finds the request. *)
Lemma parse_http_writes_buffer :
  snd (parse_http true ("GET / HTTP/1.1" +:+ CRLF)) <> "GET / HTTP/1.1" +:+ CRLF /\
  fst (parse_http true ("GET / HTTP/1.1" +:+ CRLF))
  = Some {| method := "GET"; url := "/" |} /\
  fst (parse_http true (snd (parse_http true ("GET / HTTP/1.1" +:+ CRLF)))) = None.
Proof. repeat split; vm_compute; try reflexivity. discriminate. Qed.

(** ** The response builder *)

Lemma trace_emit e w : trace (emit e w) = (trace w ++ [e])%list.
Proof. reflexivity. Qed.

Lemma take_bytes_all n s : (String.length s <= n)%nat -> take_bytes n s = s.
Proof.
  revert n. induction s as [|a s IH]; intros [|n] Hn; simpl in *; try reflexivity; try lia.
  rewrite IH; [reflexivity | lia].
Qed.

Lemma to_int32_small z : 0 <= z < 2147483648 -> to_int32 z = z.
Proof.
  intros Hz. unfold to_int32.
  change (2 ^ 31) with 2147483648. change (2 ^ 32) with 4294967296.
  rewrite Z.mod_small; lia.
Qed.

Lemma strlen_append a b : strlen (a +:+ b) = strlen a + strlen b.
Proof.
  unfold strlen. induction a as [|c a IH]; rewrite ?append_cons, ?append_nil;
    simpl String.length; lia.
Qed.

Lemma strlen_nonneg s : 0 <= strlen s.
Proof. unfold strlen. lia. Qed.

(** A response that fits the buffer goes out whole and in wire form. *)
Lemma http_send_response_wire fd code status type body w :
  strlen (wire_form code status type body) < BUFFER_SIZE ->
  http_send_response fd code status (Some type) (Some body) w
  = emit (EvWrite fd (wire_form code status type body)
                  (strlen (wire_form code status type body))) w.
Proof.
  intros Hfit. unfold http_send_response, snprintf. simpl default.
  assert (Hbody : strlen body <= strlen (wire_form code status type body)).
  { unfold wire_form. rewrite !strlen_append.
    repeat match goal with |- context [strlen ?s] =>
      lazymatch goal with
      | _ : 0 <= strlen s |- _ => fail
      | _ => pose proof (strlen_nonneg s)
      end end. lia. }
  unfold BUFFER_SIZE in *.
  pose proof (strlen_nonneg body) as Hb0.
  assert (Hb : strlen body < 4096) by lia.
  rewrite (to_int32_small (strlen body)) by (split; [exact Hb0 | clear -Hb; lia]).
  change (response_text code status type (strlen body) body)
    with (wire_form code status type body).
  rewrite to_int32_small by (split; [apply strlen_nonneg | clear -Hfit; lia]).
  rewrite take_bytes_all; [reflexivity|].
  clear -Hfit. unfold strlen in Hfit. lia.
Qed.

Lemma sends_plain w fd code status type body :
  strlen (wire_form code status type body) < BUFFER_SIZE ->
  sends w (http_send_response fd code status (Some type) (Some body) w)
        fd (wire_form code status type body).
Proof.
  intros Hfit. rewrite http_send_response_wire by exact Hfit.
  exists []. split; [reflexivity | constructor].
Qed.

Lemma sends_logged w line fd code status type body :
  strlen (wire_form code status type body) < BUFFER_SIZE ->
  sends w (http_send_response fd code status (Some type) (Some body) (printf line w))
        fd (wire_form code status type body).
Proof.
  intros Hfit. rewrite http_send_response_wire by exact Hfit.
  exists [EvStdout line]. split.
  - unfold printf. rewrite !trace_emit, <- app_assoc. reflexivity.
  - repeat constructor. now exists line.
Qed.

Ltac fits := vm_compute; reflexivity.

Lemma strcmp_eq_true a b : strcmp_eq a b = true <-> a = b.
Proof. unfold strcmp_eq. apply String.eqb_eq. Qed.

Lemma strcmp_eq_false a b : strcmp_eq a b = false <-> a <> b.
Proof. unfold strcmp_eq. apply String.eqb_neq. Qed.

Lemma handle_request_non_get alloc fd request w req :
  fst (parse_http alloc request) = Some req -> method req <> "GET" ->
  sends w (handle_request alloc fd request w) fd
    (wire_form 405 "Method Not Allowed" "text/plain" "Only GET supported").
Proof.
  intros Hparse Hm. unfold handle_request. rewrite Hparse.
  apply strcmp_eq_false in Hm. rewrite Hm. apply sends_logged. fits.
Qed.

(** C4.  For a request that parses, the response follows the fixed
    table: a GET of "/" or "/index.html" gets 200 with the HTML body,
    a GET of "/data.json" gets 200 with the JSON body, a GET of any
    other target gets 404, and any method other than GET gets 405.
    Targets are compared whole: no prefix or pattern is matched. *)
Theorem handle_request_route_policy
    (alloc : bool) (fd : Z) (request : string) (w : world) (req : httpreq) :
  fst (parse_http alloc request) = Some req ->
  let reply code reason type body :=
    sends w (handle_request alloc fd request w) fd (wire_form code reason type body) in
  (method req = "GET" -> url req = "/" -> reply 200 "OK" "text/html" HTML_BODY) /\
  (method req = "GET" -> url req = "/index.html" ->
   reply 200 "OK" "text/html" HTML_BODY) /\
  (method req = "GET" -> url req = "/data.json" ->
   reply 200 "OK" "application/json" JSON_BODY) /\
  (method req = "GET" -> url req ∉ known_targets ->
   reply 404 "Not Found" "text/plain" "File not found!") /\
  (method req <> "GET" ->
   reply 405 "Method Not Allowed" "text/plain" "Only GET supported").
Proof.
  intros Hparse reply. subst reply. cbv beta.
  split; [|split; [|split; [|split]]];
    [unfold handle_request; rewrite Hparse .. |].
  - intros Hm Hu. rewrite Hm, Hu. apply sends_logged. fits.
  - intros Hm Hu. rewrite Hm, Hu. apply sends_logged. fits.
  - intros Hm Hu. rewrite Hm, Hu. apply sends_logged. fits.
  - intros Hm Hu. rewrite Hm. change (strcmp_eq "GET" "GET") with true. cbv iota.
    unfold known_targets in Hu.
    rewrite !not_elem_of_cons in Hu. destruct Hu as (H1 & H2 & H3 & _).
    apply strcmp_eq_false in H1, H2, H3. rewrite H1, H2, H3.
    apply sends_logged. fits.
  - intros Hm. now apply (handle_request_non_get alloc fd request w req).
Qed.

Lemma handle_request_route_policy_witness :
  sends initial
    (handle_request true 7 ("GET /data.jsonx HTTP/1.1" +:+ CRLF +:+ CRLF) initial)
    7 (wire_form 404 "Not Found" "text/plain" "File not found!").
Proof.
  refine (proj1 (proj2 (proj2 (proj2
    (handle_request_route_policy true 7
       ("GET /data.jsonx HTTP/1.1" +:+ CRLF +:+ CRLF) initial
       {| method := "GET"; url := "/data.jsonx" |} eq_refl)))) eq_refl _).
  unfold known_targets. rewrite !not_elem_of_cons.
  repeat split; try discriminate. apply not_elem_of_nil.
Defined.

Lemma to_upper_byte_stop c :
  Ascii.eqb c NUL || is_space c = true -> to_upper_byte c = c.
Proof.
  intros H. apply orb_prop in H as [H|H]; apply Ascii.eqb_eq in H; subst c; reflexivity.
Qed.

Lemma to_upper_byte_passes c d :
  to_upper_byte c = d -> Ascii.eqb d NUL || is_space d = false ->
  Ascii.eqb c NUL || is_space c = false.
Proof.
  intros Hc Hd. destruct (Ascii.eqb c NUL || is_space c) eqn:E; [|reflexivity].
  pose proof (to_upper_byte_stop c E) as Hs. rewrite Hs in Hc. subst d. congruence.
Qed.

Lemma to_upper_get m : to_upper m = "GET" -> passes is_space m = true /\ take_bytes 15 m = m.
Proof.
  intros H.
  destruct m as [|c1 [|c2 [|c3 [|c4 m]]]]; try discriminate H.
  injection H as H1 H2 H3. split; [|reflexivity].
  unfold passes. simpl.
  rewrite (to_upper_byte_passes c1 _ H1), (to_upper_byte_passes c2 _ H2),
    (to_upper_byte_passes c3 _ H3) by reflexivity.
  reflexivity.
Qed.

(** C10.  The method is compared with "GET" byte for byte: a request
    line whose method is GET in another letter case, such as
    [get / HTTP/1.1], is answered with 405, not with the response of
    the target. *)
Theorem method_match_is_exact (m t : string) (fd : Z) (w : world) :
  to_upper m = "GET" -> m <> "GET" -> passes is_url_end t = true ->
  sends w
    (handle_request true fd (m +:+ " " +:+ t +:+ " HTTP/1.1" +:+ CRLF +:+ CRLF) w)
    fd (wire_form 405 "Method Not Allowed" "text/plain" "Only GET supported").
Proof.
  intros Hup Hne Ht. destruct (to_upper_get m Hup) as [Hm Htake].
  apply (handle_request_non_get true fd _ w {| method := m; url := take_bytes 1023 t |});
    [|exact Hne].
  change (m +:+ " " +:+ t +:+ " HTTP/1.1" +:+ CRLF +:+ CRLF)
    with (m +:+ String SP (t +:+ String SP ("HTTP/1.1" +:+ CRLF +:+ CRLF))).
  rewrite parse_http_on_request_line; [now rewrite Htake | exact Hm | exact Ht | reflexivity].
Qed.

Lemma method_match_is_exact_witness :
  sends initial
    (handle_request true 7 ("get / HTTP/1.1" +:+ CRLF +:+ CRLF) initial)
    7 (wire_form 405 "Method Not Allowed" "text/plain" "Only GET supported").
Proof.
  apply (method_match_is_exact "get" "/" 7 initial); [reflexivity | discriminate | reflexivity].
Defined.

(** ** Every write of the program is a response in wire form *)

Lemma wfw_emit e w : wire_event e -> well_formed_writes w -> well_formed_writes (emit e w).
Proof.
  unfold well_formed_writes. rewrite trace_emit. intros He Hw.
  apply Forall_app. split; [exact Hw | now constructor].
Qed.

Lemma wfw_frame r o w :
  well_formed_writes w ->
  well_formed_writes {| registry := r; open_fds := o; trace := trace w |}.
Proof. exact id. Qed.

Lemma wfw_response fd code status type body w :
  In (code, status, type, body) canned ->
  strlen (wire_form code status type body) < BUFFER_SIZE ->
  well_formed_writes w ->
  well_formed_writes (http_send_response fd code status (Some type) (Some body) w).
Proof.
  intros Hin Hfit Hw. rewrite http_send_response_wire by exact Hfit.
  apply wfw_emit; [|exact Hw]. simpl. now exists code, status, type, body.
Qed.

Ltac wfw :=
  repeat first
    [ assumption
    | exact I
    | apply wfw_response; [unfold canned; simpl; tauto | fits |]
    | apply wfw_frame
    | apply wfw_emit
    | progress unfold epoll_ctl_del, epoll_ctl_add, sys_close, sys_accept, sys_open,
        printf, perror, fprintf_stderr
    | match goal with
      | |- well_formed_writes (if ?b then _ else _) => destruct b
      | |- well_formed_writes (snd (if ?b then _ else _)) => destruct b
      | |- well_formed_writes (fst (if ?b then _ else _)) => destruct b
      | |- well_formed_writes (snd (_, _)) => unfold snd
      | |- well_formed_writes (fst (_, _)) => unfold fst
      end ].

Lemma wfw_handle_request alloc fd request w :
  well_formed_writes w -> well_formed_writes (handle_request alloc fd request w).
Proof.
  intros Hw. unfold handle_request.
  destruct (fst (parse_http alloc request)) as [req|]; wfw.
Qed.

Lemma wfw_handle_client_data alloc fd epoll_fd input w :
  well_formed_writes w ->
  well_formed_writes (fst (handle_client_data alloc fd epoll_fd input w)).
Proof.
  intros Hw. unfold handle_client_data, sys_read.
  destruct input as [|[data|e] rest]; cbv beta iota zeta; wfw;
    apply wfw_handle_request; wfw.
Qed.

Lemma wfw_set_nonblocking fd g s w :
  well_formed_writes w -> well_formed_writes (snd (set_nonblocking fd g s w)).
Proof. intros Hw. unfold set_nonblocking. destruct g, s; simpl; wfw. Qed.

Lemma wfw_accept_one epoll_fd c w :
  well_formed_writes w -> well_formed_writes (snd (accept_one epoll_fd c w)).
Proof.
  intros Hw. unfold accept_one. cbv zeta.
  destruct (acc_ret c <? 0); [wfw|].
  pose proof (wfw_set_nonblocking (acc_ret c) (acc_getfl_ok c) (acc_setfl_ok c)
    (printf ("New connection: fd=" +:+ dec (acc_ret c) +:+ String LF EmptyString)
       (sys_accept (acc_ret c) w))) as Hnb.
  destruct (set_nonblocking _ _ _ _) as [r w1]. simpl in Hnb.
  assert (Hw1 : well_formed_writes w1) by (apply Hnb; wfw).
  destruct (r =? -1); [wfw|]. destruct (acc_add_ok c); simpl; wfw.
Qed.

Lemma wfw_accept_connections server_fd epoll_fd backlog w :
  well_formed_writes w ->
  well_formed_writes (accept_connections server_fd epoll_fd backlog w).
Proof.
  revert w. induction backlog as [|c rest IH]; intros w Hw; simpl; [wfw|].
  pose proof (wfw_accept_one epoll_fd c w Hw) as H1.
  destruct (accept_one epoll_fd c w) as [[] w1]; simpl in H1; auto.
Qed.

Lemma wfw_dispatch server_fd epoll_fd ev w :
  well_formed_writes w -> well_formed_writes (dispatch server_fd epoll_fd ev w).
Proof.
  intros Hw. unfold dispatch. cbv zeta.
  destruct (negb _); [wfw|].
  destruct (ev_fd ev =? server_fd); [now apply wfw_accept_connections|].
  destruct (negb _); [now apply wfw_handle_client_data | exact Hw].
Qed.

Lemma wfw_process_events server_fd epoll_fd evs w :
  well_formed_writes w -> well_formed_writes (process_events server_fd epoll_fd evs w).
Proof.
  unfold process_events. revert w.
  induction evs as [|ev evs IH]; intros w Hw; simpl; [exact Hw|].
  apply IH. now apply wfw_dispatch.
Qed.

Lemma wfw_event_loop server_fd epoll_fd waits w :
  well_formed_writes w ->
  well_formed_writes (snd (event_loop server_fd epoll_fd waits w)).
Proof.
  revert w. induction waits as [|[evs|] rest IH]; intros w Hw; simpl; [exact Hw | | wfw].
  apply IH. now apply wfw_process_events.
Qed.

Lemma wfw_srv_init portno os w :
  well_formed_writes w -> well_formed_writes (snd (srv_init portno os w)).
Proof.
  intros Hw. unfold srv_init. cbv zeta.
  destruct (socket_ret os <? 0); [wfw|].
  destruct (negb (setsockopt_ok os)); [wfw|].
  destruct (negb (inet_pton_ok os)); [wfw|].
  destruct (negb (bind_ok os (htons portno))); [wfw|].
  destruct (negb (listen_ok os)); [wfw|].
  pose proof (wfw_set_nonblocking (socket_ret os) (srv_getfl_ok os) (srv_setfl_ok os)
    (sys_open (socket_ret os) w)) as Hnb.
  destruct (set_nonblocking _ _ _ _) as [r w1]. simpl in Hnb.
  assert (Hw1 : well_formed_writes w1) by (apply Hnb; wfw).
  destruct (r =? -1); wfw.
Qed.

Lemma wfw_main argv os waits : well_formed_writes (snd (main argv os waits)).
Proof.
  unfold main. cbv zeta.
  destruct (argv !! 1%nat) as [arg|]; [|wfw; constructor].
  pose proof (wfw_srv_init (atoi arg) os initial) as Hs.
  destruct (srv_init (atoi arg) os initial) as [server_fd w1]. simpl in Hs.
  assert (Hw1 : well_formed_writes w1) by (apply Hs; constructor).
  destruct (server_fd <? 0); [wfw|].
  destruct (epoll_create1_ret os =? -1); [wfw|].
  destruct (negb (add_server_ok os)); [wfw|].
  match goal with |- context [event_loop ?s ?e ?ws ?w] =>
    pose proof (wfw_event_loop s e ws w) as Hl;
    destruct (event_loop s e ws w) as [broke w2] end.
  simpl in Hl. assert (Hw2 : well_formed_writes w2) by (apply Hl; wfw).
  destruct broke; wfw.
Qed.

(** C5.  Whatever the arguments, the operating system's answers and
    the events, every [write] the program makes carries exactly
    [HTTP/1.1 <code> <reason>], [Content-Type], [Content-Length] and
    [Connection: close] lines, an empty line and the body, with the
    byte length of the body as [Content-Length]; to [GET / HTTP/1.1]
    the response is 200 OK with the HTML body and length 35. *)
Theorem responses_have_wire_form :
  (forall argv os waits, Forall wire_event (trace (snd (main argv os waits)))) /\
  (forall fd w,
      sends w (handle_request true fd ("GET / HTTP/1.1" +:+ CRLF +:+ CRLF) w) fd
        ("HTTP/1.1 200 OK" +:+ CRLF +:+
         "Content-Type: text/html" +:+ CRLF +:+
         "Content-Length: 35" +:+ CRLF +:+
         "Connection: close" +:+ CRLF +:+ CRLF +:+
         "<html><h4>Hello World!!</h4></html>")) /\
  strlen "<html><h4>Hello World!!</h4></html>" = 35.
Proof.
  split; [exact wfw_main | split; [|reflexivity]].
  intros fd w.
  change ("HTTP/1.1 200 OK" +:+ CRLF +:+ "Content-Type: text/html" +:+ CRLF +:+
          "Content-Length: 35" +:+ CRLF +:+ "Connection: close" +:+ CRLF +:+ CRLF +:+
          "<html><h4>Hello World!!</h4></html>")
    with (wire_form 200 "OK" "text/html" HTML_BODY).
  unfold handle_request.
  change (fst (parse_http true ("GET / HTTP/1.1" +:+ CRLF +:+ CRLF)))
    with (Some {| method := "GET"; url := "/" |}).
  apply sends_logged. fits.
Qed.

(** ** The connection driver *)

Lemma handle_request_sends alloc fd request w :
  exists text, sends w (handle_request alloc fd request w) fd text.
Proof.
  unfold handle_request.
  destruct (fst (parse_http alloc request)) as [req|].
  - destruct (strcmp_eq (method req) "GET");
      [destruct (strcmp_eq (url req) "/index.html" || strcmp_eq (url req) "/");
         [|destruct (strcmp_eq (url req) "/data.json")]|];
      eexists; apply sends_logged; fits.
  - eexists; apply sends_plain; fits.
Qed.

Lemma reads_of_app a b : reads_of (a ++ b) = (reads_of a ++ reads_of b)%list.
Proof.
  induction a as [|e a IH]; simpl; [reflexivity|].
  destruct e; simpl; now rewrite ?IH.
Qed.

Lemma reads_of_log log :
  Forall (fun e => exists line, e = EvStdout line) log -> reads_of log = [].
Proof.
  induction 1 as [|e log [line ->] _ IH]; simpl; auto.
Qed.

Lemma writes_of_app a b : writes_of (a ++ b) = (writes_of a ++ writes_of b)%list.
Proof.
  induction a as [|e a IH]; simpl; [reflexivity|].
  destruct e; simpl; now rewrite ?IH.
Qed.

Lemma writes_of_log log :
  Forall (fun e => exists line, e = EvStdout line) log -> writes_of log = [].
Proof. induction 1 as [|e log [line ->] _ IH]; simpl; auto. Qed.

Lemma take_bytes_cons n c r : take_bytes (S n) (String c r) = String c (take_bytes n r).
Proof. reflexivity. Qed.

Lemma handle_client_data_trace alloc fd epoll_fd input w :
  exists ret errno mid,
    trace (fst (handle_client_data alloc fd epoll_fd input w))
    = (trace w ++ [EvRead fd (BUFFER_SIZE - 1) ret errno] ++ mid
         ++ teardown epoll_fd fd)%list /\
    reads_of mid = [] /\
    Forall (fun e => match e with EvClose _ | EvEpollDel _ _ => False | _ => True end) mid /\
    if 0 <? ret
    then exists log text,
           Forall (fun e => exists line, e = EvStdout line) log /\
           mid = (log ++ [EvWrite fd text (strlen text)])%list
    else writes_of mid = [].
Proof.
  unfold handle_client_data, sys_read.
  set (r := match input with
            | [] => _ | ReadErr e :: rest => _ | ReadOk data :: rest => _ end).
  destruct r as [r unread]. cbv beta iota zeta.
  exists (bytes_read r), (read_errno r).
  destruct (Z.leb_spec (bytes_read r) 0) as [Hle|Hgt].
  - replace (0 <? bytes_read r) with false by (symmetry; now apply Z.ltb_ge).
    destruct (bytes_read r =? 0);
      [|destruct (negb (read_errno r =? EAGAIN) && negb (read_errno r =? EWOULDBLOCK))].
    + exists [EvStdout ("Connection closed: fd=" +:+ dec fd +:+ String LF EmptyString)].
      split; [|split; [reflexivity | split; [repeat constructor | reflexivity]]].
      unfold fst, sys_close, epoll_ctl_del, printf, emit. simpl trace.
      rewrite <- ?app_assoc. reflexivity.
    + exists [EvPerror "read"].
      split; [|split; [reflexivity | split; [repeat constructor | reflexivity]]].
      unfold fst, sys_close, epoll_ctl_del, perror, emit. simpl trace.
      rewrite <- ?app_assoc. reflexivity.
    + exists []. split; [|split; [reflexivity | split; [constructor | reflexivity]]].
      unfold fst, sys_close, epoll_ctl_del, emit. simpl trace.
      rewrite <- ?app_assoc. reflexivity.
  - replace (0 <? bytes_read r) with true by (symmetry; now apply Z.ltb_lt).
    destruct (handle_request_sends alloc fd (buffer r)
                (emit (EvRead fd (BUFFER_SIZE - 1) (bytes_read r) (read_errno r)) w))
      as (text & log & Htr & Hlog).
    exists (log ++ [EvWrite fd text (strlen text)])%list. split; [|split; [|split]].
    + unfold fst, sys_close, epoll_ctl_del. rewrite !trace_emit. simpl trace.
      rewrite Htr, trace_emit, <- ?app_assoc. reflexivity.
    + rewrite reads_of_app, (reads_of_log _ Hlog). reflexivity.
    + apply Forall_app. split; [|repeat constructor].
      eapply Forall_impl; [exact Hlog|]. now intros e [line ->].
    + now exists log, text.
Qed.

(** C1 (as amended).  A [read] that would block is not logged as an
    error, yet the driver does not keep the connection: it takes the
    descriptor off the interest list and closes it, writes nothing,
    and keeps nothing for a later event. *)
Theorem would_block_tears_down
    (alloc : bool) (fd epoll_fd : Z) (rest : list read_outcome) (w : world) :
  handle_client_data alloc fd epoll_fd (ReadErr EAGAIN :: rest) w
  = ({| registry := registry w ∖ {[fd]};
        open_fds := open_fds w ∖ {[fd]};
        trace := trace w ++ EvRead fd (BUFFER_SIZE - 1) (-1) EAGAIN :: teardown epoll_fd fd |},
     rest) /\
  fst (handle_client_data alloc fd epoll_fd [] w)
  = fst (handle_client_data alloc fd epoll_fd [ReadErr EAGAIN] w).
Proof.
  split; [|reflexivity].
  unfold handle_client_data, sys_read, sys_close, epoll_ctl_del, emit, teardown.
  simpl. rewrite <- !app_assoc. reflexivity.
Qed.

(** C1 (as stated) fails: after a would-block outcome the client is
    neither registered nor open. *)
Lemma would_block_closes_connection :
  let w' := fst (handle_client_data true 5 4 [ReadErr EAGAIN] one_client) in
  ~ (5 ∈ registry w' /\ 5 ∈ open_fds w') /\
  registry w' = {[3]} /\ open_fds w' = {[3; 4]}.
Proof.
  cbv zeta. split; [|split].
  - intros [Hreg _]. simpl in Hreg.
    apply elem_of_difference in Hreg as [_ Hreg]. apply Hreg. now apply elem_of_singleton.
  - simpl. set_solver.
  - simpl. set_solver.
Qed.

(** C2 (as amended).  Whatever the socket holds, the driver calls
    [read] exactly once per event, for at most [BUFFER_SIZE - 1]
    bytes.  When that [read] returned bytes it answers: between the
    [read] and the teardown lie the calls of [handle_request] on the
    bytes just read, which end in the one [write] of a response on
    the same descriptor; when it returned none, nothing is written.
    In every case the driver ends by deregistering and closing the
    descriptor. *)
Theorem one_read_per_event
    (alloc : bool) (fd epoll_fd : Z) (input : list read_outcome) (w : world) :
  let w' := fst (handle_client_data alloc fd epoll_fd input w) in
  (exists ret errno mid,
      trace w' = (trace w ++ [EvRead fd (BUFFER_SIZE - 1) ret errno] ++ mid
                    ++ teardown epoll_fd fd)%list /\
      reads_of mid = [] /\
      if 0 <? ret
      then exists log text,
             Forall (fun e => exists line, e = EvStdout line) log /\
             mid = (log ++ [EvWrite fd text (strlen text)])%list
      else writes_of mid = []) /\
  length (reads_of (trace w')) = S (length (reads_of (trace w))) /\
  match input with
  | ReadOk (String c r) :: _ =>
      let got := take_bytes (Z.to_nat (BUFFER_SIZE - 1)) (String c r) in
      w' = sys_close fd
             (epoll_ctl_del epoll_fd fd
                (handle_request alloc fd got
                   (emit (EvRead fd (BUFFER_SIZE - 1) (strlen got) 0) w)))
  | _ => writes_of (trace w') = writes_of (trace w)
  end.
Proof.
  cbv zeta.
  destruct (handle_client_data_trace alloc fd epoll_fd input w)
    as (ret & errno & mid & Htr & Hmid & _ & Hans).
  split; [now exists ret, errno, mid|]. split.
  { rewrite Htr, !reads_of_app, Hmid. simpl. rewrite length_app. simpl. lia. }
  clear. destruct input as [|[[|c r]|e] rest].
  - unfold handle_client_data, sys_read, sys_close, epoll_ctl_del, emit. simpl.
    rewrite !writes_of_app. simpl. now rewrite !app_nil_r.
  - unfold handle_client_data, sys_read, sys_close, epoll_ctl_del, printf, emit.
    replace (take_bytes (Z.to_nat (BUFFER_SIZE - 1)) EmptyString) with EmptyString
      by (now destruct (Z.to_nat (BUFFER_SIZE - 1))).
    simpl. rewrite !writes_of_app. simpl. now rewrite !app_nil_r.
  - unfold handle_client_data, sys_read.
    change (Z.to_nat (BUFFER_SIZE - 1)) with (S 4094). rewrite take_bytes_cons.
    cbv beta iota zeta. unfold bytes_read at 1.
    assert (Hpos : (strlen (String c (take_bytes 4094 r)) <=? 0) = false).
    { apply Z.leb_gt. unfold strlen. simpl String.length. lia. }
    rewrite Hpos. reflexivity.
  - unfold handle_client_data, sys_read, sys_close, epoll_ctl_del, perror, emit. simpl.
    destruct (negb (e =? EAGAIN) && negb (e =? EWOULDBLOCK)); simpl;
      rewrite !writes_of_app; simpl; now rewrite !app_nil_r.
Qed.

(** C2 (as stated) fails: with a request line that arrived in two
    pieces, the driver returns after the one [read] that got the
    first piece (23 bytes: no would-block, no end of stream, buffer
    not full) and the second piece is never read. *)
Lemma returns_after_one_read :
  let input := [ReadOk ("GET / HTTP/1.1" +:+ CRLF +:+ "Host: x"); ReadOk (CRLF +:+ CRLF)] in
  let '(w', unread) := handle_client_data true 5 4 input one_client in
  ends_drained (trace w') = false /\
  reads_of (trace w') = [EvRead 5 4095 23 0] /\
  unread = [ReadOk (CRLF +:+ CRLF)] /\
  last (trace w') = Some (EvClose 5).
Proof. vm_compute. repeat split; reflexivity. Qed.

Lemma take_bytes_app a b : take_bytes (String.length a) (a +:+ b) = a.
Proof.
  induction a as [|c a IH]; rewrite ?append_cons, ?append_nil; simpl.
  - now destruct b.
  - now rewrite IH.
Qed.

Lemma advance_app_all a b : advance (a +:+ b) (String.length a) = b.
Proof.
  induction a as [|c a IH]; rewrite ?append_cons, ?append_nil; simpl; auto.
Qed.

Lemma advance_all a : advance a (String.length a) = EmptyString.
Proof. induction a as [|c a IH]; simpl; auto. Qed.

(** C7 (as amended).  There is no oversized-request case.  When the
    socket holds more than the [BUFFER_SIZE - 1] bytes that one
    [read] takes, the driver does exactly what it does for a request
    of those first 4095 bytes alone: [handle_request] answers them by
    the route table, the connection is torn down, and the bytes
    beyond are left unread. *)
Theorem full_buffer_is_parsed
    (alloc : bool) (fd epoll_fd : Z) (data more : string)
    (rest : list read_outcome) (w : world) :
  strlen data = BUFFER_SIZE - 1 ->
  let '(w', unread) :=
    handle_client_data alloc fd epoll_fd (ReadOk (data +:+ more) :: rest) w in
  w' = fst (handle_client_data alloc fd epoll_fd [ReadOk data] w) /\
  w' = sys_close fd (epoll_ctl_del epoll_fd fd
         (handle_request alloc fd data
            (emit (EvRead fd (BUFFER_SIZE - 1) (BUFFER_SIZE - 1) 0) w))) /\
  unread = match more with EmptyString => rest | _ => ReadOk more :: rest end.
Proof.
  intros Hlen.
  assert (Hn : Z.to_nat (BUFFER_SIZE - 1) = String.length data)
    by (unfold strlen in Hlen; lia).
  unfold handle_client_data, sys_read. rewrite Hn.
  rewrite take_bytes_app, advance_app_all, take_bytes_all, advance_all by lia.
  rewrite Hlen. change (BUFFER_SIZE - 1 <=? 0) with false.
  cbv beta iota zeta. unfold bytes_read, read_errno, buffer, fst.
  repeat split; reflexivity.
Qed.

Lemma full_buffer_is_parsed_witness :
  let '(w', unread) :=
    handle_client_data true 5 4
      (ReadOk (("GET / " +:+ pad 4089 "A") +:+ pad 911 "A") :: []) one_client in
  w' = fst (handle_client_data true 5 4 [ReadOk ("GET / " +:+ pad 4089 "A")] one_client) /\
  w' = sys_close 5 (epoll_ctl_del 4 5
         (handle_request true 5 ("GET / " +:+ pad 4089 "A")
            (emit (EvRead 5 (BUFFER_SIZE - 1) (BUFFER_SIZE - 1) 0) one_client))) /\
  unread = [ReadOk (pad 911 "A")].
Proof.
  apply (full_buffer_is_parsed true 5 4 ("GET / " +:+ pad 4089 "A") (pad 911 "A")
           [] one_client).
  vm_compute. reflexivity.
Defined.

(** C7 (as stated) fails: a request that overflows the buffer is cut
    at 4095 bytes, parsed as if complete, and answered 200, not 4xx. *)
Lemma oversized_request_gets_200 :
  strlen oversized_request = 5006 /\
  trace (fst (handle_client_data true 5 4 [ReadOk oversized_request] one_client))
  = [ EvRead 5 4095 4095 0;
      EvStdout ("'GET'" +:+ String HT "'/'" +:+ String LF EmptyString);
      EvWrite 5 (wire_form 200 "OK" "text/html" HTML_BODY) 118;
      EvEpollDel 4 5; EvClose 5 ] /\
  String.prefix "HTTP/1.1 4" (wire_form 200 "OK" "text/html" HTML_BODY) = false.
Proof. vm_compute. repeat split; reflexivity. Qed.

(** ** Teardown and invariant I1 *)

#[local] Set Warnings "-clear-no-such-hyp".

Lemma registry_emit e w : registry (emit e w) = registry w.
Proof. reflexivity. Qed.

Lemma open_fds_emit e w : open_fds (emit e w) = open_fds w.
Proof. reflexivity. Qed.

Lemma sets_http_send_response fd code status type body w :
  registry (http_send_response fd code status type body w) = registry w /\
  open_fds (http_send_response fd code status type body w) = open_fds w.
Proof. split; reflexivity. Qed.

Lemma sets_handle_request alloc fd request w :
  registry (handle_request alloc fd request w) = registry w /\
  open_fds (handle_request alloc fd request w) = open_fds w.
Proof.
  unfold handle_request.
  destruct (fst (parse_http alloc request)) as [req|]; [|split; reflexivity].
  destruct (strcmp_eq (method req) "GET");
    [destruct (strcmp_eq (url req) "/index.html" || strcmp_eq (url req) "/");
       [|destruct (strcmp_eq (url req) "/data.json")]|];
    split; reflexivity.
Qed.

Lemma sets_handle_client_data alloc fd epoll_fd input w :
  registry (fst (handle_client_data alloc fd epoll_fd input w)) = registry w ∖ {[fd]} /\
  open_fds (fst (handle_client_data alloc fd epoll_fd input w)) = open_fds w ∖ {[fd]}.
Proof.
  unfold handle_client_data, sys_read.
  set (r := match input with
            | [] => _ | ReadErr e :: rest => _ | ReadOk data :: rest => _ end).
  destruct r as [r unread]. cbv beta iota zeta.
  destruct (bytes_read r <=? 0).
  - destruct (bytes_read r =? 0);
      [|destruct (negb (read_errno r =? EAGAIN) && negb (read_errno r =? EWOULDBLOCK))];
      split; reflexivity.
  - destruct (sets_handle_request alloc fd (buffer r)
                (emit (EvRead fd (BUFFER_SIZE - 1) (bytes_read r) (read_errno r)) w))
      as [Hr Ho].
    unfold fst, sys_close, epoll_ctl_del.
    rewrite ?registry_emit, ?open_fds_emit. cbn [registry open_fds].
    rewrite ?registry_emit, ?open_fds_emit. cbn [registry open_fds].
    rewrite Hr, Ho, ?registry_emit, ?open_fds_emit. split; reflexivity.
Qed.

Lemma sets_set_nonblocking fd g s w :
  registry (snd (set_nonblocking fd g s w)) = registry w /\
  open_fds (snd (set_nonblocking fd g s w)) = open_fds w.
Proof. destruct g, s; split; reflexivity. Qed.

Section Invariant.
Variables server_fd epoll_fd : Z.
Hypothesis distinct : server_fd <> epoll_fd.

Local Abbreviation inv := (loop_invariant server_fd epoll_fd).

Lemma inv_same_sets w w' :
  registry w' = registry w -> open_fds w' = open_fds w -> inv w -> inv w'.
Proof. unfold loop_invariant, I1, connections. intros -> ->. auto. Qed.

(** Taking a registered descriptor off the list and closing it. *)
Lemma inv_teardown fd w w' :
  registry w' = registry w ∖ {[fd]} -> open_fds w' = open_fds w ∖ {[fd]} ->
  fd ∈ registry w -> inv w -> inv w'.
Proof.
  unfold loop_invariant, I1, connections. intros -> -> Hfd [Hep HI].
  assert (fd <> epoll_fd) by set_solver.
  split; set_solver.
Qed.

Lemma inv_accept_one c w :
  fresh_accept c w = true -> inv w -> inv (snd (accept_one epoll_fd c w)).
Proof.
  unfold fresh_accept, accept_one. cbv zeta. intros Hfresh Hinv.
  destruct (acc_ret c <? 0) eqn:Hneg.
  { destruct ((acc_errno c =? EAGAIN) || (acc_errno c =? EWOULDBLOCK));
      (eapply inv_same_sets; [| |exact Hinv]);
      unfold sys_accept, sys_open; simpl; rewrite ?Hneg; reflexivity. }
  simpl in Hfresh. apply bool_decide_eq_true in Hfresh.
  match goal with |- context [set_nonblocking ?a ?b ?c ?d] =>
    destruct (sets_set_nonblocking a b c d) as [Hr Ho];
    destruct (set_nonblocking a b c d) as [r w1] end.
  simpl in Hr, Ho. unfold sys_accept, sys_open in Hr, Ho. simpl in Hr, Ho.
  rewrite Hneg in Ho.
  destruct Hinv as [Hep HI]. unfold loop_invariant, I1, connections in *.
  assert (acc_ret c <> epoll_fd) by set_solver.
  destruct (r =? -1); [simpl; rewrite Hr, Ho; split; set_solver|].
  destruct (acc_add_ok c); simpl; rewrite Hr, Ho; split; set_solver.
Qed.

Lemma inv_accept_connections backlog w :
  backlog_ok epoll_fd backlog w = true -> inv w ->
  inv (accept_connections server_fd epoll_fd backlog w).
Proof.
  revert w. induction backlog as [|c rest IH]; intros w Hok Hinv; simpl in *.
  - eapply inv_same_sets; [| |exact Hinv]; reflexivity.
  - apply andb_prop in Hok as [Hfresh Hok].
    pose proof (inv_accept_one c w Hfresh Hinv) as H1.
    destruct (accept_one epoll_fd c w) as [[] w1]; simpl in H1; auto.
Qed.

Lemma inv_dispatch ev w :
  ready_ok server_fd epoll_fd ev w = true -> inv w ->
  inv (dispatch server_fd epoll_fd ev w).
Proof.
  unfold ready_ok, dispatch. cbv zeta. intros Hok Hinv.
  apply andb_prop in Hok as [Hreg Hok]. apply bool_decide_eq_true in Hreg.
  destruct (negb (Z.land (ev_events ev) (Z.lor EPOLLERR EPOLLHUP) =? 0)).
  { eapply inv_teardown; [| |exact Hreg|exact Hinv]; reflexivity. }
  destruct (ev_fd ev =? server_fd); [now apply inv_accept_connections|].
  destruct (negb (Z.land (ev_events ev) EPOLLIN =? 0)); [|exact Hinv].
  destruct (sets_handle_client_data (ev_alloc ev) (ev_fd ev) epoll_fd (ev_input ev) w)
    as [Hr Ho].
  eapply inv_teardown; [exact Hr | exact Ho | exact Hreg | exact Hinv].
Qed.

Lemma inv_process_events evs w :
  events_ok server_fd epoll_fd evs w = true -> inv w ->
  inv (process_events server_fd epoll_fd evs w).
Proof.
  unfold process_events. revert w.
  induction evs as [|ev evs IH]; intros w Hok Hinv; simpl in *; [exact Hinv|].
  apply andb_prop in Hok as [Hev Hok]. apply IH; [exact Hok|].
  now apply inv_dispatch.
Qed.

Lemma inv_event_loop waits w :
  waits_ok server_fd epoll_fd waits w = true -> inv w ->
  inv (snd (event_loop server_fd epoll_fd waits w)).
Proof.
  revert w. induction waits as [|[evs|] rest IH]; intros w Hok Hinv; simpl in *.
  - exact Hinv.
  - apply andb_prop in Hok as [Hevs Hok]. apply IH; [exact Hok|].
    now apply inv_process_events.
  - eapply inv_same_sets; [| |exact Hinv]; reflexivity.
Qed.

Lemma I1_event_loop waits w :
  epoll_fd ∈ open_fds w -> I1 server_fd epoll_fd w ->
  waits_ok server_fd epoll_fd waits w = true ->
  I1 server_fd epoll_fd (snd (event_loop server_fd epoll_fd waits w)).
Proof. intros Hep HI Hok. now apply inv_event_loop. Qed.
End Invariant.

Lemma dispatch_error_trace server_fd epoll_fd ev w :
  Z.land (ev_events ev) (Z.lor EPOLLERR EPOLLHUP) <> 0 ->
  trace (dispatch server_fd epoll_fd ev w)
  = (trace w
       ++ [EvStderr ("epoll error on fd " +:+ dec (ev_fd ev) +:+ String LF EmptyString)]
       ++ teardown epoll_fd (ev_fd ev))%list.
Proof.
  intros Herr. unfold dispatch. cbv zeta.
  apply Z.eqb_neq in Herr. rewrite Herr.
  unfold negb, sys_close, epoll_ctl_del, fprintf_stderr, emit, teardown. simpl trace.
  rewrite <- ?app_assoc. reflexivity.
Qed.

(** C3.  Every teardown of a client takes the descriptor off the
    interest list first and closes it next, and does both: when
    [handle_client_data] returns (after a response, a parse failure,
    the end of the stream or a failed read) and when the error/hang-up
    branch of the loop has run, the last two calls are
    [epoll_ctl(DEL)] then [close], and the descriptor is neither
    registered nor open any more.  Hence the loop keeps I1, and once
    no connection is live the interest list holds nothing but the
    listening handle. *)
Theorem teardown_preserves_I1 (server_fd epoll_fd : Z) :
  (forall alloc fd input w,
      let w' := fst (handle_client_data alloc fd epoll_fd input w) in
      (exists ret errno mid,
          trace w'
          = (trace w ++ [EvRead fd (BUFFER_SIZE - 1) ret errno] ++ mid
               ++ teardown epoll_fd fd)%list /\
          Forall (fun e => match e with EvClose _ | EvEpollDel _ _ => False | _ => True end)
                 mid) /\
      registry w' = registry w ∖ {[fd]} /\
      open_fds w' = open_fds w ∖ {[fd]}) /\
  (forall ev w,
      Z.land (ev_events ev) (Z.lor EPOLLERR EPOLLHUP) <> 0 ->
      let w' := dispatch server_fd epoll_fd ev w in
      trace w'
      = (trace w
           ++ [EvStderr ("epoll error on fd " +:+ dec (ev_fd ev) +:+ String LF EmptyString)]
           ++ teardown epoll_fd (ev_fd ev))%list /\
      registry w' = registry w ∖ {[ev_fd ev]} /\
      open_fds w' = open_fds w ∖ {[ev_fd ev]}) /\
  (forall waits w,
      server_fd <> epoll_fd ->
      epoll_fd ∈ open_fds w ->
      I1 server_fd epoll_fd w ->
      waits_ok server_fd epoll_fd waits w = true ->
      let w' := snd (event_loop server_fd epoll_fd waits w) in
      I1 server_fd epoll_fd w' /\
      (connections server_fd epoll_fd w' = ∅ -> registry w' ⊆ {[server_fd]})).
Proof.
  split; [|split].
  - intros alloc fd input w. cbv zeta. split.
    + destruct (handle_client_data_trace alloc fd epoll_fd input w)
        as (ret & errno & mid & Htr & _ & Hmid & _).
      now exists ret, errno, mid.
    + apply sets_handle_client_data.
  - intros ev w Herr. cbv zeta. split; [now apply dispatch_error_trace|].
    unfold dispatch. cbv zeta. apply Z.eqb_neq in Herr. rewrite Herr.
    split; reflexivity.
  - intros waits w Hne Hep HI Hok w'.
    assert (HI' : I1 server_fd epoll_fd w') by now apply I1_event_loop.
    split; [exact HI'|].
    unfold I1 in HI'. intros Hnone. rewrite Hnone in HI'.
    intros x Hx. apply elem_of_singleton.
    destruct (decide (x = server_fd)) as [Heq|Hxs]; [exact Heq|]. exfalso.
    assert (Hin : x ∈ registry w' ∖ {[server_fd]}).
    { apply elem_of_difference. split; [exact Hx|]. now rewrite elem_of_singleton. }
    rewrite HI' in Hin. now apply not_elem_of_empty in Hin.
Qed.

Lemma teardown_preserves_I1_witness :
  (let w' := dispatch 3 4 {| ev_events := EPOLLHUP; ev_fd := 5; ev_backlog := [];
                             ev_input := []; ev_alloc := true |} one_client in
   trace w'
   = [ EvStderr ("epoll error on fd 5" +:+ String LF EmptyString);
       EvEpollDel 4 5; EvClose 5 ] /\
   registry w' = registry one_client ∖ {[5]} /\
   open_fds w' = open_fds one_client ∖ {[5]}) /\
  (let w' := snd (event_loop 3 4 two_clients listening) in
   I1 3 4 w' /\ registry w' ⊆ {[3]}).
Proof.
  split.
  - apply (proj1 (proj2 (teardown_preserves_I1 3 4))
             {| ev_events := EPOLLHUP; ev_fd := 5; ev_backlog := [];
                ev_input := []; ev_alloc := true |} one_client).
    vm_compute. discriminate.
  - destruct (proj2 (proj2 (teardown_preserves_I1 3 4)) two_clients listening)
      as [HI Hreg].
    + lia.
    + vm_compute. reflexivity.
    + vm_compute. reflexivity.
    + vm_compute. reflexivity.
    + split; [exact HI|]. apply Hreg. vm_compute. reflexivity.
Defined.

(** ** Start-up *)

Lemma main_without_port prog os waits :
  main [prog] os waits
  = (Exited 1,
     fprintf_stderr ("Usage: " +:+ prog +:+ " <port>" +:+ String LF EmptyString) initial).
Proof. reflexivity. Qed.

(** C9.  A missing port makes [main] print the usage line and return
    1.  A port of 0 (or a negative one, or text that [atoi] reads as
    0) goes unchecked to [srv_init]: when the operating system takes
    it, the server starts, prints nothing on the standard error and
    answers clients.  The sibling [http-server.c] refuses such a port
    with "Bad port" and status 1. *)
Theorem non_positive_port_is_served :
  (forall prog os waits, fst (main [prog] os waits) = Exited 1) /\
  atoi "0" = 0 /\ atoi "-1" = -1 /\ atoi "http" = 0 /\
  http_server_main_check ["http-server"; "0"]
  = Some (1, "Bad port" +:+ String LF EmptyString) /\
  (let '(r, w) := main ["httpd-epoll"; "0"] friendly_os two_clients in
   r = Serving /\
   existsb is_stderr (firstn 6 (trace w)) = false /\
   In (EvWrite 5 (wire_form 200 "OK" "text/html" HTML_BODY) 118) (trace w)) /\
  fst (main ["httpd-epoll"; "-1"] friendly_os two_clients) = Serving.
Proof.
  split; [intros; reflexivity|].
  vm_compute. repeat split; try reflexivity. tauto.
Qed.

(** * Further properties of [httpd-epoll.c] *)

(** ** The parser on every buffer *)

(** X1.  Whatever the buffer, a request that [parse_http] returns
    fits the two fields of [struct sHttpRequest] with room for the
    terminator, its method holds no space and its target no space or
    line terminator, and neither holds a NUL. *)
Theorem parse_http_fields_bounded (alloc : bool) (str : string) (req : httpreq) :
  fst (parse_http alloc str) = Some req ->
  (String.length (method req) < METHOD_SIZE)%nat /\
  (String.length (url req) < URL_SIZE)%nat /\
  passes is_space (method req) = true /\
  passes is_url_end (url req) = true.
Proof.
  intros Hreq. destruct alloc; [|discriminate Hreq].
  destruct (parse_http_cases str) as [(m & tail & _ & _ & _ & Hnone)
                                     |(m & t & tail & _ & Hm & Ht & _ & Hsome)].
  - rewrite Hnone in Hreq. discriminate Hreq.
  - rewrite Hsome in Hreq.
    assert (Hreq' : req = {| method := take_bytes 15 m; url := take_bytes 1023 t |})
      by congruence.
    clear Hreq. subst req. unfold METHOD_SIZE, URL_SIZE, method, url.
    split; [apply Nat.lt_succ_r, take_bytes_length|].
    split; [apply Nat.lt_succ_r, take_bytes_length|].
    split; [exact (passes_take is_space 15 m Hm) | exact (passes_take is_url_end 1023 t Ht)].
Qed.

Lemma parse_http_fields_bounded_witness :
  (String.length "ABCDEFGHIJKLMNO" < METHOD_SIZE)%nat /\
  (String.length "/x" < URL_SIZE)%nat /\
  passes is_space "ABCDEFGHIJKLMNO" = true /\
  passes is_url_end "/x" = true.
Proof.
  apply (parse_http_fields_bounded true "ABCDEFGHIJKLMNOPQRST /x y"
           {| method := "ABCDEFGHIJKLMNO"; url := "/x" |}).
  reflexivity.
Defined.

Lemma cstring_app stop m r :
  passes stop m = true -> cstring (m +:+ r) = m +:+ cstring r.
Proof.
  unfold passes. intros Hm.
  induction m as [|c m IH]; rewrite ?append_cons, ?append_nil; simpl in *; [reflexivity|].
  apply andb_prop in Hm as [Hc Hm]. apply negb_true_iff, orb_false_iff in Hc as [Hn _].
  rewrite Hn. now rewrite IH.
Qed.

Lemma stops_scan_cstring tail :
  stops_scan is_url_end tail -> stops_scan is_url_end (cstring tail).
Proof.
  destruct tail as [|c tail]; simpl; [auto|].
  destruct (Ascii.eqb c NUL) eqn:Hn; simpl; [auto|]. now rewrite Hn.
Qed.

(** X2.  The parser sees a C string: the bytes from the first NUL of
    the buffer on have no effect on what it returns. *)
Theorem parse_http_stops_at_nul (alloc : bool) (str : string) :
  fst (parse_http alloc str) = fst (parse_http alloc (cstring str)).
Proof.
  destruct alloc; [|reflexivity].
  destruct (parse_http_cases str) as [(m & tail & -> & Hm & Htail & Hnone)
                                     |(m & t & tail & -> & Hm & Ht & Htl & Hsome)].
  - rewrite Hnone, (cstring_app is_space) by exact Hm.
    replace (cstring tail) with EmptyString
      by (destruct tail as [|c tail]; [reflexivity | now subst c]).
    symmetry. now apply parse_http_no_space.
  - rewrite Hsome, (cstring_app is_space) by exact Hm.
    change (cstring (String SP (t +:+ tail))) with (String SP (cstring (t +:+ tail))).
    rewrite (cstring_app is_url_end) by exact Ht.
    symmetry. apply parse_http_on_request_line; auto.
    apply stops_scan_cstring in Htl. exact Htl.
Qed.

Lemma parse_http_ignores_rest m t tail :
  passes is_space m = true -> passes is_url_end t = true ->
  stops_scan is_url_end tail ->
  fst (parse_http true (m +:+ String SP (t +:+ tail)))
  = fst (parse_http true (m +:+ String SP t)).
Proof.
  intros Hm Ht Htail.
  rewrite parse_http_on_request_line by assumption.
  rewrite <- (append_nil_r t) at 2.
  now rewrite parse_http_on_request_line.
Qed.

(** X3.  Nothing after the target is looked at: whatever follows it
    (version, headers, body, or nothing at all, the buffer ending
    right after the target), [handle_request] does the same. *)
Theorem handle_request_ignores_rest (m t tail : string) (fd : Z) (w : world) :
  passes is_space m = true -> passes is_url_end t = true ->
  stops_scan is_url_end tail ->
  handle_request true fd (m +:+ String SP (t +:+ tail)) w
  = handle_request true fd (m +:+ String SP t) w.
Proof.
  intros Hm Ht Htail. unfold handle_request.
  now rewrite parse_http_ignores_rest.
Qed.

Lemma handle_request_ignores_rest_witness :
  handle_request true 7
    ("GET" +:+ String SP ("/data.json" +:+ (" HTTP/1.1" +:+ CRLF +:+ "Host: x" +:+ CRLF +:+ CRLF)))
    initial
  = handle_request true 7 ("GET" +:+ String SP "/data.json") initial.
Proof.
  apply (handle_request_ignores_rest "GET" "/data.json"); reflexivity.
Defined.

(** ** Requests that do not parse, and how many responses go out *)

Lemma parse_http_none_iff alloc str :
  fst (parse_http alloc str) = None <-> alloc = false \/ has_space (cstring str) = false.
Proof.
  unfold parse_http. destruct alloc; cbv beta iota zeta; unfold negb at 1.
  - rewrite first_space_found.
    destruct (has_space (cstring str)); unfold negb, fst;
      split; [discriminate | intros [H|H]; discriminate H | auto | auto].
  - unfold fst. split; auto.
Qed.

(** X4.  [handle_request] answers 400 "Malformed request" exactly
    when the parser fails, that is when the request holds no space
    before its end (or the allocation fails), and then logs nothing;
    every request with a space gets a 200, 404 or 405. *)
Theorem malformed_request_gets_400 (alloc : bool) (fd : Z) (request : string) (w : world) :
  (alloc = false \/ has_space (cstring request) = false ->
   trace (handle_request alloc fd request w)
   = (trace w ++ [EvWrite fd (wire_form 400 "Bad Request" "text/plain" "Malformed request")
                    (strlen (wire_form 400 "Bad Request" "text/plain"
                               "Malformed request"))])%list) /\
  (alloc = true -> has_space (cstring request) = true ->
   exists code reason type body,
     code <> 400 /\ In (code, reason, type, body) canned /\
     sends w (handle_request alloc fd request w) fd (wire_form code reason type body)).
Proof.
  split.
  - intros Hfail. apply parse_http_none_iff in Hfail.
    unfold handle_request. rewrite Hfail.
    rewrite http_send_response_wire by fits. apply trace_emit.
  - intros Halloc Hsp.
    destruct (fst (parse_http alloc request)) as [req|] eqn:Hreq.
    2: { apply parse_http_none_iff in Hreq as [H|H]; congruence. }
    unfold handle_request. rewrite Hreq.
    destruct (strcmp_eq (method req) "GET");
      [destruct (strcmp_eq (url req) "/index.html" || strcmp_eq (url req) "/");
         [|destruct (strcmp_eq (url req) "/data.json")]|].
    + exists 200, "OK", "text/html", HTML_BODY.
      split; [discriminate | split; [unfold canned; simpl; tauto | apply sends_logged; fits]].
    + exists 200, "OK", "application/json", JSON_BODY.
      split; [discriminate | split; [unfold canned; simpl; tauto | apply sends_logged; fits]].
    + exists 404, "Not Found", "text/plain", "File not found!".
      split; [discriminate | split; [unfold canned; simpl; tauto | apply sends_logged; fits]].
    + exists 405, "Method Not Allowed", "text/plain", "Only GET supported".
      split; [discriminate | split; [unfold canned; simpl; tauto | apply sends_logged; fits]].
Qed.

Lemma malformed_request_gets_400_witness :
  trace (handle_request true 7 ("GARBAGE" +:+ CRLF +:+ CRLF) initial)
  = (trace initial
       ++ [EvWrite 7 (wire_form 400 "Bad Request" "text/plain" "Malformed request")
             (strlen (wire_form 400 "Bad Request" "text/plain" "Malformed request"))])%list.
Proof.
  apply (proj1 (malformed_request_gets_400 true 7 ("GARBAGE" +:+ CRLF +:+ CRLF) initial)).
  right. reflexivity.
Defined.

(** X5.  One readable event gives at most one response: exactly one
    [write], on the client's descriptor, when the [read] returned at
    least one byte, and none when it returned end-of-stream, an error
    or would-block. *)
Theorem one_response_iff_bytes
    (alloc : bool) (fd epoll_fd : Z) (input : list read_outcome) (w : world) :
  let w' := fst (handle_client_data alloc fd epoll_fd input w) in
  match input with
  | ReadOk (String _ _) :: _ =>
      exists text,
        writes_of (trace w') = (writes_of (trace w) ++ [EvWrite fd text (strlen text)])%list
  | _ => writes_of (trace w') = writes_of (trace w)
  end.
Proof.
  cbv zeta.
  destruct input as [|[[|c r]|e] rest].
  - unfold handle_client_data, sys_read, sys_close, epoll_ctl_del, emit. simpl.
    rewrite !writes_of_app. simpl. now rewrite !app_nil_r.
  - unfold handle_client_data, sys_read, sys_close, epoll_ctl_del, printf, emit.
    replace (take_bytes (Z.to_nat (BUFFER_SIZE - 1)) EmptyString) with EmptyString
      by (now destruct (Z.to_nat (BUFFER_SIZE - 1))).
    simpl. rewrite !writes_of_app. simpl. now rewrite !app_nil_r.
  - unfold handle_client_data, sys_read.
    change (Z.to_nat (BUFFER_SIZE - 1)) with (S 4094). rewrite take_bytes_cons.
    cbv beta iota zeta. unfold bytes_read at 1.
    assert (Hpos : (strlen (String c (take_bytes 4094 r)) <=? 0) = false).
    { apply Z.leb_gt. unfold strlen. simpl String.length. lia. }
    rewrite Hpos. unfold fst, buffer, bytes_read, read_errno.
    match goal with |- context [handle_request alloc fd ?req ?w0] =>
      destruct (handle_request_sends alloc fd req w0) as (text & log & Htr & Hlog) end.
    exists text. unfold sys_close, epoll_ctl_del. rewrite !trace_emit. cbn [trace].
    rewrite ?trace_emit. cbn [trace].
    rewrite Htr, trace_emit, !writes_of_app, (writes_of_log _ Hlog). simpl.
    now rewrite !app_nil_r.
  - unfold handle_client_data, sys_read, sys_close, epoll_ctl_del, perror, emit. simpl.
    destruct (negb (e =? EAGAIN) && negb (e =? EWOULDBLOCK)); simpl;
      rewrite !writes_of_app; simpl; now rewrite !app_nil_r.
Qed.

(** ** The acceptor *)

Lemma accept_one_continues epoll_fd c w :
  fst (accept_one epoll_fd c w) = negb (acc_ret c <? 0).
Proof.
  unfold accept_one. cbv zeta. destruct (acc_ret c <? 0).
  - now destruct ((acc_errno c =? EAGAIN) || (acc_errno c =? EWOULDBLOCK)).
  - destruct (set_nonblocking _ _ _ _) as [r w1].
    destruct (r =? -1); [reflexivity|]. now destruct (acc_add_ok c).
Qed.

Lemma set_nonblocking_result fd g s w :
  fst (set_nonblocking fd g s w) = if g && s then 0 else -1.
Proof. now destruct g, s. Qed.

Lemma accept_one_sets epoll_fd c w :
  let new : gset Z :=
    if acc_ret c <? 0 then ∅
    else if acc_getfl_ok c && acc_setfl_ok c && acc_add_ok c then {[acc_ret c]} else ∅ in
  registry (snd (accept_one epoll_fd c w)) = registry w ∪ new /\
  (fresh_accept c w = true -> open_fds (snd (accept_one epoll_fd c w)) = open_fds w ∪ new).
Proof.
  cbv zeta. unfold accept_one, fresh_accept. cbv zeta.
  destruct (acc_ret c <? 0) eqn:Hneg.
  { destruct ((acc_errno c =? EAGAIN) || (acc_errno c =? EWOULDBLOCK));
      unfold sys_accept, sys_open; simpl; rewrite ?Hneg; split; intros; set_solver. }
  match goal with |- context [set_nonblocking ?a ?b ?c ?d] =>
    destruct (sets_set_nonblocking a b c d) as [Hr Ho];
    pose proof (set_nonblocking_result a b c d) as Hres;
    destruct (set_nonblocking a b c d) as [r w1] end.
  simpl in Hr, Ho, Hres. unfold sys_accept, sys_open in Hr, Ho. simpl in Hr, Ho.
  rewrite Hneg in Ho. subst r.
  destruct (acc_getfl_ok c && acc_setfl_ok c); simpl.
  - destruct (acc_add_ok c); simpl; rewrite Hr, Ho; split.
    + set_solver.
    + intros _. set_solver.
    + set_solver.
    + intros Hf. apply bool_decide_eq_true in Hf. set_solver.
  - rewrite Hr, Ho. split; [set_solver|].
    intros Hf. apply bool_decide_eq_true in Hf. set_solver.
Qed.

(** X6.  One call of [accept_connections] adds to the interest list
    exactly the descriptors accepted, before the first failing
    [accept], whose set-up succeeded, and removes none; when the kernel
    hands out fresh descriptors the open descriptors grow by the same
    set: a connection whose set-up fails is closed again. *)
Theorem accept_registers_what_it_keeps
    (server_fd epoll_fd : Z) (backlog : list incoming) (w : world) :
  registry (accept_connections server_fd epoll_fd backlog w)
  = registry w ∪ list_to_set (registered_by backlog) /\
  (backlog_ok epoll_fd backlog w = true ->
   open_fds (accept_connections server_fd epoll_fd backlog w)
   = open_fds w ∪ list_to_set (registered_by backlog)).
Proof.
  revert w. induction backlog as [|c rest IH]; intros w.
  - simpl. split; intros; set_solver.
  - simpl accept_connections. simpl registered_by. simpl backlog_ok.
    destruct (accept_one_sets epoll_fd c w) as [Hr Ho].
    pose proof (accept_one_continues epoll_fd c w) as Hc.
    destruct (accept_one epoll_fd c w) as [continue w1]. simpl in Hr, Ho, Hc.
    destruct (acc_ret c <? 0); simpl in Hc; subst continue.
    + split; [rewrite Hr; set_solver|].
      intros Hok. apply andb_prop in Hok as [Hf _]. rewrite (Ho Hf). set_solver.
    + destruct (IH w1) as [IHr IHo]. split.
      * rewrite IHr, Hr.
        destruct (acc_getfl_ok c && acc_setfl_ok c && acc_add_ok c); set_solver.
      * intros Hok. apply andb_prop in Hok as [Hf Hok].
        rewrite (IHo Hok), (Ho Hf).
        destruct (acc_getfl_ok c && acc_setfl_ok c && acc_add_ok c); set_solver.
Qed.

Lemma accept_registers_what_it_keeps_witness :
  open_fds (accept_connections 3 4
              [ {| acc_ret := 5; acc_errno := 0; acc_getfl_ok := true;
                   acc_setfl_ok := false; acc_add_ok := true |};
                {| acc_ret := 5; acc_errno := 0; acc_getfl_ok := true;
                   acc_setfl_ok := true; acc_add_ok := true |} ] listening)
  = open_fds listening ∪ list_to_set [5].
Proof.
  apply (proj2 (accept_registers_what_it_keeps 3 4
           [ {| acc_ret := 5; acc_errno := 0; acc_getfl_ok := true;
                acc_setfl_ok := false; acc_add_ok := true |};
             {| acc_ret := 5; acc_errno := 0; acc_getfl_ok := true;
                acc_setfl_ok := true; acc_add_ok := true |} ] listening)).
  vm_compute. reflexivity.
Defined.

(** X7.  The first [accept] that fails ends the call, whatever the
    error: the connections still pending behind it are not accepted
    by this call. *)
Theorem accept_stops_at_first_failure
    (server_fd epoll_fd : Z) (pre rest : list incoming) (c : incoming) (w : world) :
  acc_ret c < 0 ->
  accept_connections server_fd epoll_fd (pre ++ c :: rest) w
  = accept_connections server_fd epoll_fd (pre ++ [c]) w.
Proof.
  intros Hneg. revert w. induction pre as [|a pre IH]; intros w; simpl.
  - pose proof (accept_one_continues epoll_fd c w) as Hc.
    apply Z.ltb_lt in Hneg. rewrite Hneg in Hc.
    destruct (accept_one epoll_fd c w) as [continue w1]. simpl in Hc. now subst continue.
  - destruct (accept_one epoll_fd a w) as [[] w1]; [apply IH | reflexivity].
Qed.

Lemma accept_stops_at_first_failure_witness :
  accept_connections 3 4
    ([] ++ {| acc_ret := -1; acc_errno := 24; acc_getfl_ok := true;
              acc_setfl_ok := true; acc_add_ok := true |}
        :: [ {| acc_ret := 5; acc_errno := 0; acc_getfl_ok := true;
                acc_setfl_ok := true; acc_add_ok := true |} ]) listening
  = accept_connections 3 4
      ([] ++ [ {| acc_ret := -1; acc_errno := 24; acc_getfl_ok := true;
                  acc_setfl_ok := true; acc_add_ok := true |} ]) listening.
Proof.
  apply (accept_stops_at_first_failure 3 4 []). simpl. lia.
Defined.

(** ** The event loop *)

Lemma sets_accept_connections_frame server_fd epoll_fd backlog w :
  registry w ⊆ registry (accept_connections server_fd epoll_fd backlog w).
Proof.
  destruct (accept_registers_what_it_keeps server_fd epoll_fd backlog w) as [Hr _].
  rewrite Hr. set_solver.
Qed.

(** X8.  An event that is not an accept (an error or hang-up on any
    descriptor, or any event on a client) changes nothing about the
    other descriptors: each of them is registered, and open, after
    the event exactly if it was before. *)
Theorem event_touches_only_its_descriptor
    (server_fd epoll_fd : Z) (ev : ready) (w : world) (other : Z) :
  Z.land (ev_events ev) (Z.lor EPOLLERR EPOLLHUP) <> 0 \/ ev_fd ev <> server_fd ->
  other <> ev_fd ev ->
  let w' := dispatch server_fd epoll_fd ev w in
  (other ∈ registry w' <-> other ∈ registry w) /\
  (other ∈ open_fds w' <-> other ∈ open_fds w).
Proof.
  intros Hev Hother. cbv zeta. unfold dispatch. cbv zeta.
  destruct (negb (Z.land (ev_events ev) (Z.lor EPOLLERR EPOLLHUP) =? 0)) eqn:Herr.
  { simpl. set_solver. }
  destruct Hev as [Hev|Hev].
  { apply negb_false_iff, Z.eqb_eq in Herr. contradiction. }
  apply Z.eqb_neq in Hev. rewrite Hev.
  destruct (negb (Z.land (ev_events ev) EPOLLIN =? 0)); [|tauto].
  destruct (sets_handle_client_data (ev_alloc ev) (ev_fd ev) epoll_fd (ev_input ev) w)
    as [Hr Ho].
  rewrite Hr, Ho. set_solver.
Qed.

Lemma event_touches_only_its_descriptor_witness :
  let w' :=
    dispatch 3 4 {| ev_events := EPOLLIN; ev_fd := 5; ev_backlog := [];
                    ev_input := [ReadOk ("GET / HTTP/1.1" +:+ CRLF +:+ CRLF)];
                    ev_alloc := true |} one_client in
  (3 ∈ registry w' <-> 3 ∈ registry one_client) /\
  (3 ∈ open_fds w' <-> 3 ∈ open_fds one_client).
Proof.
  apply (event_touches_only_its_descriptor 3 4
           {| ev_events := EPOLLIN; ev_fd := 5; ev_backlog := [];
              ev_input := [ReadOk ("GET / HTTP/1.1" +:+ CRLF +:+ CRLF)];
              ev_alloc := true |} one_client 3).
  - right. simpl. lia.
  - simpl. lia.
Defined.


Lemma event_loop_stops server_fd epoll_fd pre rest w :
  event_loop server_fd epoll_fd (pre ++ WaitFails :: rest) w
  = event_loop server_fd epoll_fd (pre ++ [WaitFails]) w.
Proof.
  revert w. induction pre as [|[evs|] pre IH]; intros w; simpl; auto.
Qed.

Lemma event_loop_broke server_fd epoll_fd waits w :
  fst (event_loop server_fd epoll_fd waits w) = true -> In WaitFails waits.
Proof.
  revert w. induction waits as [|[evs|] waits IH]; intros w; simpl.
  - discriminate.
  - intros H. right. eapply IH, H.
  - intros _. now left.
Qed.

(** X10.  [main] returns 0 only after a failure of [epoll_wait], and
    once [epoll_wait] has failed nothing that would have followed is
    handled. *)
Theorem main_ends_at_wait_failure
    (argv : list string) (os : setup) (pre rest waits : list wait_result) :
  main argv os (pre ++ WaitFails :: rest) = main argv os (pre ++ [WaitFails]) /\
  (fst (main argv os waits) = Exited 0 -> In WaitFails waits).
Proof.
  unfold main. cbv zeta.
  destruct (argv !! 1%nat) as [arg|]; [|split; [reflexivity | discriminate]].
  destruct (srv_init (atoi arg) os initial) as [server_fd w1].
  destruct (server_fd <? 0); [split; [reflexivity | discriminate]|].
  destruct (epoll_create1_ret os =? -1); [split; [reflexivity | discriminate]|].
  destruct (negb (add_server_ok os)); [split; [reflexivity | discriminate]|].
  split.
  - now rewrite event_loop_stops.
  - match goal with |- context [event_loop ?s ?e waits ?w0] =>
      pose proof (event_loop_broke s e waits w0) as Hb;
      destruct (event_loop s e waits w0) as [broke w2] end.
    destruct broke; [auto | discriminate].
Qed.

Lemma main_ends_at_wait_failure_witness : In WaitFails [WaitFails].
Proof.
  apply (proj2 (main_ends_at_wait_failure ["httpd-epoll"; "8080"] friendly_os [] []
                  [WaitFails])).
  reflexivity.
Defined.

(** ** Start-up *)

Ltac case_flags os portno :=
  destruct (setsockopt_ok os); simpl;
  [destruct (inet_pton_ok os); simpl;
   [destruct (bind_ok os (htons portno)); simpl;
    [destruct (listen_ok os); simpl;
     [destruct (srv_getfl_ok os); simpl;
      [destruct (srv_setfl_ok os); simpl|]|]|]|]|].

Lemma srv_init_outcome (portno : Z) (os : setup) (w : world) :
  socket_ret os ∉ open_fds w ->
  let w' := snd (srv_init portno os w) in
  fst (srv_init portno os w) = (if setup_ok portno os then socket_ret os else -1) /\
  registry w' = registry w /\
  open_fds w' = (if setup_ok portno os then open_fds w ∪ {[socket_ret os]} else open_fds w) /\
  exists delta,
    trace w' = (trace w ++ delta)%list /\
    existsb is_stderr delta = negb (setup_ok portno os) /\
    existsb is_client_io delta = false.
Proof.
  intros Hfresh. cbv zeta. unfold srv_init, setup_ok. cbv zeta.
  destruct (socket_ret os <? 0) eqn:Hneg.
  { replace (0 <=? socket_ret os) with false by (symmetry; apply Z.leb_gt; lia).
    simpl. unfold sys_open. rewrite Hneg. simpl.
    repeat split. exists [EvPerror "socket"]. now repeat split. }
  replace (0 <=? socket_ret os) with true by (symmetry; apply Z.leb_le; lia).
  unfold sys_open. rewrite Hneg.
  case_flags os portno;
    (split; [reflexivity | split; [reflexivity | split; [set_solver|]]]);
    eexists; (split; [rewrite <- ?app_assoc; reflexivity | now split]).
Qed.

(** X11.  [srv_init] is all or nothing: it returns the socket when
    every step succeeds and -1 otherwise; in the first case the
    socket is the one descriptor it leaves open, in the second it
    leaves none open and has written the reason on the standard
    error.  It never touches the interest list. *)
Theorem srv_init_all_or_nothing (portno : Z) (os : setup) (w : world) :
  socket_ret os ∉ open_fds w ->
  let w' := snd (srv_init portno os w) in
  fst (srv_init portno os w) = (if setup_ok portno os then socket_ret os else -1) /\
  registry w' = registry w /\
  open_fds w' = (if setup_ok portno os then open_fds w ∪ {[socket_ret os]} else open_fds w) /\
  exists delta,
    trace w' = (trace w ++ delta)%list /\
    existsb is_stderr delta = negb (setup_ok portno os) /\
    existsb is_client_io delta = false.
Proof. exact (srv_init_outcome portno os w). Qed.

Lemma srv_init_all_or_nothing_witness :
  let w' := snd (srv_init 8080 friendly_os initial) in
  fst (srv_init 8080 friendly_os initial)
  = (if setup_ok 8080 friendly_os then socket_ret friendly_os else -1) /\
  registry w' = registry initial /\
  open_fds w'
  = (if setup_ok 8080 friendly_os then open_fds initial ∪ {[socket_ret friendly_os]}
     else open_fds initial) /\
  exists delta,
    trace w' = (trace initial ++ delta)%list /\
    existsb is_stderr delta = negb (setup_ok 8080 friendly_os) /\
    existsb is_client_io delta = false.
Proof.
  apply (srv_init_all_or_nothing 8080 friendly_os initial).
  vm_compute. intros H. discriminate H.
Defined.

Lemma setup_ok_socket portno os : setup_ok portno os = true -> (socket_ret os <? 0) = false.
Proof.
  unfold setup_ok. intros H. repeat (apply andb_prop in H as [H _]).
  apply Z.leb_le in H. apply Z.ltb_ge. lia.
Qed.

(** X12.  Whenever [main] returns 1 it has printed a message on the
    standard error, has dealt with no client (no [accept], [read] or
    [write]), and leaves no descriptor open and none registered. *)
Theorem failed_startup_leaves_nothing
    (argv : list string) (os : setup) (waits : list wait_result) :
  fst (main argv os waits) = Exited 1 ->
  let w := snd (main argv os waits) in
  open_fds w = ∅ /\ registry w = ∅ /\
  existsb is_stderr (trace w) = true /\
  existsb is_client_io (trace w) = false.
Proof.
  cbv zeta. unfold main. cbv zeta.
  destruct (argv !! 1%nat) as [arg|]; [|intros _; now repeat split].
  destruct (srv_init_outcome (atoi arg) os initial) as (Hres & Hreg & Hopen & delta & Htr & Herr & Hio);
    [set_solver|].
  destruct (srv_init (atoi arg) os initial) as [server_fd w1].
  simpl in Hres, Hreg, Hopen, Htr.
  destruct (setup_ok (atoi arg) os) eqn:Hok.
  - apply setup_ok_socket in Hok. subst server_fd. rewrite Hok.
    destruct (epoll_create1_ret os =? -1) eqn:Hep.
    + intros _. unfold sys_close, sys_open, perror, printf, emit. simpl.
      rewrite Hreg, Hopen, Htr. apply Z.eqb_eq in Hep. rewrite Hep. simpl.
      rewrite !existsb_app, Hio. simpl. rewrite !orb_true_r.
      repeat split; set_solver.
    + destruct (add_server_ok os); simpl negb; cbv iota.
      * destruct (event_loop _ _ _ _) as [[] w2]; discriminate.
      * intros _. unfold sys_close, epoll_ctl_add, sys_open, perror, printf, emit. simpl.
        rewrite Hreg, Hopen, Htr.
        rewrite !existsb_app, Hio. simpl. rewrite !orb_true_r.
        destruct (epoll_create1_ret os <? 0); repeat split; set_solver.
  - subst server_fd. change (-1 <? 0) with true. cbv iota. intros _.
    unfold fprintf_stderr, emit. simpl. rewrite Hreg, Hopen, Htr.
    rewrite !existsb_app, Hio. simpl. rewrite !orb_true_r.
    repeat split; set_solver.
Qed.

Lemma failed_startup_leaves_nothing_witness :
  let w := snd (main ["httpd-epoll"] friendly_os []) in
  open_fds w = ∅ /\ registry w = ∅ /\
  existsb is_stderr (trace w) = true /\
  existsb is_client_io (trace w) = false.
Proof.
  apply (failed_startup_leaves_nothing ["httpd-epoll"] friendly_os []). reflexivity.
Defined.

(** X13.  The port is not checked for range: [srv_init] hands the
    kernel its low 16 bits, so two ports that differ by a multiple of
    65536 set up the same socket. *)
Theorem srv_init_port_wraps (portno k : Z) (os : setup) (w : world) :
  srv_init (portno + 65536 * k) os w = srv_init portno os w /\
  0 <= htons portno < 65536.
Proof.
  split.
  - unfold srv_init, htons. change (2 ^ 16) with 65536.
    replace ((portno + 65536 * k) mod 65536) with (portno mod 65536); [reflexivity|].
    rewrite (Z.mul_comm 65536 k). now rewrite Z.mod_add.
  - unfold htons. apply Z.mod_pos_bound. reflexivity.
Qed.

(** ** No descriptor is closed while it is registered *)

Lemma replay_app reg a b : replay reg (a ++ b) = replay (replay reg a) b.
Proof.
  revert reg. induction a as [|e a IH]; intros reg; simpl; [reflexivity|].
  destruct e as [| |? ? []| | | | | | |]; apply IH.
Qed.

Lemma closes_clean_app reg a b :
  closes_clean reg (a ++ b) = closes_clean reg a && closes_clean (replay reg a) b.
Proof.
  revert reg. induction a as [|e a IH]; intros reg; simpl; [reflexivity|].
  destruct e as [| |? ? []| | | | | | |]; rewrite ?IH, ?andb_assoc; reflexivity.
Qed.

Lemma runs_clean_refl w : runs_clean w w.
Proof. exists []. now rewrite app_nil_r. Qed.

Lemma runs_clean_trans w1 w2 w3 : runs_clean w1 w2 -> runs_clean w2 w3 -> runs_clean w1 w3.
Proof.
  intros (d1 & Ht1 & Hr1 & Hc1) (d2 & Ht2 & Hr2 & Hc2).
  exists (d1 ++ d2)%list. rewrite Ht2, Ht1, app_assoc. split; [reflexivity|].
  rewrite replay_app, closes_clean_app, Hc1, <- Hr1. now split.
Qed.

Lemma runs_clean_emit e w : neutral e -> runs_clean w (emit e w).
Proof.
  intros He. exists [e]. rewrite trace_emit. split; [reflexivity|].
  destruct e; simpl in *; try contradiction; now split.
Qed.

Lemma runs_clean_del epoll_fd fd w : runs_clean w (epoll_ctl_del epoll_fd fd w).
Proof. exists [EvEpollDel epoll_fd fd]. now repeat split. Qed.

Lemma runs_clean_add epoll_fd fd ok w : runs_clean w (epoll_ctl_add epoll_fd fd ok w).
Proof. exists [EvEpollAdd epoll_fd fd ok]. destruct ok; now repeat split. Qed.

Lemma runs_clean_close fd w : fd ∉ registry w -> runs_clean w (sys_close fd w).
Proof.
  intros Hfd. exists [EvClose fd]. split; [reflexivity | split; [reflexivity|]].
  simpl. now rewrite bool_decide_eq_true_2.
Qed.

Lemma runs_clean_log w w' log tail :
  trace w' = (trace w ++ log ++ tail)%list -> registry w' = registry w ->
  Forall (fun e => exists line, e = EvStdout line) log -> Forall neutral tail ->
  runs_clean w w'.
Proof.
  intros Htr Hreg Hlog Htail. exists (log ++ tail)%list. split; [exact Htr|].
  assert (Hall : Forall neutral (log ++ tail)).
  { apply Forall_app. split; [|exact Htail].
    eapply Forall_impl; [exact Hlog|]. now intros e [line ->]. }
  rewrite Hreg. clear -Hall. revert Hall. generalize (log ++ tail)%list as l.
  induction l as [|e l IH]; intros Hall; [now split|].
  apply Forall_cons in Hall as [He Hl]. destruct (IH Hl) as [IH1 IH2].
  destruct e; simpl in *; try contradiction; now split.
Qed.

Lemma runs_clean_handle_request alloc fd request w :
  runs_clean w (handle_request alloc fd request w).
Proof.
  destruct (handle_request_sends alloc fd request w) as (text & log & Htr & Hlog).
  eapply runs_clean_log; [exact Htr | apply sets_handle_request | exact Hlog |].
  repeat constructor.
Qed.

Lemma runs_clean_teardown epoll_fd fd w :
  runs_clean w (sys_close fd (epoll_ctl_del epoll_fd fd w)).
Proof.
  eapply runs_clean_trans; [apply runs_clean_del|].
  apply runs_clean_close. simpl. set_solver.
Qed.

Lemma runs_clean_handle_client_data alloc fd epoll_fd input w :
  runs_clean w (fst (handle_client_data alloc fd epoll_fd input w)).
Proof.
  unfold handle_client_data, sys_read.
  set (r := match input with
            | [] => _ | ReadErr e :: rest => _ | ReadOk data :: rest => _ end).
  destruct r as [r unread]. cbv beta iota zeta.
  set (w0 := emit (EvRead fd (BUFFER_SIZE - 1) (bytes_read r) (read_errno r)) w).
  assert (H0 : runs_clean w w0) by now apply runs_clean_emit.
  destruct (bytes_read r <=? 0); unfold fst.
  - eapply runs_clean_trans; [|apply runs_clean_teardown].
    destruct (bytes_read r =? 0);
      [|destruct (negb (read_errno r =? EAGAIN) && negb (read_errno r =? EWOULDBLOCK))];
      try exact H0;
      (eapply runs_clean_trans; [exact H0 | now apply runs_clean_emit]).
  - eapply runs_clean_trans; [|apply runs_clean_teardown].
    eapply runs_clean_trans; [exact H0 | apply runs_clean_handle_request].
Qed.

Lemma runs_clean_set_nonblocking fd g s w : runs_clean w (snd (set_nonblocking fd g s w)).
Proof.
  unfold set_nonblocking, perror.
  destruct g, s; cbn [negb snd];
    repeat (eapply runs_clean_trans; [|now apply runs_clean_emit]);
    apply runs_clean_refl.
Qed.

Section CleanRuns.
Variables server_fd epoll_fd : Z.

(** Every registered descriptor is open. *)
Local Abbreviation safe := (fun w : world => registry w ⊆ open_fds w).

Lemma clean_accept_one c w :
  fresh_accept c w = true -> safe w ->
  runs_clean w (snd (accept_one epoll_fd c w)) /\ safe (snd (accept_one epoll_fd c w)).
Proof.
  unfold fresh_accept, accept_one. cbv zeta. intros Hfresh Hsafe.
  assert (Hacc : runs_clean w (sys_accept (acc_ret c) w)).
  { exists [EvAccept (acc_ret c)]. now repeat split. }
  destruct (acc_ret c <? 0) eqn:Hneg.
  { destruct ((acc_errno c =? EAGAIN) || (acc_errno c =? EWOULDBLOCK)); simpl;
      (split; [|unfold sys_open; rewrite Hneg; exact Hsafe]);
      [exact Hacc | eapply runs_clean_trans; [exact Hacc | now apply runs_clean_emit]]. }
  simpl in Hfresh. apply bool_decide_eq_true in Hfresh.
  assert (Hnot : acc_ret c ∉ registry w) by set_solver.
  set (w0 := printf _ (sys_accept (acc_ret c) w)).
  assert (H0 : runs_clean w w0)
    by (eapply runs_clean_trans; [exact Hacc | now apply runs_clean_emit]).
  pose proof (runs_clean_set_nonblocking (acc_ret c) (acc_getfl_ok c) (acc_setfl_ok c) w0) as Hnb.
  destruct (sets_set_nonblocking (acc_ret c) (acc_getfl_ok c) (acc_setfl_ok c) w0) as [Hr Ho].
  destruct (set_nonblocking _ _ _ w0) as [r w1]. simpl in Hnb, Hr, Ho.
  unfold w0, sys_accept, sys_open in Hr, Ho. simpl in Hr, Ho. rewrite Hneg in Ho.
  assert (H1 : runs_clean w w1) by (eapply runs_clean_trans; eassumption).
  destruct (r =? -1).
  { simpl. split.
    - eapply runs_clean_trans; [exact H1 | apply runs_clean_close; rewrite Hr; exact Hnot].
    - rewrite Hr, Ho. set_solver. }
  destruct (acc_add_ok c); cbn [negb snd].
  - split; [eapply runs_clean_trans; [exact H1 | apply runs_clean_add]|].
    simpl. rewrite Hr, Ho. set_solver.
  - split; [|simpl; rewrite Hr, Ho; set_solver].
    eapply runs_clean_trans; [exact H1|].
    eapply runs_clean_trans; [apply (runs_clean_add epoll_fd (acc_ret c) false w1)|].
    eapply runs_clean_trans;
      [apply (runs_clean_emit (EvPerror "epoll_ctl: add client")); exact I|].
    apply runs_clean_close. simpl. rewrite Hr. exact Hnot.
Qed.

Lemma clean_accept_connections backlog w :
  backlog_ok epoll_fd backlog w = true -> safe w ->
  runs_clean w (accept_connections server_fd epoll_fd backlog w) /\
  safe (accept_connections server_fd epoll_fd backlog w).
Proof.
  revert w. induction backlog as [|c rest IH]; intros w Hok Hsafe; simpl in *.
  - split; [|exact Hsafe]. exists [EvAccept (-1)]. now repeat split.
  - apply andb_prop in Hok as [Hfresh Hok].
    destruct (clean_accept_one c w Hfresh Hsafe) as [H1 H2].
    destruct (accept_one epoll_fd c w) as [[] w1]; simpl in H1, H2; [|now split].
    destruct (IH w1 Hok H2) as [H3 H4]. split; [|exact H4].
    eapply runs_clean_trans; eassumption.
Qed.

Lemma clean_dispatch ev w :
  ready_ok server_fd epoll_fd ev w = true -> safe w ->
  runs_clean w (dispatch server_fd epoll_fd ev w) /\
  safe (dispatch server_fd epoll_fd ev w).
Proof.
  unfold ready_ok, dispatch. cbv zeta. intros Hok Hsafe.
  apply andb_prop in Hok as [_ Hok].
  destruct (negb (Z.land (ev_events ev) (Z.lor EPOLLERR EPOLLHUP) =? 0)).
  { split; [|simpl; set_solver].
    eapply runs_clean_trans; [|apply runs_clean_teardown].
    now apply runs_clean_emit. }
  destruct (ev_fd ev =? server_fd); [now apply clean_accept_connections|].
  destruct (negb (Z.land (ev_events ev) EPOLLIN =? 0)); [|split; [apply runs_clean_refl | exact Hsafe]].
  split; [apply runs_clean_handle_client_data|].
  destruct (sets_handle_client_data (ev_alloc ev) (ev_fd ev) epoll_fd (ev_input ev) w)
    as [Hr Ho].
  rewrite Hr, Ho. set_solver.
Qed.

Lemma clean_process_events evs w :
  events_ok server_fd epoll_fd evs w = true -> safe w ->
  runs_clean w (process_events server_fd epoll_fd evs w) /\
  safe (process_events server_fd epoll_fd evs w).
Proof.
  unfold process_events. revert w.
  induction evs as [|ev evs IH]; intros w Hok Hsafe; simpl in *.
  - split; [apply runs_clean_refl | exact Hsafe].
  - apply andb_prop in Hok as [Hev Hok].
    destruct (clean_dispatch ev w Hev Hsafe) as [H1 H2].
    destruct (IH _ Hok H2) as [H3 H4]. split; [|exact H4].
    eapply runs_clean_trans; eassumption.
Qed.

Lemma clean_event_loop waits w :
  waits_ok server_fd epoll_fd waits w = true -> safe w ->
  runs_clean w (snd (event_loop server_fd epoll_fd waits w)) /\
  safe (snd (event_loop server_fd epoll_fd waits w)).
Proof.
  revert w. induction waits as [|[evs|] rest IH]; intros w Hok Hsafe; simpl in *.
  - split; [apply runs_clean_refl | exact Hsafe].
  - apply andb_prop in Hok as [Hevs Hok].
    destruct (clean_process_events evs w Hevs Hsafe) as [H1 H2].
    destruct (IH _ Hok H2) as [H3 H4]. split; [|exact H4].
    eapply runs_clean_trans; eassumption.
  - split; [now apply runs_clean_emit | exact Hsafe].
Qed.
End CleanRuns.

(** X14.  As long as the kernel hands out fresh descriptors, the
    event loop never closes a descriptor that is on the interest list
    at that moment, at any point of any run, and every registered
    descriptor is open when the loop stops. *)
Theorem never_closes_registered
    (server_fd epoll_fd : Z) (waits : list wait_result) (w : world) :
  registry w ⊆ open_fds w ->
  waits_ok server_fd epoll_fd waits w = true ->
  let w' := snd (event_loop server_fd epoll_fd waits w) in
  (exists delta,
      trace w' = (trace w ++ delta)%list /\
      closes_clean (registry w) delta = true) /\
  registry w' ⊆ open_fds w'.
Proof.
  intros Hsafe Hok. cbv zeta.
  destruct (clean_event_loop server_fd epoll_fd waits w Hok Hsafe)
    as [(delta & Htr & _ & Hc) Hs].
  split; [now exists delta | exact Hs].
Qed.

Lemma never_closes_registered_witness :
  let w' := snd (event_loop 3 4 two_clients listening) in
  (exists delta,
      trace w' = (trace listening ++ delta)%list /\
      closes_clean (registry listening) delta = true) /\
  registry w' ⊆ open_fds w'.
Proof.
  apply (never_closes_registered 3 4 two_clients listening).
  - simpl. set_solver.
  - vm_compute. reflexivity.
Defined.

(** ** [http_send_response] on a response that does not fit *)

Lemma take_bytes_length_min n s :
  String.length (take_bytes n s) = Nat.min n (String.length s).
Proof.
  revert s. induction n as [|n IH]; intros [|c s]; simpl; auto.
Qed.

(** X15.  [http_send_response] never puts more than
    [BUFFER_SIZE - 1] bytes into its buffer.  A response of
    [BUFFER_SIZE] bytes or more is cut to its first 4095 bytes there,
    but [write] is still asked for the length of the whole response,
    which is more than the buffer holds. *)
Theorem http_send_response_overlong
    (fd code : Z) (status type body : string) (w : world) :
  let text := response_text code status type (to_int32 (strlen body)) body in
  let w' := http_send_response fd code status (Some type) (Some body) w in
  (exists buf n, w' = emit (EvWrite fd buf n) w /\ strlen buf <= BUFFER_SIZE - 1) /\
  (BUFFER_SIZE <= strlen text < 2147483648 ->
   w' = emit (EvWrite fd (take_bytes 4095 text) (strlen text)) w /\
   strlen (take_bytes 4095 text) = BUFFER_SIZE - 1).
Proof.
  cbv zeta. unfold http_send_response, snprintf. simpl default.
  set (text := response_text code status type (to_int32 (strlen body)) body).
  assert (Hlen : strlen (take_bytes (Z.to_nat (BUFFER_SIZE - 1)) text)
                 = Z.min (BUFFER_SIZE - 1) (strlen text)).
  { unfold strlen. rewrite take_bytes_length_min. unfold BUFFER_SIZE.
    generalize (String.length text). intros n. lia. }
  split.
  - exists (take_bytes (Z.to_nat (BUFFER_SIZE - 1)) text), (to_int32 (strlen text)).
    split; [reflexivity | rewrite Hlen; lia].
  - intros Hlong. change 4095%nat with (Z.to_nat (BUFFER_SIZE - 1)). split.
    + rewrite to_int32_small; [reflexivity|].
      unfold BUFFER_SIZE in Hlong. clear -Hlong. lia.
    + rewrite Hlen. unfold BUFFER_SIZE in *. clear -Hlong. lia.
Qed.

Lemma http_send_response_overlong_witness :
  let text := response_text 200 "OK" "text/plain" (to_int32 (strlen (pad 5000 "A")))
                (pad 5000 "A") in
  http_send_response 7 200 "OK" (Some "text/plain") (Some (pad 5000 "A")) initial
  = emit (EvWrite 7 (take_bytes 4095 text) (strlen text)) initial /\
  strlen (take_bytes 4095 text) = BUFFER_SIZE - 1.
Proof.
  apply (proj2 (http_send_response_overlong 7 200 "OK" "text/plain" (pad 5000 "A") initial)).
  vm_compute. split; [discriminate | reflexivity].
Defined.

(** * [httpd.c] *)

(** ** Its parser *)

Lemma scan_finds_no_space m tail :
  passes is_space m = true ->
  match tail with EmptyString => True | String c _ => c = NUL end ->
  scan is_space (m +:+ tail) = String.length m /\
  Ascii.eqb (char_at (m +:+ tail) (String.length m)) SP = false.
Proof.
  intros Hm Htail. destruct tail as [|c tail].
  - rewrite append_nil_r. split.
    + clear -Hm. unfold passes in Hm. induction m as [|c m IH]; simpl in *; [reflexivity|].
      apply andb_prop in Hm as [Hc Hm]. apply negb_true_iff in Hc. rewrite Hc.
      f_equal. now apply IH.
    + now rewrite char_at_past.
  - subst c. split; [apply scan_stops_at; [exact Hm | reflexivity]|].
    now rewrite char_at_app.
Qed.

Lemma advance_empty k : advance EmptyString k = EmptyString.
Proof. now destruct k. Qed.

Lemma advance_add s a b : advance s (a + b) = advance (advance s a) b.
Proof.
  revert s. induction a as [|a IH]; intros s; simpl; [reflexivity|].
  destruct s; [now rewrite advance_empty | apply IH].
Qed.

Lemma httpd_parse_two_tokens m t rest len error :
  passes is_space m = true -> passes is_space t = true -> 0 < len ->
  Httpd.parse_http true (m +:+ String SP (t +:+ String SP rest)) len error
  = (Some {| method := take_bytes 15 m; url := take_bytes 1023 (strip_slash t) |},
     m +:+ String NUL (t +:+ String NUL rest), error).
Proof.
  intros Hm Ht Hlen. unfold Httpd.parse_http, strncpy.
  replace (len <=? 0) with false by (symmetry; apply Z.leb_gt; exact Hlen).
  change (negb true) with false. cbv beta iota zeta.
  rewrite (scan_stops_at is_space m SP) by (exact Hm || reflexivity).
  rewrite char_at_app, Ascii.eqb_refl. change (negb true) with false. cbv beta iota zeta.
  rewrite store_app, advance_app, (cstring_app_nul is_space) by exact Hm.
  rewrite (scan_stops_at is_space t SP) by (exact Ht || reflexivity).
  assert (Hq : char_at (m +:+ String NUL (t +:+ String SP rest))
                 (S (String.length m) + String.length t) = SP).
  { rewrite <- char_at_advance, advance_app. apply char_at_app. }
  rewrite Hq, Ascii.eqb_refl. change (negb true) with false. cbv beta iota zeta.
  rewrite store_app_r, store_app.
  change (METHOD_SIZE - 1)%nat with 15%nat. change (URL_SIZE - 1)%nat with 1023%nat.
  do 2 f_equal. f_equal.
  assert (Hu : char_at (m +:+ String NUL (t +:+ String NUL rest)) (S (String.length m))
               = char_at (t +:+ String NUL rest) 0).
  { rewrite <- (Nat.add_0_r (S (String.length m))), <- char_at_advance.
    now rewrite advance_app. }
  rewrite Hu.
  destruct t as [|c t]; rewrite ?append_cons, ?append_nil.
  - simpl char_at. change (Ascii.eqb NUL "/") with false. cbv iota.
    rewrite advance_app. reflexivity.
  - simpl char_at. destruct (Ascii.eqb c "/") eqn:Hc.
    + apply Ascii.eqb_eq in Hc. subst c. simpl strip_slash.
      replace (S (S (String.length m))) with (S (String.length m) + 1)%nat by lia.
      rewrite advance_add, advance_app. simpl advance.
      rewrite (cstring_app_nul is_space t rest); [reflexivity|].
      unfold passes in *. simpl in Ht. exact Ht.
    + replace (strip_slash (String c t)) with (String c t).
      2: { unfold strip_slash. destruct c as [[] [] [] [] [] [] [] []]; try reflexivity.
           discriminate Hc. }
      rewrite advance_app.
      now rewrite <- append_cons, (cstring_app_nul is_space (String c t) rest Ht).
Qed.

Lemma httpd_parse_shapes (len : Z) (error : string) :
  0 < len ->
  (forall m tail,
      passes is_space m = true -> ends_here tail ->
      Httpd.parse_http true (m +:+ tail) len error
      = (None, m +:+ tail, "parse_http() NOSPACE error" +:+ String LF EmptyString)) /\
  (forall m t tail,
      passes is_space m = true -> passes is_space t = true -> ends_here tail ->
      Httpd.parse_http true (m +:+ String SP (t +:+ tail)) len error
      = (None, m +:+ String NUL (t +:+ tail),
         "parse_http() 2NDNOSPACE error" +:+ String LF EmptyString)) /\
  (forall m t rest,
      passes is_space m = true -> passes is_space t = true ->
      Httpd.parse_http true (m +:+ String SP (t +:+ String SP rest)) len error
      = (Some {| method := take_bytes 15 m; url := take_bytes 1023 (strip_slash t) |},
         m +:+ String NUL (t +:+ String NUL rest), error)).
Proof.
  intros Hlen.
  assert (Hl : (len <=? 0) = false) by (apply Z.leb_gt; exact Hlen).
  split; [|split].
  - intros m tail Hm Htail. unfold Httpd.parse_http. rewrite Hl.
    change (negb true) with false. cbv beta iota zeta.
    destruct (scan_finds_no_space m tail Hm Htail) as [Hs Hc].
    rewrite Hs, Hc. reflexivity.
  - intros m t tail Hm Ht Htail. unfold Httpd.parse_http. rewrite Hl.
    change (negb true) with false. cbv beta iota zeta.
    rewrite (scan_stops_at is_space m SP) by (exact Hm || reflexivity).
    rewrite char_at_app, Ascii.eqb_refl. change (negb true) with false. cbv beta iota zeta.
    rewrite store_app, advance_app.
    destruct (scan_finds_no_space t tail Ht Htail) as [Hs Hc].
    rewrite Hs.
    assert (Hq : char_at (m +:+ String NUL (t +:+ tail))
                   (S (String.length m) + String.length t)
                 = char_at (t +:+ tail) (String.length t)).
    { now rewrite <- char_at_advance, advance_app. }
    rewrite Hq, Hc. reflexivity.
  - intros m t rest Hm Ht. now apply httpd_parse_two_tokens.
Qed.

(** X16.  The parser of [httpd.c] wants two spaces.  With none
    before the end of the buffer it fails and leaves "NOSPACE" in the
    global error text; with one only (as in a request line that ends
    at a line terminator) it fails with "2NDNOSPACE", having already
    overwritten the first space; with two it returns the method, cut
    to 15 bytes, and the target without its leading slash, cut to
    1023 bytes, and leaves the error text alone.  Line terminators do
    not end a token. *)
Theorem httpd_parse_http_needs_two_spaces (len : Z) (error : string) :
  0 < len ->
  (forall m tail,
      passes is_space m = true -> ends_here tail ->
      Httpd.parse_http true (m +:+ tail) len error
      = (None, m +:+ tail, "parse_http() NOSPACE error" +:+ String LF EmptyString)) /\
  (forall m t tail,
      passes is_space m = true -> passes is_space t = true -> ends_here tail ->
      Httpd.parse_http true (m +:+ String SP (t +:+ tail)) len error
      = (None, m +:+ String NUL (t +:+ tail),
         "parse_http() 2NDNOSPACE error" +:+ String LF EmptyString)) /\
  (forall m t rest,
      passes is_space m = true -> passes is_space t = true ->
      Httpd.parse_http true (m +:+ String SP (t +:+ String SP rest)) len error
      = (Some {| method := take_bytes 15 m; url := take_bytes 1023 (strip_slash t) |},
         m +:+ String NUL (t +:+ String NUL rest), error)).
Proof. exact (httpd_parse_shapes len error). Qed.

Lemma httpd_parse_http_needs_two_spaces_witness :
  Httpd.parse_http true ("GET" +:+ String SP (("/" +:+ CRLF) +:+ EmptyString)) 7 EmptyString
  = (None, "GET" +:+ String NUL (("/" +:+ CRLF) +:+ EmptyString),
     "parse_http() 2NDNOSPACE error" +:+ String LF EmptyString).
Proof.
  apply (proj1 (proj2 (httpd_parse_http_needs_two_spaces 7 EmptyString ltac:(lia)))
           "GET" ("/" +:+ CRLF) EmptyString); reflexivity || exact I.
Defined.

(** ** Its keep-alive loop *)

Lemma tolower_space c : tolower c = SP -> c = SP.
Proof.
  destruct c as [[] [] [] [] [] [] [] []]; vm_compute; intros H;
    first [reflexivity | discriminate H].
Qed.

Lemma prefix_ci_space needle hay :
  prefix_ci needle hay = true -> has_space needle = true -> has_space hay = true.
Proof.
  unfold has_space. revert hay.
  induction needle as [|x n IH]; intros [|y h] Hp Hn; simpl in *; try discriminate.
  apply andb_prop in Hp as [Hxy Hp]. apply Ascii.eqb_eq in Hxy.
  unfold is_space at 1. unfold is_space at 1 in Hn.
  destruct (Ascii.eqb x SP) eqn:Hx; simpl in Hn.
  - apply Ascii.eqb_eq in Hx. subst x.
    assert (y = SP) by (apply tolower_space; now rewrite <- Hxy). subst y. reflexivity.
  - destruct (Ascii.eqb y SP); simpl; [reflexivity | now apply IH].
Qed.

Lemma strcasestr_no_space hay needle :
  has_space needle = true -> has_space hay = false -> strcasestr hay needle = false.
Proof.
  intros Hn. induction hay as [|c h IH]; intros Hh; simpl.
  - destruct (prefix_ci needle EmptyString) eqn:Hp; [|reflexivity].
    apply prefix_ci_space in Hp; [discriminate Hp | exact Hn].
  - destruct (prefix_ci needle (String c h)) eqn:Hp.
    + apply prefix_ci_space in Hp; [congruence | exact Hn].
    + simpl. apply IH. unfold has_space in *. simpl in Hh.
      destruct (is_space c); simpl in Hh; [discriminate Hh | exact Hh].
Qed.

Lemma passes_no_space m : passes is_space m = true -> has_space m = false.
Proof.
  unfold passes, has_space. induction m as [|c m IH]; simpl; [reflexivity|].
  intros H. apply andb_prop in H as [Hc Hm].
  apply negb_true_iff, orb_false_iff in Hc as [_ Hs]. rewrite Hs. simpl. now apply IH.
Qed.

(** After a successful parse the buffer, read as a C string, is the
    method token alone. *)
Lemma httpd_parse_leaves_method alloc str len error req buf error' :
  Httpd.parse_http alloc str len error = (Some req, buf, error') ->
  has_space (cstring buf) = false.
Proof.
  intros Hp.
  destruct (Z.leb_spec len 0) as [Hle|Hlt].
  { unfold Httpd.parse_http in Hp. apply Z.leb_le in Hle. rewrite Hle in Hp.
    discriminate Hp. }
  destruct alloc.
  2: { unfold Httpd.parse_http in Hp.
       replace (len <=? 0) with false in Hp by (symmetry; apply Z.leb_gt; exact Hlt).
       discriminate Hp. }
  destruct (httpd_parse_shapes len error Hlt) as (H1 & H2 & H3).
  destruct (scan_split is_space str) as (Hs & Hm & Hstop).
  set (m := take_bytes (scan is_space str) str) in *.
  destruct (advance str (scan is_space str)) as [|c r1] eqn:Hadv.
  { rewrite Hs, (H1 m EmptyString Hm I) in Hp. discriminate Hp. }
  simpl in Hstop. destruct (Ascii.eqb c NUL) eqn:Hn.
  { apply Ascii.eqb_eq in Hn. subst c.
    rewrite Hs, (H1 m (String NUL r1) Hm eq_refl) in Hp. discriminate Hp. }
  simpl in Hstop. apply Ascii.eqb_eq in Hstop. subst c.
  destruct (scan_split is_space r1) as (Hs2 & Ht & Hstop2).
  set (t := take_bytes (scan is_space r1) r1) in *.
  destruct (advance r1 (scan is_space r1)) as [|c r2] eqn:Hadv2.
  { rewrite Hs, Hs2, (H2 m t EmptyString Hm Ht I) in Hp. discriminate Hp. }
  simpl in Hstop2. destruct (Ascii.eqb c NUL) eqn:Hn2.
  { apply Ascii.eqb_eq in Hn2. subst c.
    rewrite Hs, Hs2, (H2 m t (String NUL r2) Hm Ht eq_refl) in Hp. discriminate Hp. }
  simpl in Hstop2. apply Ascii.eqb_eq in Hstop2. subst c.
  rewrite Hs, Hs2, (H3 m t r2 Hm Ht) in Hp. injection Hp as _ <- _.
  rewrite (cstring_app_nul is_space) by exact Hm. now apply passes_no_space.
Qed.

Lemma grows_refl P w : grows P w w.
Proof. exists []. now rewrite app_nil_r. Qed.

Lemma grows_trans P w1 w2 w3 : grows P w1 w2 -> grows P w2 w3 -> grows P w1 w3.
Proof.
  intros (d1 & H1 & F1) (d2 & H2 & F2). exists (d1 ++ d2)%list.
  rewrite H2, H1, app_assoc. split; [reflexivity | now apply Forall_app].
Qed.

Lemma grows_emit (P : event -> Prop) e w : P e -> grows P w (emit e w).
Proof. intros He. exists [e]. split; [apply trace_emit | now constructor]. Qed.

Lemma grows_impl (P Q : event -> Prop) w w' :
  (forall e, P e -> Q e) -> grows P w w' -> grows Q w w'.
Proof.
  intros HPQ (d & H & F). exists d. split; [exact H|]. eapply Forall_impl; eauto.
Qed.

Ltac grow :=
  repeat first
    [ apply grows_refl
    | (eapply grows_trans; [|apply grows_emit; exact I]) ].

Lemma httpd_response_keep_alive c code status type body w :
  In (Httpd.header_text code status type (strlen body) "keep-alive") keep_alive_replies ->
  In body keep_alive_replies ->
  0 < strlen body ->
  0 < strlen (Httpd.header_text code status type (strlen body) "keep-alive") < 1024 ->
  grows (keep_alive_event c) w
    (Httpd.http_send_response c code status (Some type) (Some body) 1 w).
Proof.
  intros Hh Hb Hbody Hfit. unfold Httpd.http_send_response, snprintf. simpl default.
  change (1 =? 0) with false. cbv iota.
  set (h := Httpd.header_text code status type (strlen body) "keep-alive") in *.
  rewrite to_int32_small by (clear -Hfit; lia).
  rewrite take_bytes_all by (clear -Hfit; unfold strlen in Hfit; lia).
  replace (0 <? strlen h) with true by (symmetry; apply Z.ltb_lt; lia).
  replace (0 <? strlen body) with true by (symmetry; apply Z.ltb_lt; lia).
  eapply grows_trans; [|apply grows_emit; simpl; auto].
  eapply grows_trans; [|apply grows_emit; simpl; auto].
  apply grows_emit. exact I.
Qed.

Lemma httpd_respond_keep_alive c req w :
  grows (keep_alive_event c) w (Httpd.respond c req 1 w).
Proof.
  unfold Httpd.respond.
  destruct (strcasecmp_eq (method req) "GET");
    [destruct (strcmp_eq (url req) "index.html" || strcmp_eq (url req) EmptyString);
       [|destruct (strcmp_eq (url req) "data.json")]|];
    apply httpd_response_keep_alive;
    try (vm_compute; tauto); try (vm_compute; split; reflexivity); reflexivity.
Qed.

Lemma advance_length s n : String.length (advance s n) = (String.length s - n)%nat.
Proof.
  revert s. induction n as [|n IH]; intros s; simpl; [lia|].
  destruct s; simpl; [reflexivity | apply IH].
Qed.

(** One [read] of at least one byte leaves less to read. *)
Lemma sys_read_consumes fd count input w :
  0 < count -> 0 < bytes_read (fst (fst (sys_read fd count input w))) ->
  (Httpd.weight (snd (fst (sys_read fd count input w))) < Httpd.weight input)%nat.
Proof.
  intros Hcount. unfold sys_read.
  destruct input as [|[data|e] rest]; simpl; try lia.
  intros Hpos.
  destruct (advance data (Z.to_nat count)) as [|c l] eqn:Hadv; simpl; [lia|].
  pose proof (advance_length data (Z.to_nat count)) as Hl. rewrite Hadv in Hl.
  simpl in Hl. lia.
Qed.

Lemma httpd_serve_one_spec alloc c input error w :
  let '(k, input', error', w') := Httpd.serve_one alloc c input error w in
  grows (keep_alive_event c) w w' /\
  match k with
  | None => True
  | Some keep_alive => keep_alive = 1 /\ (Httpd.weight input' < Httpd.weight input)%nat
  end.
Proof.
  unfold Httpd.serve_one, Httpd.cli_read.
  pose proof (sys_read_consumes c (Httpd.REQ_BUFSIZE - 1) input
                (printf ("Inside keep-alive while loop!" +:+ String LF EmptyString) w)
                ltac:(reflexivity)) as Hw.
  destruct (sys_read c (Httpd.REQ_BUFSIZE - 1) input _) as [[r input'] w1] eqn:Hread.
  assert (H1 : grows (keep_alive_event c) w w1).
  { unfold sys_read in Hread.
    destruct input as [|[data|e] rest]; injection Hread as _ _ <-; grow. }
  simpl in Hw.
  destruct (bytes_read r =? 0) eqn:Hz.
  { split; [|exact I]. eapply grows_trans; [exact H1 | grow]. }
  destruct (bytes_read r <? 0) eqn:Hn.
  { destruct ((read_errno r =? EAGAIN) || (read_errno r =? EWOULDBLOCK));
      (split; [|exact I]); (eapply grows_trans; [exact H1 | grow]). }
  assert (Hpos : 0 < bytes_read r).
  { apply Z.eqb_neq in Hz. apply Z.ltb_ge in Hn. lia. }
  destruct (Httpd.parse_http alloc (buffer r) _ error) as [[req p] error'] eqn:Hp.
  destruct req as [req|].
  - apply httpd_parse_leaves_method in Hp.
    rewrite (strcasestr_no_space _ "Connection: close") by (reflexivity || exact Hp).
    split; [|split; [reflexivity | now apply Hw]].
    eapply grows_trans; [exact H1|].
    eapply grows_trans; [apply httpd_respond_keep_alive | grow].
  - split; [|exact I]. eapply grows_trans; [exact H1 | grow].
Qed.

Lemma httpd_serve_loop_spec alloc c fuel input error w :
  (Httpd.weight input < fuel)%nat ->
  exists w', Httpd.serve_loop fuel alloc c input error w = Some w' /\
             grows (keep_alive_event c) w w'.
Proof.
  revert input error w. induction fuel as [|fuel IH]; intros input error w Hfuel; [lia|].
  simpl. pose proof (httpd_serve_one_spec alloc c input error w) as Hone.
  destruct (Httpd.serve_one alloc c input error w) as [[[k input'] error'] w1].
  destruct Hone as [Hg Hk]. destruct k as [keep_alive|]; [|now exists w1].
  destruct Hk as [-> Hlt]. change (1 =? 0) with false. cbv iota.
  destruct (IH input' error' w1 ltac:(lia)) as (w' & Hloop & Hg').
  exists w'. split; [exact Hloop | eapply grows_trans; eassumption].
Qed.

Lemma until_send_no_close k tr c :
  Forall not_close tr ->
  until_send k (tr ++ [EvClose c]) = (tr ++ [EvClose c])%list \/
  Forall not_close (until_send k (tr ++ [EvClose c])).
Proof.
  intros Htr. revert k. induction Htr as [|e tr He _ IH]; intros k; [now left|].
  assert (Hcons : forall k',
             until_send k' (tr ++ [EvClose c]) = (tr ++ [EvClose c])%list \/
             Forall not_close (until_send k' (tr ++ [EvClose c])) ->
             e :: until_send k' (tr ++ [EvClose c]) = (e :: tr ++ [EvClose c])%list \/
             Forall not_close (e :: until_send k' (tr ++ [EvClose c]))).
  { intros k' [H|H]; [left; now rewrite H | right; now constructor]. }
  destruct e; try (apply Hcons, IH).
  destruct k as [|k]; [right; now repeat constructor | apply Hcons, IH].
Qed.

(** X17.  Followed to its return, [cli_conn] of [httpd.c] ends on
    every finite input, and [close(c)] is its last call and its only
    [close].  SIGPIPE is left at its default, so a [send] to a peer
    that has reset ends the process at that call: whichever [send]
    that is, the process has closed nothing by then. *)
Theorem httpd_cli_conn_closes_once
    (alloc : bool) (c : Z) (input : list read_outcome) (error : string) (w : world) :
  exists delta,
    (exists w0,
        Httpd.cli_conn alloc c input error w = Some (sys_close c w0) /\
        trace w0 = (trace w ++ delta)%list) /\
    Forall not_close delta /\
    forall k,
      until_send k (delta ++ [EvClose c]) = (delta ++ [EvClose c])%list \/
      Forall not_close (until_send k (delta ++ [EvClose c])).
Proof.
  unfold Httpd.cli_conn.
  destruct (httpd_serve_loop_spec alloc c (S (Httpd.weight input)) input error w
              ltac:(lia)) as (w0 & -> & Hg).
  assert (Hnc : grows not_close w w0).
  { eapply grows_impl; [|exact Hg]. intros [] H; simpl in *; auto. }
  destruct Hnc as (delta & Htr & Hdelta).
  exists delta. split; [now exists w0|]. split; [exact Hdelta|].
  intros k. now apply until_send_no_close.
Qed.

(** X18.  The keep-alive loop of [httpd.c] never honours a
    [Connection: close] header: it looks for the header after the
    parser has cut the buffer at the first space, so [keep_alive]
    stays 1 after every request that parses, every response carries
    [Connection: keep-alive], whole, and the loop ends only when a
    [read] fails, times out or meets the end of the stream, or a
    request does not parse. *)
Theorem httpd_connection_close_ignored (alloc : bool) (c : Z) (error : string) (w : world) :
  (forall input k input' error' w',
      Httpd.serve_one alloc c input error w = (Some k, input', error', w') -> k = 1) /\
  (forall input,
      exists w0,
        Httpd.cli_conn alloc c input error w = Some (sys_close c w0) /\
        grows (keep_alive_event c) w w0).
Proof.
  split.
  - intros input k input' error' w' Hone.
    pose proof (httpd_serve_one_spec alloc c input error w) as Hspec.
    rewrite Hone in Hspec. now destruct Hspec as [_ [-> _]].
  - intros input. unfold Httpd.cli_conn.
    destruct (httpd_serve_loop_spec alloc c (S (Httpd.weight input)) input error w
                ltac:(lia)) as (w0 & -> & Hg).
    now exists w0.
Qed.

Lemma httpd_connection_close_ignored_witness :
  fst (fst (fst
    (Httpd.serve_one true 5
       [ReadOk ("GET / HTTP/1.1" +:+ CRLF +:+ "Connection: close" +:+ CRLF +:+ CRLF)]
       EmptyString initial))) = Some 1.
Proof.
  destruct (Httpd.serve_one true 5
       [ReadOk ("GET / HTTP/1.1" +:+ CRLF +:+ "Connection: close" +:+ CRLF +:+ CRLF)]
       EmptyString initial) as [[[k input'] error'] w'] eqn:Hone.
  destruct k as [k|]; [|vm_compute in Hone; discriminate Hone].
  simpl. f_equal.
  exact (proj1 (httpd_connection_close_ignored true 5 EmptyString initial) _ _ _ _ _ Hone).
Defined.

(** X19.  A request that the parser of [httpd.c] refuses gets no
    response at all: the reason goes to the standard error and the
    connection is closed, whatever else the client has sent. *)
Theorem httpd_unparsed_request_not_answered
    (alloc : bool) (c : Z) (data : string) (rest : list read_outcome)
    (error : string) (w : world) :
  0 < strlen data <= Httpd.REQ_BUFSIZE - 1 ->
  fst (fst (Httpd.parse_http alloc data (to_int32 (strlen (cstring data))) error)) = None ->
  exists msg w',
    Httpd.cli_conn alloc c (ReadOk data :: rest) error w = Some w' /\
    trace w'
    = (trace w ++
       [ EvStdout ("Inside keep-alive while loop!" +:+ String LF EmptyString);
         EvRead c (Httpd.REQ_BUFSIZE - 1) (strlen data) 0;
         EvStderr msg; EvClose c ])%list.
Proof.
  intros Hlen Hparse. unfold Httpd.cli_conn. cbn [Httpd.serve_loop].
  unfold Httpd.serve_one, Httpd.cli_read, sys_read.
  rewrite take_bytes_all by (unfold strlen, Httpd.REQ_BUFSIZE in *; lia).
  cbv beta iota zeta. cbn [bytes_read buffer read_errno].
  replace (strlen data =? 0) with false by (symmetry; apply Z.eqb_neq; lia).
  replace (strlen data <? 0) with false by (symmetry; apply Z.ltb_ge; lia).
  destruct (Httpd.parse_http alloc data _ error) as [[req p] error'].
  simpl in Hparse. subst req.
  eexists. eexists. split; [reflexivity|].
  unfold sys_close, fprintf_stderr, printf, emit. simpl trace.
  rewrite <- !app_assoc. reflexivity.
Qed.

Lemma httpd_unparsed_request_not_answered_witness :
  exists msg w',
    Httpd.cli_conn true 5 (ReadOk ("GET /" +:+ CRLF) :: []) EmptyString initial = Some w' /\
    trace w'
    = (trace initial ++
       [ EvStdout ("Inside keep-alive while loop!" +:+ String LF EmptyString);
         EvRead 5 (Httpd.REQ_BUFSIZE - 1) (strlen ("GET /" +:+ CRLF)) 0;
         EvStderr msg; EvClose 5 ])%list.
Proof.
  apply (httpd_unparsed_request_not_answered true 5 ("GET /" +:+ CRLF) [] EmptyString initial).
  - vm_compute. split; [reflexivity | discriminate].
  - reflexivity.
Defined.

Lemma tolower_to_upper c : tolower (to_upper_byte c) = tolower c.
Proof. destruct c as [[] [] [] [] [] [] [] []]; reflexivity. Qed.

Lemma to_upper_tolower c : to_upper_byte (tolower c) = to_upper_byte c.
Proof. destruct c as [[] [] [] [] [] [] [] []]; reflexivity. Qed.

Lemma strcasecmp_eq_upper a b :
  strcasecmp_eq a b = true <-> to_upper a = to_upper b.
Proof.
  revert b. induction a as [|x a IH]; intros [|y b]; simpl; split;
    try discriminate; try reflexivity.
  - intros H. apply andb_prop in H as [Hxy Hab]. apply Ascii.eqb_eq in Hxy.
    apply IH in Hab. rewrite Hab. f_equal.
    now rewrite <- (to_upper_tolower x), Hxy, to_upper_tolower.
  - intros H. injection H as Hxy Hab. apply IH in Hab. rewrite Hab, andb_true_r.
    apply Ascii.eqb_eq. now rewrite <- (tolower_to_upper x), Hxy, tolower_to_upper.
Qed.

(** X20.  In [httpd.c] the method is compared without regard to
    letter case: a method that is GET in any case gets the response
    that GET gets, and every other method gets 405. *)
Theorem httpd_method_any_case (c : Z) (m u : string) (keep_alive : Z) (w : world) :
  (to_upper m = "GET" ->
   Httpd.respond c {| method := m; url := u |} keep_alive w
   = Httpd.respond c {| method := "GET"; url := u |} keep_alive w) /\
  (to_upper m <> "GET" ->
   Httpd.respond c {| method := m; url := u |} keep_alive w
   = Httpd.http_send_response c 405 "Method Not Allowed" (Some "text/plain")
       (Some "Only GET supported") keep_alive w).
Proof.
  unfold Httpd.respond. cbn [method url]. split; intros Hm.
  - replace (strcasecmp_eq m "GET") with true; [reflexivity|].
    symmetry. now apply strcasecmp_eq_upper.
  - replace (strcasecmp_eq m "GET") with false; [reflexivity|].
    symmetry. apply not_true_is_false. intros H. now apply strcasecmp_eq_upper in H.
Qed.

Lemma httpd_method_any_case_witness :
  Httpd.respond 5 {| method := "get"; url := "index.html" |} 1 initial
  = Httpd.respond 5 {| method := "GET"; url := "index.html" |} 1 initial.
Proof.
  apply (proj1 (httpd_method_any_case 5 "get" "index.html" 1 initial)). reflexivity.
Defined.

(** * [http-server.c] *)

(** ** Reading the headers *)

Lemma take_advance n s : take_bytes n s +:+ advance s n = s.
Proof.
  revert s. induction n as [|n IH]; intros [|c s]; simpl; try reflexivity.
  rewrite append_cons. now rewrite IH.
Qed.

(** What one [read] does to the bytes to come. *)
Lemma sys_read_bytes fd count input w :
  0 < count -> input <> [] ->
  let '(r, input', w') := sys_read fd count input w in
  w' = emit (EvRead fd count (bytes_read r) (read_errno r)) w /\
  (Httpd.weight input' < Httpd.weight input)%nat /\
  buffer r +:+ bytes_of input' = bytes_of input /\
  (bytes_read r = -1 /\ buffer r = EmptyString \/
   bytes_read r = strlen (buffer r) /\ strlen (buffer r) <= count).
Proof.
  intros Hcount Hne. unfold sys_read.
  destruct input as [|[data|e] rest]; [contradiction| |].
  - cbn [bytes_read buffer read_errno].
    split; [reflexivity|]. split; [|split].
    + destruct (advance data (Z.to_nat count)) as [|x l] eqn:Hadv; simpl; [lia|].
      pose proof (advance_length data (Z.to_nat count)) as Hl. rewrite Hadv in Hl.
      simpl in Hl. lia.
    + simpl bytes_of. rewrite <- (take_advance (Z.to_nat count) data) at 3.
      rewrite append_assoc_s. f_equal.
      now destruct (advance data (Z.to_nat count)).
    + right. split; [reflexivity|]. unfold strlen.
      pose proof (take_bytes_length (Z.to_nat count) data). lia.
  - cbn [bytes_read buffer read_errno]. simpl.
    split; [reflexivity|]. split; [lia|]. split; [reflexivity|]. now left.
Qed.

Lemma read_loop_spec c fuel buf input w :
  (Httpd.weight input < fuel)%nat -> strlen buf <= HttpServer.REQ_BUFSIZE - 1 ->
  match HttpServer.read_loop fuel c buf input w with
  | HttpServer.OutOfFuel => False
  | HttpServer.Blocked w' => grows recv_event w w'
  | HttpServer.Returned None _ w' => grows recv_event w w'
  | HttpServer.Returned (Some buf') input' w' =>
      grows (fun e => match e with EvRead _ _ _ _ => True | _ => False end) w w' /\
      strlen buf' <= HttpServer.REQ_BUFSIZE - 1 /\
      buf' +:+ bytes_of input' = buf +:+ bytes_of input
  end.
Proof.
  revert buf input w.
  induction fuel as [|fuel IH]; intros buf input w Hfuel Hbuf; [lia|].
  cbn [HttpServer.read_loop].
  destruct (negb (strlen buf <? HttpServer.REQ_BUFSIZE - 1)) eqn:Hfull.
  { split; [apply grows_refl | now split]. }
  apply negb_false_iff, Z.ltb_lt in Hfull.
  destruct input as [|x input0]; [apply grows_refl|].
  set (input := x :: input0) in *.
  pose proof (sys_read_bytes c (HttpServer.REQ_BUFSIZE - 1 - strlen buf) input w
                ltac:(lia) ltac:(discriminate)) as Hread.
  destruct (sys_read c _ input w) as [[r input'] w1].
  destruct Hread as (Hw1 & Hlt & Hbytes & Hr).
  assert (Hg : forall P : event -> Prop,
             (forall a b c0 d, P (EvRead a b c0 d)) -> grows P w w1).
  { intros P HP. subst w1. apply grows_emit. apply HP. }
  destruct (bytes_read r <? 0) eqn:Hneg.
  - destruct Hr as [[Hm1 Hempty]|[Hlen _]];
      [|apply Z.ltb_lt in Hneg; pose proof (strlen_nonneg (buffer r)); lia].
    rewrite Hempty, append_nil in Hbytes.
    destruct (read_errno r =? HttpServer.EINTR).
    + specialize (IH buf input' w1 ltac:(lia) Hbuf).
      destruct (HttpServer.read_loop fuel c buf input' w1) as [[buf'|] i' w'| w'|];
        try contradiction.
      * destruct IH as (IHg & IHl & IHb). split; [|split; [exact IHl | congruence]].
        eapply grows_trans; [apply Hg; auto | exact IHg].
      * eapply grows_trans; [apply Hg; intros; exact I | exact IH].
      * eapply grows_trans; [apply Hg; intros; exact I | exact IH].
    + eapply grows_trans; [apply Hg; intros; exact I | now apply grows_emit].
  - destruct Hr as [[Hm1 _]|[Hlen Hcount]]; [rewrite Hm1 in Hneg; discriminate Hneg|].
    destruct (bytes_read r =? 0) eqn:Hz.
    + apply Z.eqb_eq in Hz. rewrite Hlen in Hz.
      assert (Hb : buffer r = EmptyString).
      { destruct (buffer r); [reflexivity | unfold strlen in Hz; simpl in Hz; lia]. }
      rewrite Hb, append_nil in Hbytes.
      split; [apply Hg; auto | split; [exact Hbuf | congruence]].
    + assert (Hbuf' : strlen (buf +:+ buffer r) <= HttpServer.REQ_BUFSIZE - 1)
        by (rewrite strlen_append; lia).
      assert (Hb' : (buf +:+ buffer r) +:+ bytes_of input' = buf +:+ bytes_of input)
        by (rewrite append_assoc_s; congruence).
      destruct (strstr (cstring (buf +:+ buffer r)) (CRLF +:+ CRLF)).
      * split; [apply Hg; auto | now split].
      * specialize (IH (buf +:+ buffer r) input' w1 ltac:(lia) Hbuf').
        destruct (HttpServer.read_loop fuel c (buf +:+ buffer r) input' w1)
          as [[buf'|] i' w'| w'|]; try contradiction.
        -- destruct IH as (IHg & IHl & IHb). split; [|split; [exact IHl | congruence]].
           eapply grows_trans; [apply Hg; auto | exact IHg].
        -- eapply grows_trans; [apply Hg; intros; exact I | exact IH].
        -- eapply grows_trans; [apply Hg; intros; exact I | exact IH].
Qed.

(** X21.  [read_request_headers] never runs out of turns; the buffer
    it returns holds at most [REQ_BUFSIZE - 1] bytes, and these are
    the first bytes the client sent, in order: together with what is
    still unread they are all that was to come.  Until it returns it
    does nothing but [recv]. *)
Theorem read_request_headers_lossless
    (alloc : bool) (c : Z) (input : list read_outcome) (w : world) :
  match HttpServer.read_request_headers alloc c input w with
  | HttpServer.OutOfFuel => False
  | HttpServer.Returned (Some buf) input' w' =>
      strlen buf <= HttpServer.REQ_BUFSIZE - 1 /\
      buf +:+ bytes_of input' = bytes_of input /\
      grows is_read w w'
  | _ => True
  end.
Proof.
  unfold HttpServer.read_request_headers. destruct alloc; [|exact I]. cbn [negb].
  pose proof (read_loop_spec c (S (Httpd.weight input)) EmptyString input w
                ltac:(lia) ltac:(vm_compute; discriminate)) as H.
  destruct (HttpServer.read_loop _ c EmptyString input w) as [[buf|] i' w'| w'|]; auto.
  destruct H as (Hg & Hl & Hb). split; [exact Hl | split; [exact Hb|]].
  eapply grows_impl; [|exact Hg]. now intros [].
Qed.

(** Any number of turns beyond the bytes to come gives the same. *)
Lemma read_loop_fuel c f1 f2 buf input w :
  (Httpd.weight input < f1)%nat -> (Httpd.weight input < f2)%nat ->
  HttpServer.read_loop f1 c buf input w = HttpServer.read_loop f2 c buf input w.
Proof.
  revert f2 buf input w.
  induction f1 as [|f1 IH]; intros [|f2] buf input w H1 H2; try lia.
  cbn [HttpServer.read_loop].
  destruct (negb (strlen buf <? HttpServer.REQ_BUFSIZE - 1)) eqn:Hfull; [reflexivity|].
  apply negb_false_iff, Z.ltb_lt in Hfull.
  destruct input as [|x input0]; [reflexivity|].
  set (input := x :: input0) in *.
  pose proof (sys_read_bytes c (HttpServer.REQ_BUFSIZE - 1 - strlen buf) input w
                ltac:(lia) ltac:(discriminate)) as Hread.
  destruct (sys_read c _ input w) as [[r input'] w1].
  destruct Hread as (_ & Hlt & _ & _).
  destruct (bytes_read r <? 0).
  - destruct (read_errno r =? HttpServer.EINTR); [apply IH; lia | reflexivity].
  - destruct (bytes_read r =? 0); [reflexivity|].
    destruct (strstr (cstring (buf +:+ buffer r)) (CRLF +:+ CRLF)); [reflexivity|].
    apply IH; lia.
Qed.

(** X22.  A request that arrives in two pieces is put together: when
    the first piece holds no blank line and the two together do (and
    fit the buffer), [read_request_headers] returns both pieces
    joined, after exactly two [recv] calls. *)
Theorem read_request_headers_joins_chunks
    (c : Z) (a b : string) (rest : list read_outcome) (w : world) :
  0 < strlen a -> 0 < strlen b ->
  strlen (a +:+ b) <= HttpServer.REQ_BUFSIZE - 1 ->
  strstr (cstring a) (CRLF +:+ CRLF) = None ->
  strstr (cstring (a +:+ b)) (CRLF +:+ CRLF) <> None ->
  HttpServer.read_request_headers true c (ReadOk a :: ReadOk b :: rest) w
  = HttpServer.Returned (Some (a +:+ b)) rest
      (emit (EvRead c (HttpServer.REQ_BUFSIZE - 1 - strlen a) (strlen b) 0)
         (emit (EvRead c (HttpServer.REQ_BUFSIZE - 1) (strlen a) 0) w)).
Proof.
  intros Ha Hb Hfit Hno Hyes. rewrite strlen_append in Hfit.
  unfold HttpServer.read_request_headers. cbn [negb Httpd.weight].
  cbn [HttpServer.read_loop].
  change (strlen EmptyString) with 0. change (negb (0 <? HttpServer.REQ_BUFSIZE - 1)) with false.
  cbv iota. unfold sys_read at 1.
  rewrite Z.sub_0_r.
  rewrite take_bytes_all by (unfold strlen, HttpServer.REQ_BUFSIZE in *; lia).
  replace (advance a (Z.to_nat (HttpServer.REQ_BUFSIZE - 1))) with EmptyString.
  2: { symmetry. pose proof (advance_length a (Z.to_nat (HttpServer.REQ_BUFSIZE - 1))) as Hl.
       destruct (advance a _); [reflexivity|].
       unfold strlen, HttpServer.REQ_BUFSIZE in *. simpl in Hl. lia. }
  cbv beta iota zeta. cbn [bytes_read buffer read_errno].
  replace (strlen a <? 0) with false by (symmetry; apply Z.ltb_ge; lia).
  replace (strlen a =? 0) with false by (symmetry; apply Z.eqb_neq; lia).
  rewrite append_nil, Hno.
  cbn [HttpServer.read_loop].
  replace (negb (strlen a <? HttpServer.REQ_BUFSIZE - 1)) with false
    by (symmetry; apply negb_false_iff, Z.ltb_lt; lia).
  cbv iota. unfold sys_read.
  rewrite take_bytes_all by (unfold strlen, HttpServer.REQ_BUFSIZE in *; lia).
  replace (advance b (Z.to_nat (HttpServer.REQ_BUFSIZE - 1 - strlen a))) with EmptyString.
  2: { symmetry.
       pose proof (advance_length b (Z.to_nat (HttpServer.REQ_BUFSIZE - 1 - strlen a))) as Hl.
       destruct (advance b _); [reflexivity|].
       unfold strlen, HttpServer.REQ_BUFSIZE in *. simpl in Hl. lia. }
  cbv beta iota zeta. cbn [bytes_read buffer read_errno].
  replace (strlen b <? 0) with false by (symmetry; apply Z.ltb_ge; lia).
  replace (strlen b =? 0) with false by (symmetry; apply Z.eqb_neq; lia).
  destruct (strstr (cstring (a +:+ b)) (CRLF +:+ CRLF)); [reflexivity | contradiction].
Qed.

Lemma read_request_headers_joins_chunks_witness :
  HttpServer.read_request_headers true 5
    (ReadOk ("GET / HTTP/1.1" +:+ CRLF) :: ReadOk CRLF :: []) initial
  = HttpServer.Returned (Some (("GET / HTTP/1.1" +:+ CRLF) +:+ CRLF)) []
      (emit (EvRead 5 (HttpServer.REQ_BUFSIZE - 1 - strlen ("GET / HTTP/1.1" +:+ CRLF))
               (strlen CRLF) 0)
         (emit (EvRead 5 (HttpServer.REQ_BUFSIZE - 1) (strlen ("GET / HTTP/1.1" +:+ CRLF)) 0)
            initial)).
Proof.
  apply (read_request_headers_joins_chunks 5 ("GET / HTTP/1.1" +:+ CRLF) CRLF [] initial);
    vm_compute; first [reflexivity | discriminate].
Defined.

Lemma read_loop_error c fuel e input w :
  HttpServer.read_loop (S fuel) c EmptyString (ReadErr e :: input) w
  = if e =? HttpServer.EINTR
    then HttpServer.read_loop fuel c EmptyString input
           (emit (EvRead c (HttpServer.REQ_BUFSIZE - 1) (-1) e) w)
    else HttpServer.Returned None input
           (perror "recv" (emit (EvRead c (HttpServer.REQ_BUFSIZE - 1) (-1) e) w)).
Proof. reflexivity. Qed.

(** X23.  A [recv] interrupted by a signal is simply made again,
    while any other error makes [read_request_headers] give up with
    [NULL], whatever it had read. *)
Theorem read_request_headers_retries_eintr
    (c : Z) (e : Z) (input : list read_outcome) (w : world) :
  HttpServer.read_request_headers true c (ReadErr HttpServer.EINTR :: input) w
  = HttpServer.read_request_headers true c input
      (emit (EvRead c (HttpServer.REQ_BUFSIZE - 1) (-1) HttpServer.EINTR) w) /\
  (e <> HttpServer.EINTR ->
   HttpServer.read_request_headers true c (ReadErr e :: input) w
   = HttpServer.Returned None input
       (perror "recv" (emit (EvRead c (HttpServer.REQ_BUFSIZE - 1) (-1) e) w))).
Proof.
  unfold HttpServer.read_request_headers. cbn [negb Httpd.weight].
  rewrite !read_loop_error. split.
  - rewrite Z.eqb_refl. apply read_loop_fuel; lia.
  - intros He. apply Z.eqb_neq in He. now rewrite He.
Qed.

Lemma read_request_headers_retries_eintr_witness :
  HttpServer.read_request_headers true 5 (ReadErr 104 :: []) initial
  = HttpServer.Returned None []
      (perror "recv" (emit (EvRead 5 (HttpServer.REQ_BUFSIZE - 1) (-1) 104) initial)).
Proof.
  apply (proj2 (read_request_headers_retries_eintr 5 104 [] initial)).
  vm_compute. discriminate.
Defined.

(** ** Its one response *)

Lemma writes_of_grows (P : event -> Prop) w w' :
  (forall e, P e -> match e with EvWrite _ _ _ => False | _ => True end) ->
  grows P w w' -> writes_of (trace w') = writes_of (trace w).
Proof.
  intros HP (d & Htr & Hd). rewrite Htr, writes_of_app.
  replace (writes_of d) with (@nil event); [now rewrite app_nil_r|].
  symmetry. clear Htr. induction Hd as [|e d He _ IH]; [reflexivity|].
  apply HP in He. destruct e; simpl in *; auto; contradiction.
Qed.

(** X24.  [cli_conn] of [http-server.c] never runs out of turns.
    When it returns it has closed the client's socket exactly once,
    as its last act, and has sent either nothing (the read or the
    parse failed) or the one fixed response, a header announcing 48
    bytes and the 48-byte body, whatever the method and the target. *)
Theorem http_server_one_fixed_response
    (alloc_buf alloc_line alloc_req : bool) (fd : Z) (input : list read_outcome)
    (w : world) :
  match HttpServer.cli_conn alloc_buf alloc_line alloc_req fd input w with
  | HttpServer.OutOfFuel => False
  | HttpServer.Blocked w' => writes_of (trace w') = writes_of (trace w)
  | HttpServer.Returned _ _ w' =>
      exists w0,
        w' = sys_close fd w0 /\ grows not_close w w0 /\
        (writes_of (trace w0) = writes_of (trace w) \/
         writes_of (trace w0) = (writes_of (trace w) ++ fixed_response fd)%list)
  end.
Proof.
  unfold HttpServer.cli_conn, HttpServer.read_request_headers.
  destruct alloc_buf; cbn [negb].
  2: { eexists. split; [reflexivity|]. split; [now apply grows_emit|]. left.
       unfold fprintf_stderr. rewrite trace_emit, writes_of_app. simpl.
       now rewrite app_nil_r. }
  pose proof (read_loop_spec fd (S (Httpd.weight input)) EmptyString input w
                ltac:(lia) ltac:(vm_compute; discriminate)) as H.
  destruct (HttpServer.read_loop _ fd EmptyString input w) as [[buf|] i' w1| w1|];
    [| | |contradiction].
  - destruct H as (Hg & _ & _).
    assert (Hw1 : writes_of (trace w1) = writes_of (trace w))
      by (eapply writes_of_grows; [|exact Hg]; now intros []).
    assert (Hn1 : grows not_close w w1)
      by (eapply grows_impl; [|exact Hg]; now intros []).
    destruct (HttpServer.parse_http alloc_line alloc_req buf (strlen buf)) as [r|].
    + eexists. split; [reflexivity|]. split.
      * eapply grows_trans; [exact Hn1|]. unfold snprintf.
        repeat (eapply grows_trans; [|apply grows_emit; exact I]). apply grows_refl.
      * right. unfold snprintf, printf. rewrite !trace_emit, !writes_of_app, Hw1.
        simpl. rewrite !app_nil_r, <- app_assoc. reflexivity.
    + eexists. split; [reflexivity|]. split.
      * eapply grows_trans; [exact Hn1|].
        repeat (eapply grows_trans; [|apply grows_emit; exact I]). apply grows_refl.
      * left. unfold fprintf_stderr, printf. rewrite !trace_emit, !writes_of_app, Hw1.
        simpl. now rewrite !app_nil_r.
  - assert (Hw1 : writes_of (trace w1) = writes_of (trace w))
      by (eapply writes_of_grows; [|exact H]; now intros []).
    eexists. split; [reflexivity|]. split.
    + eapply grows_trans; [eapply grows_impl; [|exact H]; now intros []|].
      now apply grows_emit.
    + left. unfold fprintf_stderr. rewrite trace_emit, writes_of_app, Hw1. simpl.
      now rewrite app_nil_r.
  - eapply writes_of_grows; [|exact H]. now intros [].
Qed.

(** ** Its parser *)

Lemma strstr_crlf_line line rest :
  one_line line = true ->
  strstr (line +:+ CRLF +:+ rest) CRLF = Some (String.length line).
Proof.
  unfold one_line, passes. intros Hl.
  induction line as [|c line IH]; rewrite ?append_cons, ?append_nil.
  - reflexivity.
  - simpl in Hl. apply andb_prop in Hl as [Hc Hl].
    apply negb_true_iff, orb_false_iff in Hc as [_ Hc].
    cbn [strstr]. unfold CRLF at 1. cbn [starts_with].
    rewrite Ascii.eqb_sym, Hc. cbn [andb]. rewrite (IH Hl). reflexivity.
Qed.

Lemma skip_spaces_blanks ws s : blanks ws = true -> skip_spaces (ws +:+ s) = skip_spaces s.
Proof.
  unfold blanks. intros Hw.
  induction ws as [|c ws IH]; rewrite ?append_cons, ?append_nil; [reflexivity|].
  simpl in Hw. apply andb_prop in Hw as [Hc Hw]. simpl.
  replace (isspace c) with true; [now apply IH|].
  symmetry. apply orb_prop in Hc as [Hc|Hc]; apply Ascii.eqb_eq in Hc; now subst c.
Qed.

Lemma skip_spaces_token m s :
  token m = true -> m <> EmptyString -> skip_spaces (m +:+ s) = m +:+ s.
Proof.
  unfold token. intros Hm Hne. destruct m as [|c m]; [contradiction|].
  simpl in Hm. apply andb_prop in Hm as [Hc _].
  apply negb_true_iff, orb_false_iff in Hc as [Hc _].
  rewrite append_cons. simpl. now rewrite Hc.
Qed.

Lemma take_token_exact width m tail :
  token m = true -> (String.length m <= width)%nat ->
  match tail with
  | EmptyString => True
  | String c _ => isspace c || Ascii.eqb c NUL = true
  end ->
  HttpServer.take_token width (m +:+ tail) = m.
Proof.
  unfold token. revert width.
  induction m as [|c m IH]; intros width Hm Hw Htail; rewrite ?append_cons, ?append_nil.
  - destruct width, tail; simpl; try reflexivity. now rewrite Htail.
  - simpl in Hm, Hw. apply andb_prop in Hm as [Hc Hm]. apply negb_true_iff in Hc.
    destruct width as [|width]; [lia|]. simpl. rewrite Hc. f_equal.
    apply IH; [exact Hm | lia | exact Htail].
Qed.

Lemma scan_s_token width ws m tail :
  blanks ws = true -> token m = true -> m <> EmptyString ->
  (String.length m <= width)%nat ->
  match tail with
  | EmptyString => True
  | String c _ => isspace c || Ascii.eqb c NUL = true
  end ->
  HttpServer.scan_s width (ws +:+ m +:+ tail) = Some (m, tail).
Proof.
  intros Hws Hm Hne Hw Htail. unfold HttpServer.scan_s.
  rewrite skip_spaces_blanks, skip_spaces_token by assumption.
  rewrite take_token_exact by assumption.
  destruct m as [|c m]; [contradiction|]. cbv beta iota.
  now rewrite advance_app_all.
Qed.

Lemma scan_s_nothing width ws :
  blanks ws = true -> HttpServer.scan_s width ws = None.
Proof.
  intros Hws. unfold HttpServer.scan_s.
  rewrite <- (append_nil_r ws), skip_spaces_blanks by exact Hws.
  simpl. now destruct width.
Qed.

Lemma blank_is_space c : Ascii.eqb c SP || Ascii.eqb c HT = true -> isspace c = true.
Proof. intros H. apply orb_prop in H as [H|H]; apply Ascii.eqb_eq in H; now subst c. Qed.

Lemma line_tail_stops tail :
  line_tail tail = true ->
  match tail with
  | EmptyString => True
  | String c _ => isspace c || Ascii.eqb c NUL = true
  end.
Proof.
  destruct tail as [|c tail]; [auto|]. simpl. intros H.
  apply andb_prop in H as [H _]. now rewrite (blank_is_space c H).
Qed.

Lemma one_line_app a b : one_line a = true -> one_line b = true -> one_line (a +:+ b) = true.
Proof.
  unfold one_line, passes. intros Ha Hb.
  induction a as [|c a IH]; rewrite ?append_cons, ?append_nil; [exact Hb|].
  simpl in *. apply andb_prop in Ha as [Hc Ha]. now rewrite Hc, IH.
Qed.

Lemma blanks_one_line ws : blanks ws = true -> one_line ws = true.
Proof.
  unfold blanks, one_line, passes. induction ws as [|c ws IH]; simpl; [reflexivity|].
  intros H. apply andb_prop in H as [Hc H]. rewrite (IH H), andb_true_r.
  apply orb_prop in Hc as [Hc|Hc]; apply Ascii.eqb_eq in Hc; now subst c.
Qed.

Lemma token_one_line m : token m = true -> one_line m = true.
Proof.
  unfold token, one_line, passes. induction m as [|c m IH]; simpl; [reflexivity|].
  intros H. apply andb_prop in H as [Hc H]. rewrite (IH H), andb_true_r.
  apply negb_true_iff, orb_false_iff in Hc as [Hs Hn]. rewrite Hn. simpl.
  destruct (Ascii.eqb c CR) eqn:E; [|reflexivity].
  apply Ascii.eqb_eq in E. subst c. discriminate Hs.
Qed.

Lemma line_tail_one_line tail : line_tail tail = true -> one_line tail = true.
Proof.
  destruct tail as [|c tail]; [reflexivity|]. unfold line_tail. intros H.
  now apply andb_prop in H as [_ H].
Qed.

(** The first line of the buffer, as [parse_http] cuts it out. *)
Lemma http_server_first_line line rest a1 a2 len :
  one_line line = true -> 0 < len ->
  HttpServer.parse_http a1 a2 (line +:+ CRLF +:+ rest) len
  = if negb a1 then None
    else let '(scanned, m, u) := HttpServer.sscanf3 line in
         if scanned <? 2 then None
         else if negb a2 then None
         else Some {| method := strncpy (METHOD_SIZE - 1) m;
                      url := strncpy (URL_SIZE - 1) u |}.
Proof.
  intros Hl Hlen. unfold HttpServer.parse_http.
  replace (len <=? 0) with false by (symmetry; apply Z.leb_gt; exact Hlen).
  rewrite (cstring_app (fun c => Ascii.eqb c CR)) by exact Hl.
  change (cstring (CRLF +:+ rest)) with (CRLF +:+ cstring rest).
  rewrite strstr_crlf_line by exact Hl.
  now rewrite take_bytes_app.
Qed.

Lemma take_token_full m tail :
  token m = true -> HttpServer.take_token (String.length m) (m +:+ tail) = m.
Proof.
  unfold token. induction m as [|c m IH]; intros Hm; rewrite ?append_cons, ?append_nil.
  - reflexivity.
  - simpl in Hm. apply andb_prop in Hm as [Hc Hm]. apply negb_true_iff in Hc.
    simpl. rewrite Hc. f_equal. now apply IH.
Qed.

Lemma strstr_no_cr buf :
  all_bytes (fun c => negb (Ascii.eqb c CR)) buf = true -> strstr (cstring buf) CRLF = None.
Proof.
  induction buf as [|c buf IH]; simpl; [reflexivity|]. intros H.
  apply andb_prop in H as [Hc H]. apply negb_true_iff in Hc.
  destruct (Ascii.eqb c NUL); [reflexivity|].
  cbn [strstr]. unfold CRLF at 1. cbn [starts_with].
  rewrite Ascii.eqb_sym, Hc. cbn [andb]. now rewrite (IH H).
Qed.

Lemma blanks_stop ws s :
  blanks ws = true -> (0 < String.length ws)%nat ->
  match ws +:+ s with
  | EmptyString => True
  | String c _ => isspace c || Ascii.eqb c NUL = true
  end.
Proof.
  destruct ws as [|c ws]; [simpl; lia|]. intros H _. rewrite append_cons.
  unfold blanks in H. simpl in H. apply andb_prop in H as [H _].
  now rewrite (blank_is_space c H).
Qed.

Lemma nonempty_length (s : string) : (0 < String.length s)%nat -> s <> EmptyString.
Proof. destruct s; simpl; [lia | discriminate]. Qed.

(** X25. [parse_http] of [http-server.c] on a request line: blanks,
    a method of at most 31 bytes, blanks, a target of at most 2047
    bytes, then nothing or a blank and anything up to the line
    terminator.  The request holds the first 15 bytes of the method and
    the first 1023 bytes of the target, whatever follows the target
    and whatever follows the line. *)
Theorem http_server_parse_http_line ws0 m ws1 u tail rest len :
  blanks ws0 = true ->
  token m = true -> (0 < String.length m <= 31)%nat ->
  blanks ws1 = true -> (0 < String.length ws1)%nat ->
  token u = true -> (0 < String.length u <= 2047)%nat ->
  line_tail tail = true ->
  0 < len ->
  HttpServer.parse_http true true
    (ws0 +:+ m +:+ ws1 +:+ u +:+ tail +:+ CRLF +:+ rest) len
  = Some {| method := take_bytes 15 m; url := take_bytes 1023 u |}.
Proof.
  intros Hw0 Hm Hml Hw1 Hw1l Hu Hul Ht Hlen.
  replace (ws0 +:+ m +:+ ws1 +:+ u +:+ tail +:+ CRLF +:+ rest)
    with ((ws0 +:+ m +:+ ws1 +:+ u +:+ tail) +:+ CRLF +:+ rest)
    by now rewrite !append_assoc_s.
  rewrite http_server_first_line; [|repeat apply one_line_app|exact Hlen].
  - cbn [negb]. unfold HttpServer.sscanf3.
    rewrite (scan_s_token 31 ws0 m (ws1 +:+ u +:+ tail));
      [|exact Hw0|exact Hm|apply nonempty_length; lia|lia|now apply blanks_stop].
    rewrite (scan_s_token 2047 ws1 u tail);
      [|exact Hw1|exact Hu|apply nonempty_length; lia|lia|now apply line_tail_stops].
    now destruct (HttpServer.scan_s 31 tail).
  - now apply blanks_one_line.
  - now apply token_one_line.
  - now apply blanks_one_line.
  - now apply token_one_line.
  - now apply line_tail_one_line.
Qed.

Lemma http_server_parse_http_line_witness :
  HttpServer.parse_http true true
    ("GET" +:+ " " +:+ "/index.html" +:+ " HTTP/1.1" +:+ CRLF +:+ "Host: a" +:+ CRLF +:+ CRLF) 40
  = Some {| method := "GET"; url := "/index.html" |}.
Proof.
  apply (http_server_parse_http_line EmptyString "GET" " " "/index.html" " HTTP/1.1"
           ("Host: a" +:+ CRLF +:+ CRLF) 40);
    try reflexivity; simpl; lia.
Defined.

(** X26. What [parse_http] of [http-server.c] refuses, whatever the
    allocations and the length passed: a buffer with no carriage
    return, and a first line that holds one token of at most 31 bytes
    (or none) between blanks. *)
Theorem http_server_parse_http_refuses a1 a2 len :
  (forall buf,
     all_bytes (fun c => negb (Ascii.eqb c CR)) buf = true ->
     HttpServer.parse_http a1 a2 buf len = None) /\
  (forall ws0 m ws1 rest,
     blanks ws0 = true -> token m = true -> (String.length m <= 31)%nat ->
     blanks ws1 = true ->
     HttpServer.parse_http a1 a2 (ws0 +:+ m +:+ ws1 +:+ CRLF +:+ rest) len = None).
Proof.
  split.
  - intros buf H. unfold HttpServer.parse_http.
    rewrite (strstr_no_cr buf H). now destruct (len <=? 0).
  - intros ws0 m ws1 rest Hw0 Hm Hml Hw1.
    destruct (Z.leb_spec len 0) as [Hle|Hlt].
    { unfold HttpServer.parse_http.
      now replace (len <=? 0) with true by (symmetry; now apply Z.leb_le). }
    replace (ws0 +:+ m +:+ ws1 +:+ CRLF +:+ rest)
      with ((ws0 +:+ m +:+ ws1) +:+ CRLF +:+ rest)
      by now rewrite !append_assoc_s.
    rewrite http_server_first_line; [|repeat apply one_line_app|exact Hlt].
    + destruct a1; [|reflexivity]. cbn [negb]. unfold HttpServer.sscanf3.
      destruct m as [|c m].
      * rewrite append_nil, <- (append_nil_r (ws0 +:+ ws1)), append_assoc_s.
        unfold HttpServer.scan_s at 1.
        rewrite !skip_spaces_blanks by assumption. reflexivity.
      * rewrite (scan_s_token 31 ws0 (String c m) ws1);
          [|exact Hw0|exact Hm|discriminate|exact Hml|].
        -- now rewrite (scan_s_nothing 2047 ws1 Hw1).
        -- destruct ws1 as [|b ws1]; [exact I|].
           unfold blanks in Hw1. simpl in Hw1. apply andb_prop in Hw1 as [Hb _].
           now rewrite (blank_is_space b Hb).
    + now apply blanks_one_line.
    + now apply token_one_line.
    + now apply blanks_one_line.
Qed.

Lemma http_server_parse_http_refuses_witness :
  HttpServer.parse_http true true ("GET /index.html HTTP/1.1" +:+ String LF EmptyString) 25 = None
  /\ HttpServer.parse_http true true ("GET" +:+ " " +:+ CRLF +:+ CRLF) 8 = None.
Proof.
  split.
  - apply (proj1 (http_server_parse_http_refuses true true 25)). reflexivity.
  - apply (proj2 (http_server_parse_http_refuses true true 8) EmptyString "GET" " " CRLF);
      try reflexivity. simpl. lia.
Defined.

(** X27. The width of the first conversion cuts a long method in two:
    when the first token of the line has more than 31 bytes, its first
    31 are the method and the bytes after them are scanned as the
    target, so [parse_http] of [http-server.c] accepts a line that
    holds one token only. *)
Theorem http_server_long_method_spills ws0 m1 m2 tail rest len :
  blanks ws0 = true ->
  token m1 = true -> String.length m1 = 31%nat ->
  token m2 = true -> (0 < String.length m2 <= 2047)%nat ->
  line_tail tail = true ->
  0 < len ->
  HttpServer.parse_http true true (ws0 +:+ (m1 +:+ m2) +:+ tail +:+ CRLF +:+ rest) len
  = Some {| method := take_bytes 15 m1; url := take_bytes 1023 m2 |}.
Proof.
  intros Hw0 Hm1 Hl1 Hm2 Hl2 Ht Hlen.
  replace (ws0 +:+ (m1 +:+ m2) +:+ tail +:+ CRLF +:+ rest)
    with ((ws0 +:+ m1 +:+ m2 +:+ tail) +:+ CRLF +:+ rest)
    by now rewrite !append_assoc_s.
  rewrite http_server_first_line; [|repeat apply one_line_app|exact Hlen].
  - cbn [negb]. unfold HttpServer.sscanf3.
    assert (Hne : m1 <> EmptyString) by (apply nonempty_length; lia).
    unfold HttpServer.scan_s at 1.
    rewrite skip_spaces_blanks, skip_spaces_token by assumption.
    rewrite <- Hl1 at 1. rewrite take_token_full by exact Hm1.
    destruct m1 as [|c m1]; [contradiction|]. cbv beta iota.
    rewrite advance_app_all.
    rewrite <- (append_nil (m2 +:+ tail)).
    rewrite (scan_s_token 2047 EmptyString m2 tail);
      [|reflexivity|exact Hm2|apply nonempty_length; lia|lia|now apply line_tail_stops].
    now destruct (HttpServer.scan_s 31 tail).
  - now apply blanks_one_line.
  - now apply token_one_line.
  - now apply token_one_line.
  - now apply line_tail_one_line.
Qed.

Lemma http_server_long_method_spills_witness :
  HttpServer.parse_http true true
    ("ABCDEFGHIJKLMNOPQRSTUVWXYZabcdefghij" +:+ CRLF +:+ CRLF) 40
  = Some {| method := "ABCDEFGHIJKLMNO"; url := "fghij" |}.
Proof.
  apply (http_server_long_method_spills EmptyString "ABCDEFGHIJKLMNOPQRSTUVWXYZabcde" "fghij"
           EmptyString (CRLF) 40);
    try reflexivity; simpl; lia.
Defined.

(** * [main] of [httpd.c] *)

Lemma httpd_serve_one_open_fds alloc c input error w :
  open_fds (snd (Httpd.serve_one alloc c input error w)) = open_fds w.
Proof.
  unfold Httpd.serve_one, Httpd.cli_read, sys_read.
  destruct input as [|[data|e] rest]; cbv beta iota zeta; cbn [bytes_read read_errno buffer];
    repeat match goal with
           | |- context [if ?b then _ else _] => destruct b
           end; try reflexivity;
    destruct (Httpd.parse_http _ _ _ _) as [[[req|] p] err]; try reflexivity;
    cbn [snd]; unfold Httpd.respond, Httpd.http_send_response, snprintf;
    repeat match goal with
           | |- context [if ?b then _ else _] => destruct b
           end; reflexivity.
Qed.

Lemma httpd_serve_loop_open_fds alloc c fuel input error w w' :
  Httpd.serve_loop fuel alloc c input error w = Some w' -> open_fds w' = open_fds w.
Proof.
  revert input error w. induction fuel as [|fuel IH]; intros input error w; [discriminate|].
  cbn [Httpd.serve_loop].
  pose proof (httpd_serve_one_open_fds alloc c input error w) as Hone.
  destruct (Httpd.serve_one alloc c input error w) as [[[k input'] error'] w1].
  cbn [snd] in Hone. destruct k as [k|].
  - destruct (k =? 0); intros H.
    + injection H as <-. exact Hone.
    + rewrite (IH _ _ _ H). exact Hone.
  - intros H. injection H as <-. exact Hone.
Qed.

Lemma httpd_cli_conn_open_fds alloc c input error w :
  exists w0, Httpd.cli_conn alloc c input error w = Some (sys_close c w0) /\
             open_fds w0 = open_fds w.
Proof.
  unfold Httpd.cli_conn.
  destruct (httpd_serve_loop_spec alloc c (S (Httpd.weight input)) input error w)
    as (w0 & H0 & _); [lia|].
  rewrite H0. exists w0. split; [reflexivity|].
  exact (httpd_serve_loop_open_fds _ _ _ _ _ _ _ H0).
Qed.

Lemma httpd_accept_loop_open_fds s turns error w :
  open_fds w ⊆ {[s]} ->
  exists r w', Httpd.accept_loop s turns error w = Some (r, w') /\
    match r with
    | Serving => open_fds w' ⊆ {[s]}
    | Exited status => status = 0 /\ open_fds w' = ∅
    end.
Proof.
  revert error w. induction turns as [|t turns IH]; intros error w Hw.
  { exists Serving, w. split; [reflexivity | exact Hw]. }
  cbn [Httpd.accept_loop]. unfold Httpd.cli_accept, sys_accept.
  destruct (Httpd.accept_ret t <? 0) eqn:Ec.
  - change (-1 <? 0) with true. cbv beta iota. apply IH.
    unfold fprintf_stderr, sys_open, emit. cbn [open_fds]. now rewrite Ec.
  - cbv beta iota. rewrite Ec.
    assert (Hopen : open_fds (sys_open (Httpd.accept_ret t) w)
                    = open_fds w ∪ {[Httpd.accept_ret t]}).
    { unfold sys_open. cbn [open_fds]. now rewrite Ec. }
    destruct (Httpd.fork_ret t).
    + apply IH. unfold sys_close, perror, printf, emit. cbn [open_fds].
      rewrite Hopen. set_solver.
    + apply IH. unfold sys_close, printf, emit. cbn [open_fds].
      rewrite Hopen. set_solver.
    + match goal with
      | |- context [Httpd.cli_conn ?a ?c ?i ?e ?w1] =>
          destruct (httpd_cli_conn_open_fds a c i e w1) as (w0 & H0 & Hfd); rewrite H0
      end.
      eexists _, _. split; [reflexivity|]. split; [reflexivity|].
      unfold sys_close at 1. unfold emit at 1. cbn [open_fds]. rewrite Hfd.
      unfold sys_close, printf, emit. cbn [open_fds].
      rewrite Hopen. set_solver.
Qed.

Lemma httpd_srv_init_cases portno os why error w :
  let s := socket_ret os in
  (s < 0 /\
   Httpd.srv_init portno os why error w
   = (-1, take_bytes 127 ("socket() error: " +:+ cstring why +:+ String LF EmptyString),
      sys_open s w)) \/
  (0 <= s /\ Httpd.started portno os = false /\
   exists e, Httpd.srv_init portno os why error w
             = (-1, error, sys_close s (emit e (sys_open s w))) /\ is_stderr e = true) \/
  (0 <= s /\ Httpd.started portno os = true /\
   Httpd.srv_init portno os why error w = (s, error, sys_open s w)).
Proof.
  intros s. unfold Httpd.srv_init, Httpd.started. fold s.
  destruct (Z.ltb_spec s 0) as [Hs|Hs]; [left; now split|]. right.
  destruct (setsockopt_ok os); cbn [negb andb];
    [|left; split; [exact Hs|split; [reflexivity|]]; eexists; split; reflexivity].
  destruct (inet_pton_ok os); cbn [negb andb];
    [|left; split; [exact Hs|split; [reflexivity|]]; eexists; split; reflexivity].
  destruct (bind_ok os (htons portno)); cbn [negb andb];
    [|left; split; [exact Hs|split; [reflexivity|]]; eexists; split; reflexivity].
  destruct (listen_ok os); cbn [negb andb];
    [|left; split; [exact Hs|split; [reflexivity|]]; eexists; split; reflexivity].
  right. now split.
Qed.

Lemma cstring_passes s : passes (fun _ => false) (cstring s) = true.
Proof.
  unfold passes. induction s as [|c s IH]; simpl; [reflexivity|].
  destruct (Ascii.eqb c NUL) eqn:E; simpl; [reflexivity|]. now rewrite E, IH.
Qed.

Lemma passes_app stop a b :
  passes stop a = true -> passes stop b = true -> passes stop (a +:+ b) = true.
Proof.
  unfold passes. intros Ha Hb.
  induction a as [|c a IH]; rewrite ?append_cons, ?append_nil; [exact Hb|].
  simpl in *. apply andb_prop in Ha as [Hc Ha]. now rewrite Hc, IH.
Qed.

Lemma cstring_fixed s : passes (fun _ => false) s = true -> cstring s = s.
Proof.
  unfold passes. induction s as [|c s IH]; simpl; [reflexivity|]. intros H.
  apply andb_prop in H as [Hc H]. apply negb_true_iff, orb_false_iff in Hc as [Hc _].
  now rewrite Hc, IH.
Qed.

(** X28.  When [main] of [httpd.c] cannot start, it prints the global
    [error] as the reason and returns -1 with no descriptor left open.
    Only a failed [socket] writes that text: after a failed
    [setsockopt], [inet_pton], [bind] or [listen] the message of the
    failed step is followed by an empty line, since [error] is still
    zeroed. *)
Theorem httpd_startup_failure_reason
    (argv : list string) (port why : string) (os : setup) (turns : list Httpd.turn) :
  argv !! 1%nat = Some port ->
  (socket_ret os < 0 ->
   exists w,
     Httpd.main argv os why turns = Some (Exited (-1), w) /\
     trace w
     = [ EvStderr (take_bytes 127 ("socket() error: " +:+ cstring why +:+ String LF EmptyString)
                   +:+ String LF EmptyString) ] /\
     open_fds w = ∅) /\
  (0 <= socket_ret os -> Httpd.started (atoi port) os = false ->
   exists e w,
     Httpd.main argv os why turns = Some (Exited (-1), w) /\
     is_stderr e = true /\
     trace w = [ e; EvClose (socket_ret os); EvStderr (String LF EmptyString) ] /\
     open_fds w = ∅).
Proof.
  intros Harg. unfold Httpd.main. rewrite Harg.
  destruct (httpd_srv_init_cases (atoi port) os why EmptyString initial)
    as [[Hs Hi]|[(Hs & Hst & e & Hi & He)|(Hs & Hst & Hi)]]; rewrite Hi; clear Hi.
  - split; [intros _|intros Hs'; lia].
    change (-1 <? 0) with true. cbv beta iota.
    eexists. split; [reflexivity|]. split.
    + rewrite cstring_fixed; [reflexivity|].
      apply passes_take, passes_app; [reflexivity|].
      apply passes_app; [apply cstring_passes | reflexivity].
    + unfold fprintf_stderr, emit, sys_open. cbn [open_fds].
      now replace (socket_ret os <? 0) with true by (symmetry; now apply Z.ltb_lt).
  - split; [intros Hs'; lia|intros _ _].
    change (-1 <? 0) with true. cbv beta iota.
    exists e. eexists. split; [reflexivity|]. split; [exact He|]. split; [reflexivity|].
    unfold fprintf_stderr, sys_close, emit, sys_open. cbn [open_fds].
    replace (socket_ret os <? 0) with false by (symmetry; now apply Z.ltb_ge).
    set_solver.
  - split; [intros Hs'; lia|intros _ Hf; congruence].
Qed.

Lemma httpd_startup_failure_reason_witness :
  exists e w,
    Httpd.main ["httpd"; "8080"]
      {| socket_ret := 3; setsockopt_ok := true; inet_pton_ok := true;
         bind_ok := fun _ => false; listen_ok := true; srv_getfl_ok := true;
         srv_setfl_ok := true; epoll_create1_ret := 4; add_server_ok := true |}
      "Address already in use" []
    = Some (Exited (-1), w) /\
    is_stderr e = true /\
    trace w = [ e; EvClose 3; EvStderr (String LF EmptyString) ] /\
    open_fds w = ∅.
Proof.
  apply (proj2 (httpd_startup_failure_reason ["httpd"; "8080"] "8080" "Address already in use"
                  {| socket_ret := 3; setsockopt_ok := true; inet_pton_ok := true;
                     bind_ok := fun _ => false; listen_ok := true; srv_getfl_ok := true;
                     srv_setfl_ok := true; epoll_create1_ret := 4; add_server_ok := true |}
                  [] eq_refl)).
  - simpl. lia.
  - reflexivity.
Defined.

(** X29.  [main] of [httpd.c], followed through any number of turns
    of its loop in one process, always has an answer.  A process that
    has left [main] holds no descriptor: the child closes the listening
    socket and its client's, a failed start closes the socket it
    opened.  The parent, while it serves, holds at most the listening
    socket: every descriptor that [accept] gave it is closed within
    the same turn, whether [fork] failed or not. *)
Theorem httpd_main_keeps_no_client
    (argv : list string) (why : string) (os : setup) (turns : list Httpd.turn) :
  exists r w,
    Httpd.main argv os why turns = Some (r, w) /\
    match r with
    | Serving => open_fds w ⊆ {[socket_ret os]}
    | Exited _ => open_fds w = ∅
    end.
Proof.
  unfold Httpd.main. destruct (argv !! 1%nat) as [port|].
  2:{ eexists _, _. split; reflexivity. }
  destruct (httpd_srv_init_cases (atoi port) os why EmptyString initial)
    as [[Hs Hi]|[(Hs & Hst & e & Hi & He)|(Hs & Hst & Hi)]]; rewrite Hi; clear Hi.
  - change (-1 <? 0) with true. cbv beta iota.
    eexists _, _. split; [reflexivity|].
    unfold fprintf_stderr, emit, sys_open. cbn [open_fds].
    now replace (socket_ret os <? 0) with true by (symmetry; now apply Z.ltb_lt).
  - change (-1 <? 0) with true. cbv beta iota.
    eexists _, _. split; [reflexivity|].
    unfold fprintf_stderr, sys_close, emit, sys_open. cbn [open_fds].
    replace (socket_ret os <? 0) with false by (symmetry; now apply Z.ltb_ge).
    set_solver.
  - replace (socket_ret os <? 0) with false by (symmetry; now apply Z.ltb_ge).
    match goal with
    | |- context [Httpd.accept_loop ?s ?t ?e ?w1] =>
        destruct (httpd_accept_loop_open_fds s t e w1) as (r & w' & Hr & Hfd)
    end.
    + unfold printf, emit, sys_open. cbn [open_fds].
      replace (socket_ret os <? 0) with false by (symmetry; now apply Z.ltb_ge).
      set_solver.
    + exists r, w'. split; [exact Hr|]. destruct r; [now destruct Hfd | exact Hfd].
Qed.

(** * [main] of [http-server.c] *)

Lemma sys_read_open_fds fd count input w :
  open_fds (snd (sys_read fd count input w)) = open_fds w.
Proof. unfold sys_read. now destruct input as [|[data|e] rest]. Qed.

Lemma read_loop_open_fds c fuel buf input w :
  match HttpServer.read_loop fuel c buf input w with
  | HttpServer.Returned _ _ w' | HttpServer.Blocked w' => open_fds w' = open_fds w
  | HttpServer.OutOfFuel => True
  end.
Proof.
  revert buf input w. induction fuel as [|fuel IH]; intros buf input w; [exact I|].
  cbn [HttpServer.read_loop].
  destruct (negb (strlen buf <? HttpServer.REQ_BUFSIZE - 1)); [reflexivity|].
  destruct input as [|x input0]; [reflexivity|].
  pose proof (sys_read_open_fds c (HttpServer.REQ_BUFSIZE - 1 - strlen buf) (x :: input0) w)
    as Hfd.
  destruct (sys_read c _ (x :: input0) w) as [[r input'] w1]. cbn [snd] in Hfd.
  destruct (bytes_read r <? 0).
  - destruct (read_errno r =? HttpServer.EINTR); [|exact Hfd].
    specialize (IH buf input' w1).
    destruct (HttpServer.read_loop fuel c buf input' w1); [| |exact I]; congruence.
  - destruct (bytes_read r =? 0); [exact Hfd|].
    destruct (strstr _ _); [exact Hfd|].
    specialize (IH (buf +:+ buffer r) input' w1).
    destruct (HttpServer.read_loop fuel c (buf +:+ buffer r) input' w1); [| |exact I];
      congruence.
Qed.

Lemma http_server_cli_conn_open_fds a1 a2 a3 fd input w :
  match HttpServer.cli_conn a1 a2 a3 fd input w with
  | HttpServer.Returned _ _ w' => open_fds w' = open_fds w ∖ {[fd]}
  | HttpServer.Blocked w' => open_fds w' = open_fds w
  | HttpServer.OutOfFuel => False
  end.
Proof.
  unfold HttpServer.cli_conn, HttpServer.read_request_headers.
  destruct a1; cbn [negb]; [|reflexivity].
  pose proof (read_loop_spec fd (S (Httpd.weight input)) EmptyString input w
                ltac:(lia) ltac:(vm_compute; discriminate)) as Hspec.
  pose proof (read_loop_open_fds fd (S (Httpd.weight input)) EmptyString input w) as Hfd.
  destruct (HttpServer.read_loop _ fd EmptyString input w) as [[buf|] input' w1|w1|];
    [| |exact Hfd|exact Hspec].
  - destruct (HttpServer.parse_http a2 a3 buf (strlen buf)) as [r|].
    + unfold snprintf. cbv beta iota zeta.
      unfold sys_close, printf, emit. cbn [open_fds]. now rewrite Hfd.
    + unfold sys_close, printf, fprintf_stderr, emit. cbn [open_fds]. now rewrite Hfd.
  - unfold sys_close, fprintf_stderr, emit. cbn [open_fds]. now rewrite Hfd.
Qed.

Lemma http_server_accept_loop_open_fds s turns w :
  open_fds w ⊆ {[s]} ->
  match HttpServer.accept_loop s turns w with
  | HttpServer.Stands Serving w' => open_fds w' ⊆ {[s]}
  | HttpServer.Stands (Exited _) w' => open_fds w' = ∅
  | HttpServer.Waits w' => (s ∉ open_fds w') /\ exists c, open_fds w' ⊆ {[c]}
  | HttpServer.Unknown => False
  end.
Proof.
  revert w. induction turns as [|t turns IH]; intros w Hw; [exact Hw|].
  cbn [HttpServer.accept_loop]. unfold HttpServer.cli_accept, sys_accept.
  destruct (HttpServer.accept_ret t <? 0) eqn:Ec.
  - change (-1 <? 0) with true. cbv beta iota. apply IH.
    destruct (negb _); unfold perror, sys_open, emit; cbn [open_fds]; now rewrite Ec.
  - cbv beta iota. rewrite Ec.
    assert (Hopen : open_fds (sys_open (HttpServer.accept_ret t) w)
                    = open_fds w ∪ {[HttpServer.accept_ret t]}).
    { unfold sys_open. cbn [open_fds]. now rewrite Ec. }
    destruct (HttpServer.fork_ret t).
    + apply IH. unfold sys_close, perror, emit. cbn [open_fds]. rewrite Hopen. set_solver.
    + apply IH. unfold sys_close, emit. cbn [open_fds]. rewrite Hopen. set_solver.
    + match goal with
      | |- context [HttpServer.cli_conn ?a ?b ?c ?fd ?i ?w1] =>
          pose proof (http_server_cli_conn_open_fds a b c fd i w1) as Hfd;
          destruct (HttpServer.cli_conn a b c fd i w1) as [u i' w'|w'|]
      end; [| |exact Hfd].
      * rewrite Hfd. unfold sys_close, emit. cbn [open_fds]. rewrite Hopen. set_solver.
      * rewrite Hfd. unfold sys_close, emit. cbn [open_fds]. rewrite Hopen.
        split; [set_solver|]. exists (HttpServer.accept_ret t). set_solver.
Qed.

(** X30.  [main] of [http-server.c], followed through any number of
    turns of its loop in one process.  A process that has left [main]
    holds no descriptor.  The parent, while it serves, holds at most
    the listening socket; a child that waits for its client holds at
    most one descriptor, and never the listening socket.  Neither is
    reached unless the port argument reads as a positive [int]: it is
    the value that [atoi] leaves in an [int] that is tested, so
    -4294920659 passes as 46637 and 2147483648 is refused. *)
Theorem http_server_main_descriptors
    (argv : list string) (os : setup) (turns : list HttpServer.turn) :
  match HttpServer.main argv os turns with
  | HttpServer.Stands (Exited _) w => open_fds w = ∅
  | HttpServer.Stands Serving w => positive_port argv /\ open_fds w ⊆ {[socket_ret os]}
  | HttpServer.Waits w =>
      positive_port argv /\ (socket_ret os ∉ open_fds w) /\ exists c, open_fds w ⊆ {[c]}
  | HttpServer.Unknown => False
  end /\
  atoi "-4294920659" = 46637 /\
  HttpServer.main ["http-server"; "-4294920659"] friendly_os []
  = HttpServer.Stands Serving
      (printf ("Listening on 127.0.0.1:46637" +:+ String LF EmptyString)
         (sys_open (socket_ret friendly_os) initial)) /\
  HttpServer.main ["http-server"; "2147483648"] os turns
  = HttpServer.Stands (Exited 1)
      (fprintf_stderr ("Bad port" +:+ String LF EmptyString) initial).
Proof.
  split; [|split; [|split]]; [|vm_compute; reflexivity..].
  unfold HttpServer.main.
  destruct (argv !! 1%nat) as [arg|] eqn:Harg; [|reflexivity].
  destruct (Z.leb_spec (atoi arg) 0) as [Hport|Hport]; [reflexivity|].
  assert (Hpos : positive_port argv) by (exists arg; now split).
  unfold HttpServer.srv_init.
  destruct (Z.ltb_spec (socket_ret os) 0) as [Hs|Hs].
  { change (-1 <? 0) with true. cbv beta iota.
    unfold perror, sys_open, emit. cbn [open_fds].
    now replace (socket_ret os <? 0) with true by (symmetry; now apply Z.ltb_lt). }
  assert (Hclosed : forall e,
             open_fds (sys_close (socket_ret os) (emit e (sys_open (socket_ret os) initial)))
             = ∅).
  { intros e. unfold sys_close, sys_open, emit. cbn [open_fds].
    replace (socket_ret os <? 0) with false by (symmetry; now apply Z.ltb_ge).
    set_solver. }
  destruct (setsockopt_ok os); cbn [negb]; [|apply Hclosed].
  destruct (inet_pton_ok os); cbn [negb]; [|apply Hclosed].
  destruct (bind_ok os (htons (atoi arg))); cbn [negb]; [|apply Hclosed].
  destruct (listen_ok os); cbn [negb]; [|apply Hclosed].
  replace (socket_ret os <? 0) with false by (symmetry; now apply Z.ltb_ge).
  match goal with
  | |- context [HttpServer.accept_loop ?s ?t ?w1] =>
      pose proof (http_server_accept_loop_open_fds s t w1) as Hloop;
      destruct (HttpServer.accept_loop s t w1) as [[st|] w'|w'|]
  end.
  - apply Hloop. unfold printf, sys_open, emit. cbn [open_fds].
    replace (socket_ret os <? 0) with false by (symmetry; now apply Z.ltb_ge). set_solver.
  - split; [exact Hpos|]. apply Hloop. unfold printf, sys_open, emit. cbn [open_fds].
    replace (socket_ret os <? 0) with false by (symmetry; now apply Z.ltb_ge). set_solver.
  - split; [exact Hpos|]. apply Hloop. unfold printf, sys_open, emit. cbn [open_fds].
    replace (socket_ret os <? 0) with false by (symmetry; now apply Z.ltb_ge). set_solver.
  - apply Hloop. unfold printf, sys_open, emit. cbn [open_fds].
    replace (socket_ret os <? 0) with false by (symmetry; now apply Z.ltb_ge). set_solver.
Qed.
